(** * Agroprecios scraper: entity store, page parsing and crawl driver

    A shallow embedding of [agroprecios_scrapper.py].  Python objects that
    are mutated in place ([JsonStore], the dictionaries it holds) are
    modelled with explicit state passing; exceptions that the module lets
    escape are modelled with a small error monad. *)

From Stdlib Require Import ZArith String Ascii List Bool Lia.
From stdpp Require Import base option list gmap sets strings pretty.

Open Scope Z_scope.

(** ** Text

    A Python [str] is a sequence of Unicode code points. *)
#[warnings="-notation-for-abbreviation"]
Notation char := Z (only parsing).
#[warnings="-notation-for-abbreviation"]
Notation str := (list char) (only parsing).

(** String literals are written in UTF-8 and decoded: [py "..."] is the
    [str] that the same literal denotes in the Python source. *)
Fixpoint utf8 (bytes : list Z) : str :=
  match bytes with
  | [] => []
  | b :: rest =>
      if b <? 128 then b :: utf8 rest
      else
        match rest with
        | [] => [b]
        | c1 :: rest1 =>
            if b <? 224 then ((b - 192) * 64 + (c1 - 128)) :: utf8 rest1
            else
              match rest1 with
              | [] => [b; c1]
              | c2 :: rest2 =>
                  if b <? 240 then
                    ((b - 224) * 4096 + (c1 - 128) * 64 + (c2 - 128)) :: utf8 rest2
                  else
                    match rest2 with
                    | [] => [b; c1; c2]
                    | c3 :: rest3 =>
                        ((b - 240) * 262144 + (c1 - 128) * 4096
                         + (c2 - 128) * 64 + (c3 - 128)) :: utf8 rest3
                    end
              end
        end
  end.

Definition code (a : ascii) : char := Z.of_N (N_of_ascii a).

Definition bytes (s : string) : list Z := code <$> list_ascii_of_string s.

Definition py (s : string) : str := utf8 (bytes s).

(** [c.isspace()], which is also what [str.strip] removes and what [\s]
    matches: the characters of general category Zs or of bidirectional
    class WS, B or S. *)
Definition isspace (c : char) : bool :=
  ((9 <=? c) && (c <=? 13)) || ((28 <=? c) && (c <=? 32))
  || (c =? 133) || (c =? 160) || (c =? 5760)
  || ((8192 <=? c) && (c <=? 8202))
  || (c =? 8232) || (c =? 8233) || (c =? 8239) || (c =? 8287) || (c =? 12288).

(** The decimal digits (general category Nd) come in runs of ten, from the
    digit zero to the digit nine of a script; these are the code points of
    the zeros, as of Unicode 14.0, the database of CPython 3.11. *)
Definition decimal_zeros : list Z :=
  [48; 1632; 1776; 1984; 2406; 2534; 2662; 2790; 2918; 3046; 3174; 3302;
   3430; 3558; 3664; 3792; 3872; 4160; 4240; 6112; 6160; 6470; 6608; 6784;
   6800; 6992; 7088; 7232; 7248; 42528; 43216; 43264; 43472; 43504; 43600;
   44016; 65296; 66720; 68912; 69734; 69872; 69942; 70096; 70384; 70736;
   70864; 71248; 71360; 71472; 71904; 72016; 72784; 73040; 73120; 92768;
   92864; 93008; 120782; 120792; 120802; 120812; 120822; 123200; 123632;
   125264; 130032].

(** The value of a decimal digit: what [\d] matches and [int] reads. *)
Definition decimal (c : char) : option Z :=
  z ← List.find (λ z, (z <=? c) && (c <? z + 10)) decimal_zeros;
  Some (c - z).

Definition isdecimal (c : char) : bool := bool_decide (is_Some (decimal c)).

(** The ASCII letters in lower and in upper case. *)
Definition ascii_lower (c : char) : char :=
  if (65 <=? c) && (c <=? 90) then c + 32 else c.

Definition ascii_upper (c : char) : char :=
  if (97 <=? c) && (c <=? 122) then c - 32 else c.

Definition is_ascii (c : char) : Prop := 0 ≤ c < 128.

#[global] Instance is_ascii_dec (c : char) : Decision (is_ascii c).
Proof. unfold is_ascii. apply _. Defined.

(** [str.lower()] follows the case mappings of the Unicode database, some
    of which depend on the neighbours of a character or give several
    characters for one.  It is a parameter of the development, of which
    only this much is used: on a text of ASCII characters it puts the
    letters A to Z in lower case and leaves the rest. *)
Class CaseMapping := {
  lower : str → str;
  lower_ascii : ∀ s, Forall is_ascii s → lower s = ascii_lower <$> s
}.

(** [str.lower()] on the characters of the ASCII and Latin-1 ranges, where
    it works character by character: the letters A to Z and the letters
    from U+00C0 to U+00DE, but for the multiplication sign, have their
    lower case 32 places further. *)
Definition latin1_lower (c : char) : char :=
  if ((65 <=? c) && (c <=? 90))
     || ((192 <=? c) && (c <=? 222) && negb (c =? 215))
  then c + 32 else c.

Lemma latin1_lower_ascii (s : str) :
  Forall is_ascii s → latin1_lower <$> s = ascii_lower <$> s.
Proof.
  induction 1 as [|c s Hc _ IH]; [reflexivity|].
  rewrite !fmap_cons, IH. f_equal. unfold latin1_lower, ascii_lower.
  unfold is_ascii in Hc.
  destruct (192 <=? c) eqn:E; [apply Z.leb_le in E; lia|].
  by rewrite andb_false_l, orb_false_r.
Qed.

Definition latin1 : CaseMapping :=
  {| lower := fmap latin1_lower; lower_ascii := latin1_lower_ascii |}.

(** [s.upper()], as far as the letters E, R and O are concerned: the ASCII
    letters are mapped to upper case.  [str.upper] changes other characters
    as well, but it never turns a character other than e, r and o into one
    of E, R and O, and it maps no character to nothing; so the block ERROR
    occurs in [s.upper()] exactly when it occurs here. *)
Definition upper (s : str) : str := ascii_upper <$> s.

(** [s.lstrip()], [s.rstrip()] and [s.strip()]. *)
Fixpoint lstrip (s : str) : str :=
  match s with
  | [] => []
  | c :: s' => if isspace c then lstrip s' else s
  end.

Fixpoint rstrip (s : str) : str :=
  match s with
  | [] => []
  | c :: s' =>
      match rstrip s' with
      | [] => if isspace c then [] else [c]
      | r => c :: r
      end
  end.

Definition strip (s : str) : str := rstrip (lstrip s).

(** Truth value of a string: [bool(s)] is false exactly for the empty one. *)
Definition nonempty (s : str) : bool :=
  match s with [] => false | _ => true end.

(** [s.startswith(p)]. *)
Fixpoint startswith (p s : str) : bool :=
  match p, s with
  | [], _ => true
  | a :: p', b :: s' => bool_decide (a = b) && startswith p' s'
  | _ :: _, [] => false
  end.

(** [p in s] for strings: [p] occurs in [s] as a contiguous block. *)
Fixpoint contains (p s : str) : bool :=
  startswith p s ||
  match s with
  | [] => false
  | _ :: s' => contains p s'
  end.

(** [sep.join(parts)]. *)
Fixpoint join (sep : str) (parts : list str) : str :=
  match parts with
  | [] => []
  | [p] => p
  | p :: rest => p ++ sep ++ join sep rest
  end.

(** [re.sub(r"[^0-9]", "", s)]: the characters [0] to [9] of [s], in
    order. *)
Definition is_0_9 (c : char) : bool := (48 <=? c) && (c <=? 57).

Fixpoint only_digits (s : str) : str :=
  match s with
  | [] => []
  | c :: s' => if is_0_9 c then c :: only_digits s' else only_digits s'
  end.

(** ** Exceptions

    The exceptions the module does not catch: [ValueError] from [int], from
    the [date] constructor and from [strptime], and [OverflowError] from
    date arithmetic. *)
Inductive exn := ValueError | OverflowError.

Inductive result (A : Type) : Type :=
| Ok (a : A)
| Raise (e : exn).
Arguments Ok {A} a.
Arguments Raise {A} e.

#[global] Instance result_ret : MRet result := @Ok.
#[global] Instance result_bind : MBind result :=
  λ A B f r, match r with Ok a => f a | Raise e => Raise e end.

(** A [for] loop whose body may raise. *)
Fixpoint for_each {S A} (body : S → A → result S) (xs : list A) (s : S) : result S :=
  match xs with
  | [] => Ok s
  | x :: rest => s' ← body s x; for_each body rest s'
  end.

(** ** [int]

    [int(s)] reads an optional sign and decimal digits, which single
    underscores may separate, with white space around.  The white space it
    skips is that of [str.isspace] but for the separators 0x1c to 0x1f.  It
    raises [ValueError] on any other text, and on more than 4300 digits
    ([sys.get_int_max_str_digits()], CPython 3.11).  Python integers are
    unbounded, and so is [Z]. *)
Definition int_space (c : char) : bool :=
  isspace c && negb ((28 <=? c) && (c <=? 31)).

Fixpoint int_lstrip (s : str) : str :=
  match s with
  | [] => []
  | c :: s' => if int_space c then int_lstrip s' else s
  end.

Fixpoint int_rstrip (s : str) : str :=
  match s with
  | [] => []
  | c :: s' =>
      match int_rstrip s' with
      | [] => if int_space c then [] else [c]
      | r => c :: r
      end
  end.

(** The values of digits that single underscores may separate. *)
Fixpoint digit_values (s : str) : option (list Z) :=
  match s with
  | [] => None
  | c :: rest =>
      d ← decimal c;
      match rest with
      | [] => Some [d]
      | c' :: rest' =>
          ds ← (if c' =? 95 then digit_values rest' else digit_values rest);
          Some (d :: ds)
      end
  end.

Definition horner (ds : list Z) : Z := fold_left (λ acc d, 10 * acc + d) ds 0.

Definition int_max_str_digits : nat := 4300.

Definition int (s : str) : result Z :=
  let t := int_rstrip (int_lstrip s) in
  let '(sign, body) :=
    match t with
    | c :: t' => if c =? 45 then (-1, t') else if c =? 43 then (1, t') else (1, t)
    | [] => (1, t)
    end in
  match digit_values body with
  | None => Raise ValueError
  | Some ds =>
      if (int_max_str_digits <? length ds)%nat then Raise ValueError
      else Ok (sign * horner ds)
  end.

(** ** The entity store *)

(** The dictionaries kept in the four collections, with the entries the
    store writes and reads back: every record carries its identifier, so
    [item.get("id", 0)] reads it.  A product's ["url"] may be missing or
    [None]; both read as [None] through [dict.get]. *)
Record subasta := { sub_id : Z; sub_nombre : str }.
Record familia := { fam_id : Z; fam_nombre : str }.
Record producto :=
  { pro_id : Z; pro_familia_id : Z; pro_nombre : str; pro_url : option str }.
Record precio :=
  { pre_subasta_id : Z; pre_fecha : str; pre_producto_id : Z;
    pre_corte : Z; pre_precio : Z }.

#[global] Instance subasta_eq_dec : EqDecision subasta.
Proof. solve_decision. Defined.
#[global] Instance familia_eq_dec : EqDecision familia.
Proof. solve_decision. Defined.
#[global] Instance producto_eq_dec : EqDecision producto.
Proof. solve_decision. Defined.
#[global] Instance precio_eq_dec : EqDecision precio.
Proof. solve_decision. Defined.

Definition precio_key (p : precio) : Z * str * Z * Z :=
  (pre_subasta_id p, pre_fecha p, pre_producto_id p, pre_corte p).

(** The store.  The lookup dictionaries of the Python object hold
    references to the very dictionaries stored in the lists; since the
    lists only ever grow at their end, such a reference is modelled by the
    position of the record in its list, and an update through the reference
    is an update of the list at that position. *)
Record JsonStore := {
  subastas : list subasta;
  familias : list familia;
  productos : list producto;
  precios : list precio;
  subastas_by_id : gmap Z nat;
  familias_by_name : gmap str nat;
  productos_by_key : gmap (Z * str) nat;
  precios_keys : gset (Z * str * Z * Z)
}.

(** [{key(item): item for item in items}]: later items win. *)
Fixpoint index_from `{Countable K} {A} (key : A → K) (i : nat) (items : list A)
    (m : gmap K nat) : gmap K nat :=
  match items with
  | [] => m
  | x :: rest => index_from key (S i) rest (<[key x := i]> m)
  end.

Definition index_by `{Countable K} {A} (key : A → K) (items : list A) : gmap K nat :=
  index_from key 0%nat items ∅.

(** Following a reference held by a lookup dictionary. *)
Definition deref {A} (items : list A) (ref : option nat) : option (nat * A) :=
  i ← ref; x ← items !! i; Some (i, x).

(** [max(xs, default=d)]: the default is used for an empty sequence only. *)
Definition max_default (d : Z) (xs : list Z) : Z :=
  match xs with
  | [] => d
  | x :: rest => fold_left Z.max rest x
  end.

(** [_next_id]: [max(ids) + 1], or 1 for an empty collection. *)
Definition _next_id {A} (get_id : A → Z) (items : list A) : Z :=
  match items with
  | [] => 1
  | _ => max_default 0 (get_id <$> items) + 1
  end.

Definition upsert_subasta (st : JsonStore) (subasta_id : Z) (nombre : str)
    : JsonStore :=
  match deref (subastas st) (subastas_by_id st !! subasta_id) with
  | None =>
      let record := {| sub_id := subasta_id; sub_nombre := strip nombre |} in
      {| subastas := subastas st ++ [record];
         familias := familias st; productos := productos st; precios := precios st;
         subastas_by_id := <[subasta_id := length (subastas st)]> (subastas_by_id st);
         familias_by_name := familias_by_name st;
         productos_by_key := productos_by_key st;
         precios_keys := precios_keys st |}
  | Some (i, stored) =>
      if nonempty (strip nombre)
         && negb (bool_decide (sub_nombre stored = strip nombre))
      then
        let stored' := {| sub_id := sub_id stored; sub_nombre := strip nombre |} in
        {| subastas := <[i := stored']> (subastas st);
           familias := familias st; productos := productos st; precios := precios st;
           subastas_by_id := subastas_by_id st;
           familias_by_name := familias_by_name st;
           productos_by_key := productos_by_key st;
           precios_keys := precios_keys st |}
      else st
  end.

(** Truth value of an optional string: [None] and [""] are false. *)
Definition truthy (o : option str) : bool :=
  match o with Some s => nonempty s | None => false end.

Definition insert_precio (st : JsonStore) (subasta_id : Z) (fecha_iso : str)
    (producto_id corte precio_ : Z) : bool * JsonStore :=
  let key := (subasta_id, fecha_iso, producto_id, corte) in
  if decide (key ∈ precios_keys st) then (false, st)
  else
    let record :=
      {| pre_subasta_id := subasta_id; pre_fecha := fecha_iso;
         pre_producto_id := producto_id; pre_corte := corte;
         pre_precio := precio_ |} in
    (true,
     {| subastas := subastas st; familias := familias st;
        productos := productos st;
        precios := precios st ++ [record];
        subastas_by_id := subastas_by_id st;
        familias_by_name := familias_by_name st;
        productos_by_key := productos_by_key st;
        precios_keys := {[key]} ∪ precios_keys st |}).

(** [JsonStore.save] writes the four lists, one file each; the lookup
    dictionaries are not part of the snapshot. *)
Definition save (st : JsonStore)
    : list subasta * list familia * list producto * list precio :=
  (subastas st, familias st, productos st, precios st).

Section Store.
Context {case_mapping : CaseMapping}.

(** Natural keys, as the constructor computes them. *)
Definition familia_key (f : familia) : str := lower (strip (fam_nombre f)).
Definition producto_key (p : producto) : Z * str :=
  (pro_familia_id p, lower (strip (pro_nombre p))).

(** [JsonStore.__init__], given what [_load] returned for the four files. *)
Definition JsonStore_init (ss : list subasta) (fs : list familia)
    (ps : list producto) (rs : list precio) : JsonStore :=
  {| subastas := ss; familias := fs; productos := ps; precios := rs;
     subastas_by_id := index_by sub_id ss;
     familias_by_name := index_by familia_key fs;
     productos_by_key := index_by producto_key ps;
     precios_keys := list_to_set (precio_key <$> rs) |}.

Definition get_or_create_familia (st : JsonStore) (family_name : str)
    : Z * JsonStore :=
  let key := lower (strip family_name) in
  match deref (familias st) (familias_by_name st !! key) with
  | Some (_, existing) => (fam_id existing, st)
  | None =>
      let family_id := _next_id fam_id (familias st) in
      let record := {| fam_id := family_id; fam_nombre := strip family_name |} in
      (family_id,
       {| subastas := subastas st;
          familias := familias st ++ [record];
          productos := productos st; precios := precios st;
          subastas_by_id := subastas_by_id st;
          familias_by_name := <[key := length (familias st)]> (familias_by_name st);
          productos_by_key := productos_by_key st;
          precios_keys := precios_keys st |})
  end.

Definition get_or_create_producto (st : JsonStore) (family_id : Z)
    (product_name : str) (product_url : option str) : Z * JsonStore :=
  let key := (family_id, lower (strip product_name)) in
  match deref (productos st) (productos_by_key st !! key) with
  | Some (i, existing) =>
      if truthy product_url && negb (truthy (pro_url existing))
      then
        let existing' :=
          {| pro_id := pro_id existing; pro_familia_id := pro_familia_id existing;
             pro_nombre := pro_nombre existing; pro_url := product_url |} in
        (pro_id existing,
         {| subastas := subastas st; familias := familias st;
            productos := <[i := existing']> (productos st);
            precios := precios st;
            subastas_by_id := subastas_by_id st;
            familias_by_name := familias_by_name st;
            productos_by_key := productos_by_key st;
            precios_keys := precios_keys st |})
      else (pro_id existing, st)
  | None =>
      let product_id := _next_id pro_id (productos st) in
      let record :=
        {| pro_id := product_id; pro_familia_id := family_id;
           pro_nombre := strip product_name; pro_url := product_url |} in
      (product_id,
       {| subastas := subastas st; familias := familias st;
          productos := productos st ++ [record];
          precios := precios st;
          subastas_by_id := subastas_by_id st;
          familias_by_name := familias_by_name st;
          productos_by_key := <[key := length (productos st)]> (productos_by_key st);
          precios_keys := precios_keys st |})
  end.
End Store.

(** ** Parsed documents

    What [BeautifulSoup] hands to the module: a tree of tags and text
    strings.  A tag carries its name, its ["class"] attribute as the list of
    classes, and its other attributes as a dictionary. *)
#[warnings="-register-all"]
Inductive node :=
| Text (s : str)
| Tag (name : str) (classes : list str) (attrs : gmap str str)
      (children : list node).

(** Every node below [n], in document order. *)
Fixpoint descendants (n : node) : list node :=
  match n with
  | Text _ => []
  | Tag _ _ _ kids => flat_map (λ k, k :: descendants k) kids
  end.

(** The CSS selectors the module uses: a tag name with an optional test on
    the class attribute ([td], [td.txt], [td[class^='fam']]), alone or below
    an ancestor ([table.tab_pre_sub td.titNombreder]). *)
Inductive class_test :=
| AnyClass
| HasClass (c : str)
| ClassStartsWith (p : str).

Record compound := { sel_name : str; sel_class : class_test }.

Inductive selector :=
| Simple (c : compound)
| Below (ancestor c : compound).

Definition class_ok (t : class_test) (classes : list str) : bool :=
  match t with
  | AnyClass => true
  | HasClass c => bool_decide (c ∈ classes)
  | ClassStartsWith p => startswith p (join (py " ") classes)
  end.

Definition matches (c : compound) (n : node) : bool :=
  match n with
  | Text _ => false
  | Tag name classes _ _ =>
      bool_decide (name = sel_name c) && class_ok (sel_class c) classes
  end.

(** Tags below [n] matching [c] that have an ancestor matching [anc];
    [inside] tells whether such an ancestor was met above [n]. *)
Fixpoint select_below (anc c : compound) (inside : bool) (n : node) : list node :=
  match n with
  | Text _ => []
  | Tag _ _ _ kids =>
      let inside' := inside || matches anc n in
      flat_map
        (λ k, (if inside' && matches c k then [k] else [])
              ++ select_below anc c inside' k)
        kids
  end.

(** [n.select(sel)] and [n.select_one(sel)]. *)
Definition select (sel : selector) (n : node) : list node :=
  match sel with
  | Simple c => List.filter (matches c) (descendants n)
  | Below anc c => select_below anc c false n
  end.

Definition select_one (sel : selector) (n : node) : option node :=
  head (select sel n).

(** [n.get("class", [])] and [n.get(name, default)]. *)
Definition get_classes (n : node) : list str :=
  match n with
  | Text _ => []
  | Tag _ classes _ _ => classes
  end.

Definition get_attr (n : node) (name dflt : str) : str :=
  match n with
  | Text _ => dflt
  | Tag _ _ attrs _ => default dflt (attrs !! name)
  end.

(** The text strings below [n], in document order. *)
Fixpoint strings (n : node) : list str :=
  match n with
  | Text s => [s]
  | Tag _ _ _ kids => flat_map strings kids
  end.

(** [n.get_text(sep, strip=True)]: every string is stripped, the empty
    ones are dropped, the rest is joined with [sep]. *)
Definition get_text (sep : str) (n : node) : str :=
  join sep (List.filter nonempty (strip <$> strings n)).

Definition table_tab_pre_pro : selector :=
  Simple {| sel_name := py "table"; sel_class := HasClass (py "tab_pre_pro") |}.
Definition sel_tr : selector :=
  Simple {| sel_name := py "tr"; sel_class := AnyClass |}.
Definition td_fam : selector :=
  Simple {| sel_name := py "td"; sel_class := ClassStartsWith (py "fam") |}.
Definition td_pro : selector :=
  Simple {| sel_name := py "td"; sel_class := HasClass (py "pro") |}.
Definition td_txt : selector :=
  Simple {| sel_name := py "td"; sel_class := HasClass (py "txt") |}.
Definition title_cell_sel (cls : str) : selector :=
  Below {| sel_name := py "table"; sel_class := HasClass (py "tab_pre_sub") |}
        {| sel_name := py "td"; sel_class := HasClass cls |}.

(** ** Dates *)
Record date := { year : Z; month : Z; day : Z }.

Definition is_leap (y : Z) : bool :=
  (y mod 4 =? 0) && (negb (y mod 100 =? 0) || (y mod 400 =? 0)).

Definition days_in_month (y m : Z) : Z :=
  if m =? 2 then (if is_leap y then 29 else 28)
  else if (m =? 4) || (m =? 6) || (m =? 9) || (m =? 11) then 30
  else 31.

Definition valid_date (y m d : Z) : bool :=
  (1 <=? y) && (y <=? 9999) && (1 <=? m) && (m <=? 12)
  && (1 <=? d) && (d <=? days_in_month y m).

(** The constructor [date(year, month, day)]. *)
Definition date_of (y m d : Z) : result date :=
  if valid_date y m d then Ok {| year := y; month := m; day := d |}
  else Raise ValueError.

(** [d - timedelta(days=1)], and [d - timedelta(days=k)] for [k >= 0]. *)
Definition prev_day (d : date) : result date :=
  if 1 <? day d then Ok {| year := year d; month := month d; day := day d - 1 |}
  else if 1 <? month d then
    Ok {| year := year d; month := month d - 1;
          day := days_in_month (year d) (month d - 1) |}
  else if 1 <? year d then Ok {| year := year d - 1; month := 12; day := 31 |}
  else Raise OverflowError.

Fixpoint minus_days (d : date) (k : nat) : result date :=
  match k with
  | O => Ok d
  | S k' => d' ← prev_day d; minus_days d' k'
  end.

(** [str(n)] for an integer: its decimal digits, after a minus sign if it
    is negative. *)
Definition str_of_int (n : Z) : str := bytes (pretty n).

(** A number printed in decimal, padded with zeros to [w] characters. *)
Definition zero_padded (w : nat) (n : Z) : str :=
  let s := str_of_int n in replicate (w - length s) 48 ++ s.

(** [strftime("%d/%m/%Y")] and [strftime("%Y-%m-%d")].  The day and the
    month are printed on two digits.  The year is printed by the C library,
    which on Linux does not pad it: year 5 gives [5]. *)
Definition date_to_php_format (value : date) : str :=
  zero_padded 2 (day value) ++ py "/" ++ zero_padded 2 (month value)
  ++ py "/" ++ str_of_int (year value).

Definition date_to_iso (value : date) : str :=
  str_of_int (year value) ++ py "-" ++ zero_padded 2 (month value)
  ++ py "-" ++ zero_padded 2 (day value).

(** ** Regular expressions

    [re.search] tries the pattern at every position from the left and
    returns the first success. *)
Fixpoint search {A} (match_at : str → option A) (s : str) : option A :=
  match match_at s with
  | Some r => Some r
  | None =>
      match s with
      | [] => None
      | _ :: s' => search match_at s'
      end
  end.

(** A literal: the rest of [s] after the prefix [p]. *)
Fixpoint expect (p s : str) : option str :=
  match p, s with
  | [], _ => Some s
  | a :: p', b :: s' => if bool_decide (a = b) then expect p' s' else None
  | _ :: _, [] => None
  end.

(** [\d{n}]: exactly [n] decimal digits, and the rest. *)
Fixpoint digits (n : nat) (s : str) : option (str * str) :=
  match n, s with
  | O, _ => Some ([], s)
  | S n', c :: s' =>
      if isdecimal c then '(ds, rest) ← digits n' s'; Some (c :: ds, rest)
      else None
  | S _, [] => None
  end.

(** [(\d{2})-(\d{2})-(\d{4})] at the start of [s]: the three groups. *)
Definition date_pattern (s : str) : option (str * str * str) :=
  '(d, s1) ← digits 2 s;
  s2 ← expect (py "-") s1;
  '(m, s3) ← digits 2 s2;
  s4 ← expect (py "-") s3;
  '(y, _) ← digits 4 s4;
  Some (d, m, y).

(** [[^']+]: the longest run of characters other than the quote. *)
Fixpoint until_quote (s : str) : str * str :=
  match s with
  | [] => ([], [])
  | c :: s' =>
      if c =? 39 then ([], s)
      else let '(run, rest) := until_quote s' in (c :: run, rest)
  end.

(** [window\.location\s*=\s*'([^']+)'] at the start of [s]: the group. *)
Definition location_pattern (s : str) : option str :=
  s1 ← expect (py "window.location") s;
  s2 ← expect (py "=") (lstrip s1);
  s3 ← expect (py "'") (lstrip s2);
  let '(url, rest) := until_quote s3 in
  if nonempty url then _ ← expect (py "'") rest; Some url else None.

(** ** Page parsing *)
Record ParsedRow := {
  family_name : str;
  product_name : str;
  product_url : option str;
  cuts : list (option Z)
}.

Definition extract_table_date (soup : node) (fallback : date) : result date :=
  match select_one (title_cell_sel (py "titNombreder")) soup with
  | None => Ok fallback
  | Some title_cell =>
      let text := get_text (py " ") title_cell in
      match search date_pattern text with
      | None => Ok fallback
      | Some (d, m, y) =>
          year ← int y; month ← int m; day ← int d;
          date_of year month day
      end
  end.

Definition extract_auction_name (soup : node) (fallback_id : Z) : str :=
  match select_one (title_cell_sel (py "titNombreizq")) soup with
  | None => py "Subasta " ++ str_of_int fallback_id
  | Some title_cell =>
      let name := get_text (py " ") title_cell in
      if nonempty name then name else py "Subasta " ++ str_of_int fallback_id
  end.

Definition parse_product_url (row : node) : option str :=
  let onclick := get_attr row (py "onclick") [] in
  if nonempty onclick then search location_pattern onclick else None.

(** One turn of the loop of [parse_cuts]. *)
Definition parse_cuts_step (values : list (option Z)) (cell : node)
    : result (list (option Z)) :=
  let text := get_text [] cell in
  if bool_decide (text = py "-") || bool_decide (text = []) then
    Ok (values ++ [None])
  else
    let cleaned := only_digits text in
    if nonempty cleaned then v ← int cleaned; Ok (values ++ [Some v])
    else Ok (values ++ [None]).

Definition parse_cuts (row : node) : result (list (option Z)) :=
  for_each parse_cuts_step (select td_txt row) [].

(** One turn of the loop of [parse_rows], on the pair of [current_family]
    and [rows]. *)
Definition parse_rows_step (acc : str * list ParsedRow) (row : node)
    : result (str * list ParsedRow) :=
  let '(current_family, rows) := acc in
  if bool_decide (py "familias_subasta" ∈ get_classes row) then
    match select_one td_fam row with
    | Some fam_cell => Ok (get_text (py " ") fam_cell, rows)
    | None => Ok (current_family, rows)
    end
  else
    match select_one td_pro row with
    | None => Ok (current_family, rows)
    | Some product_cell =>
        if negb (nonempty current_family) then Ok (current_family, rows)
        else
          let product_name := get_text (py " ") product_cell in
          let product_url := parse_product_url row in
          cuts ← parse_cuts row;
          Ok (current_family,
              rows ++ [{| family_name := current_family;
                          product_name := product_name;
                          product_url := product_url;
                          cuts := cuts |}])
    end.

(** The loop of [parse_rows] over the rows of the table: the final
    [current_family] and [rows]. *)
Definition rows_of (trs : list node) : result (str * list ParsedRow) :=
  for_each parse_rows_step trs ([], []).

Definition parse_rows (soup : node) : result (list ParsedRow) :=
  match select_one table_tab_pre_pro soup with
  | None => Ok []
  | Some table => acc ← rows_of (select sel_tr table); Ok acc.2
  end.

Definition has_error_response (html : str) : bool :=
  contains (py "ERROR") (upper html) && negb (contains (py "tab_pre_pro") html).

(** ** The crawl driver *)

(** What [run_scrapper] prints. *)
Inductive message :=
| WarnFetchFailed (subasta_id : Z) (fecha : str)
| InfoNoValidAuction (subasta_id : Z) (fecha : str)
| InfoNoProductRows (subasta_id : Z) (fecha_iso : str)
| OkSummary (queried inserted : Z).

(** The variables of [run_scrapper]: the store it was given, its two
    counters, and the lines printed so far. *)
Record run_state := {
  store : JsonStore;
  inserted_prices : Z;
  queried : Z;
  printed : list message
}.

Definition say (rs : run_state) (m : message) : run_state :=
  {| store := store rs; inserted_prices := inserted_prices rs;
     queried := queried rs; printed := printed rs ++ [m] |}.

(** [enumerate(xs, start)]. *)
Fixpoint enumerate {A} (start : Z) (xs : list A) : list (Z * A) :=
  match xs with
  | [] => []
  | x :: rest => (start, x) :: enumerate (start + 1) rest
  end.

(** The loop over the cuts of one row. *)
Definition insert_cut (subasta_id : Z) (fecha_iso : str) (producto_id : Z)
    (acc : JsonStore * Z) (cut : Z * option Z) : JsonStore * Z :=
  let '(st, inserted) := acc in
  let '(cut_index, price) := cut in
  match price with
  | None => (st, inserted)
  | Some p =>
      let '(was_inserted, st') :=
        insert_precio st subasta_id fecha_iso producto_id cut_index p in
      (st', if was_inserted then inserted + 1 else inserted)
  end.

Section Crawl.
Context {case_mapping : CaseMapping}.

(** The loop over the parsed rows. *)
Definition store_row (subasta_id : Z) (fecha_iso : str)
    (acc : JsonStore * Z) (row : ParsedRow) : JsonStore * Z :=
  let '(st, inserted) := acc in
  let '(family_id, st1) := get_or_create_familia st (family_name row) in
  let '(product_id, st2) :=
    get_or_create_producto st1 family_id (product_name row) (product_url row) in
  fold_left (insert_cut subasta_id fecha_iso product_id)
            (enumerate 1 (cuts row)) (st2, inserted).

(** The outside world: [fetch_auction_html] answers with the page text or
    raises a [RequestException] ([None]); [BeautifulSoup(html,
    "html.parser")] turns the text into a tree.  The one-second pause
    before each request has no effect on the data. *)
Variable fetch_auction_html : Z → date → option str.
Variable BeautifulSoup : str → node.

(** The body of the inner loop, for one pair of auction and day. *)
Definition visit (rs : run_state) (subasta_id : Z) (current_day : date)
    : result run_state :=
  let rs := {| store := store rs; inserted_prices := inserted_prices rs;
               queried := queried rs + 1; printed := printed rs |} in
  match fetch_auction_html subasta_id current_day with
  | None =>
      Ok (say rs (WarnFetchFailed subasta_id (date_to_php_format current_day)))
  | Some html =>
      if has_error_response html then
        Ok (say rs (InfoNoValidAuction subasta_id
                      (date_to_php_format current_day)))
      else
        let soup := BeautifulSoup html in
        let auction_name := extract_auction_name soup subasta_id in
        displayed_date ← extract_table_date soup current_day;
        let displayed_date_iso := date_to_iso displayed_date in
        parsed_rows ← parse_rows soup;
        match parsed_rows with
        | [] => Ok (say rs (InfoNoProductRows subasta_id displayed_date_iso))
        | _ =>
            let st := upsert_subasta (store rs) subasta_id auction_name in
            let '(st', inserted) :=
              fold_left (store_row subasta_id displayed_date_iso) parsed_rows
                        (st, inserted_prices rs) in
            Ok {| store := st'; inserted_prices := inserted;
                  queried := queried rs; printed := printed rs |}
        end
  end.

(** The body of the outer loop, for one day offset. *)
Definition visit_day (lastdate : date) (maxsubastas : Z) (rs : run_state)
    (day_offset : Z) : result run_state :=
  current_day ← minus_days lastdate (Z.to_nat day_offset);
  for_each (λ rs subasta_id, visit rs subasta_id current_day)
           (seqZ 1 maxsubastas) rs.

(** [run_scrapper]: the final state, and the snapshot written by the one
    [save] at the end. *)
Definition run_scrapper (lastdate : date) (maxdays maxsubastas : Z)
    (st : JsonStore)
    : result (run_state
              * (list subasta * list familia * list producto * list precio)) :=
  let rs0 := {| store := st; inserted_prices := 0; queried := 0;
                printed := [] |} in
  rs ← for_each (visit_day lastdate maxsubastas) (seqZ 0 maxdays) rs0;
  Ok (say rs (OkSummary (queried rs) (inserted_prices rs)), save (store rs)).
End Crawl.

(** ** The store's consistency

    What [__init__] establishes: every lookup dictionary is the one rebuilt
    from its list. *)
Definition prices_indexed (st : JsonStore) : Prop :=
  precios_keys st = list_to_set (precio_key <$> precios st).

(** The mutating calls of the store's interface. *)
Inductive call :=
| UpsertSubasta (subasta_id : Z) (nombre : str)
| GetOrCreateFamilia (family_name : str)
| GetOrCreateProducto (family_id : Z) (product_name : str)
                      (product_url : option str)
| InsertPrecio (subasta_id : Z) (fecha_iso : str)
               (producto_id corte precio_ : Z).

Section Consistency.
Context {case_mapping : CaseMapping}.

Definition indexed (st : JsonStore) : Prop :=
  subastas_by_id st = index_by sub_id (subastas st)
  ∧ familias_by_name st = index_by familia_key (familias st)
  ∧ productos_by_key st = index_by producto_key (productos st)
  ∧ prices_indexed st.

(** A call applied to a store. *)
Definition perform (st : JsonStore) (c : call) : JsonStore :=
  match c with
  | UpsertSubasta i n => upsert_subasta st i n
  | GetOrCreateFamilia n => (get_or_create_familia st n).2
  | GetOrCreateProducto f n u => (get_or_create_producto st f n u).2
  | InsertPrecio s f p c v => (insert_precio st s f p c v).2
  end.
End Consistency.

(** [p] occurs in [s] as a contiguous block. *)
Definition occurs (p s : str) : Prop := ∃ pre post, s = pre ++ (p ++ post).

(** ** The specification's wording, for comparison with the code *)

(** The digit characters of a text, in the specification's words: what is
    left of it when every character that is not one of the ten digits is
    removed. *)
Definition digit_characters (text : str) : str :=
  filter (λ c, c ∈ py "0123456789") text.

(** The integer that a run of digits writes in base ten: each digit counts
    for its value times the power of ten of its place. *)
Fixpoint written_number (ds : str) : Z :=
  match ds with
  | [] => 0
  | c :: rest => (c - 48) * 10 ^ Z.of_nat (length rest) + written_number rest
  end.

(** A price cell, in the specification's words: a lone dash or a blank, or
    a text with no digit in it, stands for no price; any other text stands
    for the integer written by its digits. *)
Definition cut_of_text (text : str) : option Z :=
  if bool_decide (text = py "-" ∨ text = [] ∨ digit_characters text = [])
  then None
  else Some (written_number (digit_characters text)).

(** Whether [int] takes the digits of a text: they are not more than it
    converts. *)
Definition fits (text : str) : bool :=
  negb (int_max_str_digits <? length (digit_characters text))%nat.

(** The values of the characters of a run of decimal digits. *)
Definition values (s : str) : list Z := (λ c, default 0 (decimal c)) <$> s.

(** [w] is the token [token] up to the case of its letters. *)
Definition same_ignoring_case (w token : str) : Prop :=
  ascii_lower <$> w = ascii_lower <$> token.

(** The error-page policy, in the specification's words: some block of the
    text is the token ERROR up to case, and the products-table marker does
    not occur. *)
Definition error_page (html : str) : Prop :=
  (∃ w, occurs w html ∧ same_ignoring_case w (py "ERROR"))
  ∧ ¬ occurs (py "tab_pre_pro") html.

(** The family a row announces, in the specification's words: the row is tagged as
    a family header and carries a family cell, whose text is the name. *)
Definition announced_family (row : node) : option str :=
  if bool_decide (py "familias_subasta" ∈ get_classes row)
  then get_text (py " ") <$> select_one td_fam row
  else None.

(** The family in force after some rows: the one announced by the most
    recent header that carried a family cell, and none ([""]) before any. *)
Definition family_in_force (rows : list node) : str :=
  default [] (last (omap announced_family rows)).

(** ** Sample data *)

Definition sample_precio : precio :=
  {| pre_subasta_id := 3; pre_fecha := py "2024-03-05"; pre_producto_id := 1;
     pre_corte := 1; pre_precio := 1500 |}.

Definition sample_producto : producto :=
  {| pro_id := 1; pro_familia_id := 1; pro_nombre := py "Novillo";
     pro_url := None |}.

(** A product whose name has a letter outside ASCII. *)
Definition calabacin : producto :=
  {| pro_id := 4; pro_familia_id := 2; pro_nombre := py "CALABACÍN";
     pro_url := None |}.

(** The no-break space, U+00A0. *)
Definition nbsp : str := [160].

Definition price_cell (text : str) : node :=
  Tag (py "td") [py "txt"] ∅ [Text text].

(** A product row with the price cells ["1200"], ["-"], [""] and ["980"]. *)
Definition sample_row : node :=
  Tag (py "tr") [] ∅
      [Tag (py "td") [py "pro"] ∅ [Text (py "Novillo")];
       price_cell (py "1200"); price_cell (py "-"); price_cell (py "");
       price_cell (py "980")].


Definition family_header (name : str) : node :=
  Tag (py "tr") [py "familias_subasta"] ∅
      [Tag (py "td") [py "fam1"] ∅ [Text name]].

(** A row tagged as a family header that has no family cell. *)
Definition bare_header : node :=
  Tag (py "tr") [py "familias_subasta"] ∅
      [Tag (py "td") [py "sep"] ∅ [Text (py "Otros")]].

Definition sample_page : node :=
  Tag (py "[document]") [] ∅
      [Tag (py "table") [py "tab_pre_pro"] ∅
           [family_header (py "Vacuno"); bare_header; sample_row]].

(** A page whose only family header has a cell holding a no-break space. *)
Definition blank_family_page : node :=
  Tag (py "[document]") [] ∅
      [Tag (py "table") [py "tab_pre_pro"] ∅
           [family_header nbsp; bare_header; sample_row]].

(** A page without product rows whose title cell shows the date
    [00-00-0000], the text it comes from, and a site that serves it. *)
Definition undated_page : node :=
  Tag (py "[document]") [] ∅
      [Tag (py "table") [py "tab_pre_sub"] ∅
           [Tag (py "tr") [] ∅
                [Tag (py "td") [py "titNombreizq"] ∅ [Text (py "Subasta de prueba")];
                 Tag (py "td") [py "titNombreder"] ∅ [Text (py "Fecha: 00-00-0000")]]]].

Definition undated_html : str :=
  py "<table class='tab_pre_sub'><tr><td class='titNombreizq'>Subasta de prueba</td><td class='titNombreder'>Fecha: 00-00-0000</td></tr></table>".

Definition undated_site (subasta_id : Z) (for_date : date) : option str :=
  Some undated_html.

Definition undated_soup (html : str) : node := undated_page.

(** The end-to-end scenario: auction 3 answers with one family header and
    one product row under the displayed date 05-03-2024; the other auctions
    answer with an error page. *)
Definition scenario_page : node :=
  Tag (py "[document]") [] ∅
      [Tag (py "table") [py "tab_pre_sub"] ∅
           [Tag (py "tr") [] ∅
                [Tag (py "td") [py "titNombreizq"] ∅ [Text (py " Lonja de prueba ")];
                 Tag (py "td") [py "titNombreder"] ∅ [Text (py "Fecha: 05-03-2024")]]];
       Tag (py "table") [py "tab_pre_pro"] ∅
           [family_header (py "Vacuno");
            Tag (py "tr") [] ∅ [Tag (py "td") [py "pro"] ∅ [Text (py "Novillo")];
                                price_cell (py "1500"); price_cell (py "-")]]].

Definition scenario_html : str := py "<table class='tab_pre_pro'>...</table>".

Definition scenario_site (subasta_id : Z) (for_date : date) : option str :=
  if bool_decide (subasta_id = 3) then Some scenario_html
  else Some (py "<p>Error: no hay subasta</p>").

Definition scenario_soup (html : str) : node := scenario_page.

(** What a run leaves behind: the snapshot saved and the two counters. *)
Definition outcome
    (r : result (run_state
                 * (list subasta * list familia * list producto * list precio)))
    : option (list subasta * list familia * list producto * list precio * Z * Z) :=
  match r with
  | Ok (rs, snapshot) => Some (snapshot, queried rs, inserted_prices rs)
  | Raise _ => None
  end.

(** Whether a computation returned. *)
Definition returned {A} (r : result A) : bool :=
  match r with Ok _ => true | Raise _ => false end.

Section Samples.
Context {case_mapping : CaseMapping}.

Definition empty_store : JsonStore := JsonStore_init [] [] [] [].
End Samples.


(** ** How a store may change

    [grows T S]: everything [T] holds is still in [S], at the same place.
    Families and prices are kept as they are; an auction keeps its
    identifier; a product keeps its identifier, family and name, and its URL
    once it has one; a lookup that found a record still finds the record at
    that place; the registered price keys are kept. *)
Definition same_product (p p' : producto) : Prop :=
  pro_id p' = pro_id p ∧ pro_familia_id p' = pro_familia_id p
  ∧ pro_nombre p' = pro_nombre p
  ∧ (truthy (pro_url p) = true → pro_url p' = pro_url p).

Record grows (T S : JsonStore) : Prop := {
  grows_familias : familias T `prefix_of` familias S;
  grows_precios : precios T `prefix_of` precios S;
  grows_subastas : ∀ j s, subastas T !! j = Some s →
                   ∃ s', subastas S !! j = Some s' ∧ sub_id s' = sub_id s;
  grows_productos : ∀ j p, productos T !! j = Some p →
                    ∃ p', productos S !! j = Some p' ∧ same_product p p';
  grows_familia_lookup : ∀ k j f,
    deref (familias T) (familias_by_name T !! k) = Some (j, f) →
    deref (familias S) (familias_by_name S !! k) = Some (j, f);
  grows_producto_lookup : ∀ k j p,
    deref (productos T) (productos_by_key T !! k) = Some (j, p) →
    ∃ p', deref (productos S) (productos_by_key S !! k) = Some (j, p');
  grows_subasta_lookup : ∀ k j s,
    deref (subastas T) (subastas_by_id T !! k) = Some (j, s) →
    ∃ s', deref (subastas S) (subastas_by_id S !! k) = Some (j, s');
  grows_keys : precios_keys T ⊆ precios_keys S
}.

(** The row that [parse_rows] makes of a product row [p] with product cell
    [cell] under the family [family]. *)
Definition parsed_row (family : str) (p cell : node) (cuts : list (option Z))
    : ParsedRow :=
  {| family_name := family;
     product_name := get_text (py " ") cell;
     product_url := parse_product_url p;
     cuts := cuts |}.

(** Every character of [s] satisfies [test]. *)
Definition all_chars (test : char → bool) (s : str) : bool := forallb test s.

Definition not_quote (c : char) : bool := negb (c =? 39).
Definition not_w (c : char) : bool := negb (c =? 119).

(** A date that the [date] constructor accepts. *)
Definition is_date (d : date) : Prop :=
  valid_date (year d) (month d) (day d) = true.

Definition not_digit (c : char) : bool := negb (isdecimal c).

(** ** The date given on the command line

    [datetime.strptime(text, "%d/%m/%Y")] matches the text against a regular
    expression built from the format, refuses the text if anything is left
    after the match, and builds the date from the three groups.  The
    expressions for the directives are
    [%d]: [3[0-1]|[1-2]\d|0[1-9]|[1-9]| [1-9]],
    [%m]: [1[0-2]|0[1-9]|[1-9]] and [%Y]: [\d\d\d\d].  An alternation gives
    the ways it can match at the start of a text, in the order in which the
    engine tries them, each with the rest of the text. *)
Definition between (lo hi : ascii) (c : char) : bool :=
  (code lo <=? c) && (c <=? code hi).

Definition two_chars (ok1 ok2 : char → bool) (s : str) : list (str * str) :=
  match s with
  | a :: b :: rest => if ok1 a && ok2 b then [([a; b], rest)] else []
  | _ => []
  end.

Definition one_char (ok : char → bool) (s : str) : list (str * str) :=
  match s with
  | a :: rest => if ok a then [([a], rest)] else []
  | _ => []
  end.

Definition re_day (s : str) : list (str * str) :=
  two_chars (between "3" "3") (between "0" "1") s
  ++ two_chars (between "1" "2") isdecimal s
  ++ two_chars (between "0" "0") (between "1" "9") s
  ++ one_char (between "1" "9") s
  ++ two_chars (between " " " ") (between "1" "9") s.

Definition re_month (s : str) : list (str * str) :=
  two_chars (between "1" "1") (between "0" "2") s
  ++ two_chars (between "0" "0") (between "1" "9") s
  ++ one_char (between "1" "9") s.

(** Backtracking: the first alternative with which the rest of the
    expression matches. *)
Fixpoint first_of {A B} (alts : list A) (k : A → option B) : option B :=
  match alts with
  | [] => None
  | a :: rest =>
      match k a with
      | Some r => Some r
      | None => first_of rest k
      end
  end.

Definition strptime_dmy (s : str) : result date :=
  match
    first_of (re_day s) (λ '(d, s1),
      s2 ← expect (py "/") s1;
      first_of (re_month s2) (λ '(m, s3),
        s4 ← expect (py "/") s3;
        '(y, rest) ← digits 4 s4;
        Some (d, m, y, rest)))
  with
  | None => Raise ValueError
  | Some (d, m, y, rest) =>
      if nonempty rest then Raise ValueError
      else
        day ← int d; month ← int m; year ← int y;
        date_of year month day
  end.

(** [parse_input_date], given what [datetime.now().date()] returns. *)
Definition parse_input_date (today : date) (date_str : option str) : result date :=
  match date_str with
  | None => Ok today
  | Some s => strptime_dmy s
  end.

(** ** What a run does to the store *)

Section Reach.
Context {case_mapping : CaseMapping}.

(** [st'] is obtained from [st] by calls of the store's four operations. *)
Definition reaches (st st' : JsonStore) : Prop :=
  ∃ calls, st' = fold_left perform calls st.

(** The store was changed by calls only, and [inserted] counts the price
    records added. *)
Definition accounted (acc acc' : JsonStore * Z) : Prop :=
  reaches acc.1 acc'.1
  ∧ acc.2 ≤ acc'.2
  ∧ Z.of_nat (length (precios acc'.1)) - acc'.2
    = Z.of_nat (length (precios acc.1)) - acc.2.

(** The same for the variables of the driver, with [n] more queries. *)
Definition advanced (n : Z) (rs rs' : run_state) : Prop :=
  accounted (store rs, inserted_prices rs) (store rs', inserted_prices rs')
  ∧ queried rs' = queried rs + n.
End Reach.

(** The price records a row's cuts give for product [producto_id]: one for
    each cut that is not null, keyed by the position of the cut in the row
    counted from [i], unless that key is in [known]. *)
Fixpoint new_prices (subasta_id : Z) (fecha_iso : str) (producto_id : Z)
    (known : gset (Z * str * Z * Z)) (i : Z) (cuts : list (option Z))
    : list precio :=
  match cuts with
  | [] => []
  | cut :: rest =>
      match cut with
      | Some p =>
          if decide ((subasta_id, fecha_iso, producto_id, i) ∈ known) then []
          else [{| pre_subasta_id := subasta_id; pre_fecha := fecha_iso;
                   pre_producto_id := producto_id; pre_corte := i;
                   pre_precio := p |}]
      | None => []
      end ++ new_prices subasta_id fecha_iso producto_id known (i + 1) rest
  end.

(** ** Running again

    Relations between the store [T] of a first run in progress, the store
    [S] that run ends with, and the store [U] of a second run in progress
    that started from [S]. *)

(** [U] is [S] but for the names of the auctions. *)
Definition same_but_names (U S : JsonStore) : Prop :=
  sub_id <$> subastas U = sub_id <$> subastas S
  ∧ familias U = familias S ∧ productos U = productos S ∧ precios U = precios S
  ∧ subastas_by_id U = subastas_by_id S
  ∧ familias_by_name U = familias_by_name S
  ∧ productos_by_key U = productos_by_key S
  ∧ precios_keys U = precios_keys S.

(** Every auction of [U] has the name it has in [S] or the name it has in
    [T]. *)
Definition names_follow (T U S : JsonStore) : Prop :=
  ∀ j u, subastas U !! j = Some u →
    (∃ s, subastas S !! j = Some s ∧ sub_nombre u = sub_nombre s)
    ∨ (∃ t, subastas T !! j = Some t ∧ sub_nombre u = sub_nombre t).

(** ** References between the collections

    A price names its auction and its product by their identifiers, a
    product names its family: [linked st] says that every such identifier
    is that of a record the store holds. *)
Definition has_subasta (st : JsonStore) (i : Z) : Prop := i ∈ sub_id <$> subastas st.
Definition has_familia (st : JsonStore) (i : Z) : Prop := i ∈ fam_id <$> familias st.
Definition has_producto (st : JsonStore) (i : Z) : Prop := i ∈ pro_id <$> productos st.

Definition linked (st : JsonStore) : Prop :=
  (∀ r, r ∈ precios st →
     has_producto st (pre_producto_id r) ∧ has_subasta st (pre_subasta_id r))
  ∧ (∀ p, p ∈ productos st → has_familia st (pro_familia_id p)).


(** The product cell of a row that the loop of [parse_rows] files under
    the family [family]: the row is not a family header, it has a product
    cell, and the family is not empty. *)
Definition files (family : str) (p : node) : option node :=
  if bool_decide (py "familias_subasta" ∈ get_classes p) then None
  else if nonempty family then select_one td_pro p else None.

(** Horner's rule on the characters of a run of digits, from an
    accumulator. *)
Definition int_acc (acc : Z) (s : str) : Z :=
  fold_left (λ acc d, 10 * acc + d) (values s) acc.

(** * Facts *)

Section Facts.
Context {case_mapping : CaseMapping}.

(** ** Facts about text *)

Lemma rstrip_idemp (s : str) : rstrip (rstrip s) = rstrip s.
Proof.
  induction s as [|c s IH]; [reflexivity|].
  simpl. destruct (rstrip s) as [|a r] eqn:E.
  - destruct (isspace c) eqn:Ec; simpl; [reflexivity|]. by rewrite Ec.
  - change (rstrip (c :: a :: r)) with
      (match rstrip (a :: r) with
       | [] => if isspace c then [] else [c]
       | r' => c :: r'
       end).
    by rewrite IH.
Qed.

Lemma lstrip_head (s : str) :
  lstrip s = [] ∨ ∃ c t, lstrip s = c :: t ∧ isspace c = false.
Proof.
  induction s as [|c s IH]; [by left|].
  simpl. destruct (isspace c) eqn:Ec; [exact IH|]. right. eauto.
Qed.

Lemma lstrip_rstrip_head (c : char) (t : str) :
  isspace c = false → lstrip (rstrip (c :: t)) = rstrip (c :: t).
Proof.
  intros Ec. simpl. destruct (rstrip t); rewrite ?Ec; simpl; by rewrite Ec.
Qed.

Lemma strip_idemp (s : str) : strip (strip s) = strip s.
Proof.
  unfold strip. destruct (lstrip_head s) as [E|(c & t & E & Ec)]; rewrite E.
  - reflexivity.
  - by rewrite lstrip_rstrip_head, rstrip_idemp.
Qed.

Lemma prefix_app (p s : str) :
  startswith p s = true ↔ ∃ post, s = p ++ post.
Proof.
  revert s. induction p as [|a p IH]; intros s.
  - simpl. split; eauto.
  - destruct s as [|b s]; simpl.
    + split; [discriminate|]. by intros [? ?].
    + rewrite andb_true_iff, bool_decide_eq_true, IH. split.
      * intros [-> [post ->]]. by exists post.
      * intros [post [= -> ->]]. eauto.
Qed.

Lemma contains_nil (p : str) : contains p [] = startswith p [].
Proof. unfold contains. apply orb_false_r. Qed.

Lemma contains_cons (p : str) (c : char) (s : str) :
  contains p (c :: s) = startswith p (c :: s) || contains p s.
Proof. reflexivity. Qed.

Lemma contains_occurs (p s : str) : contains p s = true ↔ occurs p s.
Proof.
  induction s as [|c s IH].
  - rewrite contains_nil, prefix_app. split.
    + intros [post E]. by exists [], post.
    + intros ([|? ?] & post & E); [by exists post | discriminate].
  - rewrite contains_cons, orb_true_iff, IH, prefix_app. split.
    + intros [[post E]|(pre & post & E)].
      * by exists [], post.
      * exists (c :: pre), post. simpl. by rewrite E.
    + intros ([|d pre] & post & E).
      * left. by exists post.
      * right. injection E as _ E. by exists pre, post.
Qed.

(** ** Facts about digits and [int] *)

Lemma decimal_spec (c : char) (v : Z) :
  decimal c = Some v → 0 ≤ v ≤ 9 ∧ c - v ∈ decimal_zeros.
Proof.
  unfold decimal. destruct (List.find _ _) as [z|] eqn:E; [|done].
  intros [= <-]. apply find_some in E as [Hin E].
  apply andb_true_iff in E as [?%Z.leb_le ?%Z.ltb_lt].
  split; [lia|]. apply list_elem_of_In. by replace (c - (c - z)) with z by lia.
Qed.

Lemma decimal_0_9 (c : char) : is_0_9 c = true → decimal c = Some (c - 48).
Proof.
  unfold is_0_9. intros [?%Z.leb_le ?%Z.leb_le]%andb_true_iff.
  unfold decimal, decimal_zeros. cbn [List.find].
  replace ((48 <=? c) && (c <? 48 + 10)) with true; [done|].
  symmetry. apply andb_true_iff. split; [apply Z.leb_le | apply Z.ltb_lt]; lia.
Qed.

Lemma isdecimal_true (c : char) : isdecimal c = true ↔ ∃ v, decimal c = Some v.
Proof. unfold isdecimal. by rewrite bool_decide_eq_true. Qed.

Lemma isdecimal_0_9 (c : char) : is_0_9 c = true → isdecimal c = true.
Proof. intros Hc. apply isdecimal_true. rewrite decimal_0_9 by done. eauto. Qed.

(** No decimal digit is white space, an underscore or a sign. *)
Lemma decimal_plain (c : char) :
  isdecimal c = true →
  isspace c = false ∧ c ≠ 95 ∧ c ≠ 45 ∧ c ≠ 43.
Proof.
  intros [v [Hv Hin]%decimal_spec]%isdecimal_true.
  assert (Hsp : ∀ z, z ∈ decimal_zeros → z ≤ c < z + 10 →
                isspace c = false ∧ c ≠ 95 ∧ c ≠ 45 ∧ c ≠ 43).
  { intros z Hz Hc. unfold decimal_zeros in Hz.
    repeat (apply elem_of_cons in Hz as [->|Hz];
            [unfold isspace;
             repeat match goal with
                    | |- context [?a <=? ?b] =>
                        destruct (Z.leb_spec a b); try lia
                    | |- context [?a =? ?b] =>
                        destruct (Z.eqb_spec a b); try lia
                    end; simpl; repeat split; lia|]).
    by apply elem_of_nil in Hz. }
  apply (Hsp (c - v)); [done | lia].
Qed.

Lemma digit_values_plain (s : str) :
  s ≠ [] → forallb isdecimal s = true → digit_values s = Some (values s).
Proof.
  induction s as [|c s IH]; [done|]. intros _ Hs. simpl in Hs.
  apply andb_true_iff in Hs as [Hc Hs].
  destruct (proj1 (isdecimal_true c) Hc) as [v Hv].
  cbn [digit_values]. rewrite Hv. cbn [mbind option_bind].
  destruct s as [|c' s']; [by simpl; rewrite Hv|].
  assert (Hc' : isdecimal c' = true) by (simpl in Hs; by apply andb_true_iff in Hs as [? _]).
  destruct (decimal_plain c' Hc') as (_ & Hu & _).
  rewrite (proj2 (Z.eqb_neq c' 95) Hu), IH by done.
  unfold values. simpl. by rewrite Hv.
Qed.

Lemma int_lstrip_plain (c : char) (s : str) :
  int_space c = false → int_lstrip (c :: s) = c :: s.
Proof. intros E. simpl. by rewrite E. Qed.

Lemma int_rstrip_plain (s : str) :
  forallb (λ c, negb (int_space c)) s = true → int_rstrip s = s.
Proof.
  induction s as [|c s IH]; [done|]. simpl.
  intros [Hc Hs]%andb_true_iff. rewrite IH by done.
  apply negb_true_iff in Hc. rewrite Hc. by destruct s.
Qed.

Lemma isdecimal_not_int_space (c : char) :
  isdecimal c = true → int_space c = false.
Proof.
  intros Hc. unfold int_space. by rewrite (proj1 (decimal_plain c Hc)).
Qed.

Lemma forallb_impl {A} (P Q : A → bool) (l : list A) :
  (∀ x, P x = true → Q x = true) → forallb P l = true → forallb Q l = true.
Proof.
  intros HPQ. induction l as [|x l IH]; [done|]. simpl.
  intros [?%HPQ ?%IH]%andb_true_iff. by apply andb_true_iff.
Qed.

(** [int] on a run of decimal digits: the number they write, if they are
    not too many. *)
Lemma int_decimal (s : str) :
  s ≠ [] → forallb isdecimal s = true →
  int s = if (int_max_str_digits <? length s)%nat then Raise ValueError
          else Ok (horner (values s)).
Proof.
  intros Hne Hs. unfold int.
  assert (Hsp : forallb (λ c, negb (int_space c)) s = true).
  { revert Hs. apply forallb_impl. intros c Hc.
    by rewrite isdecimal_not_int_space. }
  destruct s as [|c s']; [done|].
  assert (Hc : isdecimal c = true) by (simpl in Hs; by apply andb_true_iff in Hs as [? _]).
  rewrite int_lstrip_plain by by apply isdecimal_not_int_space.
  rewrite int_rstrip_plain by done.
  destruct (decimal_plain c Hc) as (_ & _ & Hm & Hp).
  rewrite (proj2 (Z.eqb_neq c 45) Hm), (proj2 (Z.eqb_neq c 43) Hp).
  rewrite digit_values_plain by done.
  unfold values. rewrite length_fmap.
  destruct (_ <? _)%nat; [done|]. f_equal. lia.
Qed.

Lemma horner_acc (ds : list Z) (a : Z) :
  fold_left (λ acc d, 10 * acc + d) ds a
  = a * 10 ^ Z.of_nat (length ds) + horner ds.
Proof.
  unfold horner. revert a. induction ds as [|d ds IH]; intros a.
  - simpl. lia.
  - cbn [fold_left length]. rewrite IH, (IH (10 * 0 + d)).
    rewrite Nat2Z.inj_succ, Z.pow_succ_r by lia. lia.
Qed.

(** On the characters 0 to 9, what [int] computes is the number written. *)
Lemma horner_written (s : str) :
  forallb is_0_9 s = true → horner (values s) = written_number s.
Proof.
  induction s as [|c s IH]; [done|]. simpl.
  intros [Hc Hs]%andb_true_iff. unfold horner, values.
  cbn [fold_left]. rewrite horner_acc.
  fold (values s). rewrite IH by done.
  unfold values. rewrite length_fmap, decimal_0_9 by done. simpl. lia.
Qed.

Lemma int_0_9 (s : str) :
  s ≠ [] → forallb is_0_9 s = true →
  int s = if (int_max_str_digits <? length s)%nat then Raise ValueError
          else Ok (written_number s).
Proof.
  intros Hne Hs. rewrite int_decimal.
  - by rewrite horner_written.
  - done.
  - revert Hs. apply forallb_impl, isdecimal_0_9.
Qed.

Lemma only_digits_0_9 (s : str) : forallb is_0_9 (only_digits s) = true.
Proof.
  induction s as [|c s IH]; [done|]. simpl.
  destruct (is_0_9 c) eqn:E; [|done]. simpl. by rewrite E.
Qed.

(** The code's [re.sub] and the specification's removal of what is not a
    digit leave the same characters. *)
Lemma only_digits_digit_characters (s : str) :
  only_digits s = digit_characters s.
Proof.
  unfold digit_characters. induction s as [|c s IH]; [done|].
  cbn [only_digits filter list_filter]. rewrite IH.
  destruct (is_0_9 c) eqn:E.
  - rewrite decide_True; [done|].
    apply andb_true_iff in E as [?%Z.leb_le ?%Z.leb_le].
    assert (c = 48 ∨ c = 49 ∨ c = 50 ∨ c = 51 ∨ c = 52 ∨ c = 53 ∨ c = 54
            ∨ c = 55 ∨ c = 56 ∨ c = 57) as Hc by lia.
    change (py "0123456789") with [48; 49; 50; 51; 52; 53; 54; 55; 56; 57].
    set_unfold. lia.
  - rewrite decide_False; [done|].
    change (py "0123456789") with [48; 49; 50; 51; 52; 53; 54; 55; 56; 57].
    apply andb_false_iff in E. set_unfold.
    destruct E as [E%Z.leb_gt|E%Z.leb_gt]; lia.
Qed.
(** ** Facts about the lookup dictionaries *)
Section Index.
Context `{Countable K} {A : Type} (key : A → K).

Lemma index_from_app (i : nat) (l1 l2 : list A) (m : gmap K nat) :
  index_from key i (l1 ++ l2) m
  = index_from key (i + length l1) l2 (index_from key i l1 m).
Proof.
  revert i m. induction l1 as [|x l1 IH]; intros i m; simpl.
  - by rewrite Nat.add_0_r.
  - rewrite IH. f_equal. lia.
Qed.

(** Appending a record and registering it is what a rebuild would do. *)
Lemma index_by_snoc (l : list A) (x : A) :
  index_by key (l ++ [x]) = <[key x := length l]> (index_by key l).
Proof. unfold index_by. by rewrite index_from_app. Qed.

(** A reference found in the dictionary leads to a record with that key. *)
Lemma index_by_sound (l : list A) (k : K) (i : nat) :
  index_by key l !! k = Some i → ∃ x, l !! i = Some x ∧ key x = k.
Proof.
  induction l as [|x l IH] using rev_ind.
  - unfold index_by. simpl. by rewrite lookup_empty.
  - rewrite index_by_snoc. destruct (decide (key x = k)) as [<-|Hne].
    + rewrite lookup_insert_eq. intros [= <-]. exists x. split; [|done].
      by rewrite lookup_app_r, Nat.sub_diag.
    + rewrite lookup_insert_ne by done. intros (y & Hy & Hk)%IH.
      exists y. split; [|done]. by apply lookup_app_l_Some.
Qed.

(** Every record of the list is found through its key. *)
Lemma index_by_complete (l : list A) (x : A) :
  x ∈ l → is_Some (index_by key l !! key x).
Proof.
  induction l as [|y l IH] using rev_ind; [by intros ?%elem_of_nil|].
  rewrite index_by_snoc. intros [Hx| ->%list_elem_of_singleton]%elem_of_app.
  - destruct (decide (key y = key x)) as [->|Hne].
    + rewrite lookup_insert_eq. eauto.
    + rewrite lookup_insert_ne by done. auto.
  - rewrite lookup_insert_eq. eauto.
Qed.

Lemma index_from_keys (i : nat) (l : list A) (m : gmap K nat) :
  index_from key i l m = index_from id i (key <$> l) m.
Proof. revert i m. induction l as [|x l IH]; intros i m; simpl; [done|]. apply IH. Qed.

(** Changing a record in place without changing its key leaves the
    dictionary as a rebuild would make it. *)
Lemma index_by_update (l : list A) (i : nat) (x x' : A) :
  l !! i = Some x → key x' = key x →
  index_by key (<[i := x']> l) = index_by key l.
Proof.
  intros Hi Hk. unfold index_by. rewrite !index_from_keys.
  by rewrite list_fmap_insert, Hk, list_insert_id by (by rewrite list_lookup_fmap, Hi).
Qed.
End Index.

Lemma deref_Some {A} (items : list A) (ref : option nat) (i : nat) (x : A) :
  deref items ref = Some (i, x) ↔ ref = Some i ∧ items !! i = Some x.
Proof.
  unfold deref. destruct ref as [j|]; simpl.
  - destruct (items !! j) as [y|] eqn:E; simpl.
    + split; [intros [= <- <-]; by split | intros [[= <-] E']; congruence].
    + split; [discriminate | intros [[= <-] E']; congruence].
  - split; [discriminate | by intros [? _]].
Qed.

(** ** Facts about [max] and [_next_id] *)

Lemma fold_left_max_ge (xs : list Z) (a : Z) :
  a ≤ fold_left Z.max xs a ∧ ∀ x, x ∈ xs → x ≤ fold_left Z.max xs a.
Proof.
  revert a. induction xs as [|y xs IH]; intros a; simpl.
  - split; [lia|]. by intros x ?%elem_of_nil.
  - destruct (IH (Z.max a y)) as [H1 H2]. split; [lia|].
    intros x [->|Hx]%elem_of_cons; [lia | auto].
Qed.

Lemma fold_left_max_in (xs : list Z) (a : Z) :
  fold_left Z.max xs a = a ∨ fold_left Z.max xs a ∈ xs.
Proof.
  revert a. induction xs as [|y xs IH]; intros a; simpl; [by left|].
  destruct (IH (Z.max a y)) as [E|E].
  - rewrite E. destruct (Z.max_spec a y) as [[_ ->]|[_ ->]]; [right; left | by left].
  - right. by right.
Qed.

Lemma fold_left_max_snoc (xs : list Z) (a y : Z) :
  fold_left Z.max (xs ++ [y]) a = Z.max (fold_left Z.max xs a) y.
Proof. by rewrite fold_left_app. Qed.

Lemma max_default_ge (d : Z) (xs : list Z) (x : Z) :
  x ∈ xs → x ≤ max_default d xs.
Proof.
  destruct xs as [|y xs]; [by intros ?%elem_of_nil|]. simpl.
  destruct (fold_left_max_ge xs y) as [H1 H2].
  intros [->|Hx]%elem_of_cons; auto.
Qed.

Lemma max_default_in (d : Z) (xs : list Z) :
  xs ≠ [] → max_default d xs ∈ xs.
Proof.
  destruct xs as [|y xs]; [done|]. intros _. simpl.
  destruct (fold_left_max_in xs y) as [->|E]; [left | by right].
Qed.

(** The identifier handed out is above every identifier in the list. *)
Lemma _next_id_fresh {A} (get_id : A → Z) (items : list A) (x : A) :
  x ∈ items → get_id x < _next_id get_id items.
Proof.
  intros Hx. unfold _next_id. destruct items as [|y items]; [by apply elem_of_nil in Hx|].
  assert (get_id x ≤ max_default 0 (get_id <$> y :: items)); [|lia].
  apply max_default_ge. by apply list_elem_of_fmap_2.
Qed.

(** After a creation the largest identifier is the one just handed out. *)
Lemma max_default_after_create {A} (get_id : A → Z) (items : list A) (x : A) :
  get_id x = _next_id get_id items →
  max_default 0 (get_id <$> (items ++ [x])) = _next_id get_id items.
Proof.
  intros Hx. destruct items as [|y items]; [exact Hx|].
  rewrite fmap_app. change (get_id <$> y :: items) with (get_id y :: (get_id <$> items)).
  change (max_default 0 ((get_id y :: (get_id <$> items)) ++ (get_id <$> [x])))
    with (fold_left Z.max ((get_id <$> items) ++ [get_id x]) (get_id y)).
  rewrite fold_left_max_snoc, Hx.
  change (_next_id get_id (y :: items))
    with (fold_left Z.max (get_id <$> items) (get_id y) + 1).
  lia.
Qed.

(** The identifier handed out is above the largest one so far (0 for an
    empty collection). *)
Lemma _next_id_above_max {A} (get_id : A → Z) (items : list A) :
  max_default 0 (get_id <$> items) < _next_id get_id items.
Proof. unfold _next_id. destruct items; simpl; lia. Qed.

(** ** The store stays consistent *)

Lemma indexed_init (ss : list subasta) (fs : list familia) (ps : list producto)
    (rs : list precio) : indexed (JsonStore_init ss fs ps rs).
Proof. by repeat split. Qed.

Lemma indexed_upsert_subasta (st : JsonStore) (subasta_id : Z) (nombre : str) :
  indexed st → indexed (upsert_subasta st subasta_id nombre).
Proof.
  intros (Hs & Hf & Hp & Hr). unfold upsert_subasta.
  destruct (deref _ _) as [[i stored]|] eqn:E.
  - destruct (_ && _); [|by repeat split].
    apply deref_Some in E as [_ Hi].
    repeat split; simpl; try done.
    rewrite Hs. symmetry. by apply (index_by_update sub_id _ i stored).
  - repeat split; simpl; try done. by rewrite index_by_snoc, Hs.
Qed.

Lemma familia_key_created (i : Z) (name : str) :
  familia_key {| fam_id := i; fam_nombre := strip name |} = lower (strip name).
Proof. unfold familia_key. simpl. by rewrite strip_idemp. Qed.

Lemma producto_key_created (i f : Z) (name : str) (url : option str) :
  producto_key {| pro_id := i; pro_familia_id := f; pro_nombre := strip name;
                  pro_url := url |} = (f, lower (strip name)).
Proof. unfold producto_key. simpl. by rewrite strip_idemp. Qed.

Lemma indexed_get_or_create_familia (st : JsonStore) (family_name : str) :
  indexed st → indexed (get_or_create_familia st family_name).2.
Proof.
  intros (Hs & Hf & Hp & Hr). unfold get_or_create_familia.
  destruct (deref _ _) as [[i existing]|] eqn:E; [by repeat split|].
  repeat split; simpl; try done.
  by rewrite index_by_snoc, Hf, familia_key_created.
Qed.

Lemma indexed_get_or_create_producto (st : JsonStore) (family_id : Z)
    (product_name : str) (product_url : option str) :
  indexed st →
  indexed (get_or_create_producto st family_id product_name product_url).2.
Proof.
  intros (Hs & Hf & Hp & Hr). unfold get_or_create_producto.
  destruct (deref _ _) as [[i existing]|] eqn:E.
  - destruct (_ && _); [|by repeat split].
    apply deref_Some in E as [_ Hi].
    repeat split; simpl; try done.
    rewrite Hp. symmetry. by apply (index_by_update producto_key _ i existing).
  - repeat split; simpl; try done.
    by rewrite index_by_snoc, Hp, producto_key_created.
Qed.

Lemma prices_indexed_insert_precio (st : JsonStore) (subasta_id : Z)
    (fecha_iso : str) (producto_id corte precio_ : Z) :
  prices_indexed st →
  prices_indexed (insert_precio st subasta_id fecha_iso producto_id corte precio_).2.
Proof.
  unfold prices_indexed, insert_precio. intros Hr.
  destruct (decide _); simpl; [done|].
  rewrite fmap_app, list_to_set_app_L, Hr. simpl.
  rewrite (right_id_L ∅ (∪)). apply (comm_L (∪)).
Qed.

Lemma indexed_insert_precio (st : JsonStore) (subasta_id : Z)
    (fecha_iso : str) (producto_id corte precio_ : Z) :
  indexed st →
  indexed (insert_precio st subasta_id fecha_iso producto_id corte precio_).2.
Proof.
  intros (Hs & Hf & Hp & Hr).
  pose proof (prices_indexed_insert_precio st subasta_id fecha_iso producto_id
                corte precio_ Hr) as Hr'.
  revert Hr'. unfold insert_precio. destruct (decide _); simpl; by repeat split.
Qed.

Lemma indexed_perform (st : JsonStore) (c : call) :
  indexed st → indexed (perform st c).
Proof.
  destruct c; simpl;
    auto using indexed_upsert_subasta, indexed_get_or_create_familia,
      indexed_get_or_create_producto, indexed_insert_precio.
Qed.

Lemma indexed_calls (calls : list call) (st : JsonStore) :
  indexed st → indexed (fold_left perform calls st).
Proof.
  revert st. induction calls as [|c calls IH]; intros st Hst; simpl; [done|].
  by apply IH, indexed_perform.
Qed.

(** Only [insert_precio] touches the price records. *)
Lemma precios_perform (st : JsonStore) (c : call) :
  match c with
  | InsertPrecio _ _ _ _ _ => True
  | _ => precios (perform st c) = precios st
  end.
Proof.
  destruct c; simpl; [| | |done].
  - unfold upsert_subasta. destruct (deref _ _) as [[??]|]; [|done].
    by destruct (_ && _).
  - unfold get_or_create_familia. by destruct (deref _ _) as [[??]|].
  - unfold get_or_create_producto. destruct (deref _ _) as [[??]|]; [|done].
    by destruct (_ && _).
Qed.

Lemma nodup_prices_perform (st : JsonStore) (c : call) :
  prices_indexed st → NoDup (precio_key <$> precios st) →
  NoDup (precio_key <$> precios (perform st c)).
Proof.
  intros Hr Hnd. pose proof (precios_perform st c) as Hc.
  destruct c; try (by rewrite Hc).
  simpl. unfold insert_precio. destruct (decide _) as [|Hnew]; simpl; [done|].
  rewrite fmap_app. apply NoDup_app. split; [done|]. split.
  - intros k Hk ->%list_elem_of_singleton. apply Hnew.
    rewrite Hr. by apply elem_of_list_to_set.
  - apply NoDup_singleton.
Qed.

Lemma nodup_prices_calls (calls : list call) (st : JsonStore) :
  indexed st → NoDup (precio_key <$> precios st) →
  NoDup (precio_key <$> precios (fold_left perform calls st)).
Proof.
  revert st. induction calls as [|c calls IH]; intros st Hst Hnd; simpl; [done|].
  apply IH; [by apply indexed_perform|].
  apply nodup_prices_perform; [apply Hst | done].
Qed.


(** ** Prices: deduplicated insertion *)

(** C1.  In a consistent store the registered keys are the keys of the
    price records.  [insert_precio] on a key that is already registered
    returns [False] and leaves the whole store as it was; on a key that is
    not, it appends exactly one record, carrying that key and the given
    price, registers the key, touches nothing else, and returns [True]. *)
Theorem insert_precio_dedup (st : JsonStore) (subasta_id : Z)
    (fecha_iso : str) (producto_id corte precio_ : Z) :
  let key := (subasta_id, fecha_iso, producto_id, corte) in
  let r := insert_precio st subasta_id fecha_iso producto_id corte precio_ in
  (prices_indexed st →
     (key ∈ precios_keys st ↔ ∃ p, p ∈ precios st ∧ precio_key p = key))
  ∧ (key ∈ precios_keys st →
     r = (false, st) ∧ length (precios r.2) = length (precios st))
  ∧ (key ∉ precios_keys st →
     r.1 = true
     ∧ (∃ record, precios r.2 = precios st ++ [record]
                  ∧ precio_key record = key ∧ pre_precio record = precio_)
     ∧ length (precios r.2) = S (length (precios st))
     ∧ precios_keys r.2 = {[key]} ∪ precios_keys st
     ∧ subastas r.2 = subastas st ∧ familias r.2 = familias st
     ∧ productos r.2 = productos st
     ∧ subastas_by_id r.2 = subastas_by_id st
     ∧ familias_by_name r.2 = familias_by_name st
     ∧ productos_by_key r.2 = productos_by_key st).
Proof.
  intros key r. subst r. unfold insert_precio. fold key.
  split.
  { intros ->. rewrite elem_of_list_to_set, list_elem_of_fmap. split.
    - intros (p & E & Hp). by exists p.
    - intros (p & Hp & E). by exists p. }
  split; intros Hk.
  - by rewrite decide_True.
  - rewrite decide_False by done. simpl. repeat split; try done.
    + eexists. repeat split.
    + rewrite length_app. simpl. lia.
Qed.

(** C10.  In every store obtained from the constructor by any sequence of
    calls, the registered price keys are exactly the keys of the price
    records; if the loaded records had no duplicate key, neither have the
    current ones and there are as many records as registered keys; an
    [insert_precio] that returns [True] grows the record list and the key
    set by one each, and one that returns [False] changes neither. *)
Theorem price_keys_invariant (ss : list subasta) (fs : list familia)
    (ps : list producto) (rs : list precio) (calls : list call) :
  let st := fold_left perform calls (JsonStore_init ss fs ps rs) in
  precios_keys st = list_to_set (precio_key <$> precios st)
  ∧ (NoDup (precio_key <$> rs) →
       NoDup (precio_key <$> precios st)
       ∧ length (precios st) = size (precios_keys st))
  ∧ (∀ subasta_id fecha_iso producto_id corte precio_,
       let r := insert_precio st subasta_id fecha_iso producto_id corte precio_ in
       if r.1
       then length (precios r.2) = S (length (precios st))
            ∧ size (precios_keys r.2) = S (size (precios_keys st))
       else precios r.2 = precios st ∧ precios_keys r.2 = precios_keys st).
Proof.
  intros st.
  assert (Hst : indexed st) by apply indexed_calls, indexed_init.
  destruct Hst as (_ & _ & _ & Hr). split; [exact Hr|]. split.
  - intros Hnd.
    assert (Hnd' : NoDup (precio_key <$> precios st))
      by (apply nodup_prices_calls; [apply indexed_init | exact Hnd]).
    split; [done|].
    by rewrite Hr, size_list_to_set, length_fmap.
  - intros subasta_id fecha_iso producto_id corte precio_ r. subst r.
    unfold insert_precio. destruct (decide _) as [|Hnew]; simpl; [done|].
    split.
    + rewrite length_app. simpl. lia.
    + rewrite size_union by (by apply disjoint_singleton_l).
      by rewrite size_singleton.
Qed.

(** ** Families and products *)

Lemma get_or_create_familia_hit (st : JsonStore) (name : str) (i : nat)
    (existing : familia) :
  deref (familias st) (familias_by_name st !! lower (strip name))
  = Some (i, existing) →
  get_or_create_familia st name = (fam_id existing, st).
Proof. intros E. unfold get_or_create_familia. by rewrite E. Qed.

Lemma get_or_create_familia_miss (st : JsonStore) (name : str) :
  deref (familias st) (familias_by_name st !! lower (strip name)) = None →
  let r := get_or_create_familia st name in
  r.1 = _next_id fam_id (familias st)
  ∧ familias r.2 = familias st ++ [{| fam_id := r.1; fam_nombre := strip name |}]
  ∧ deref (familias r.2) (familias_by_name r.2 !! lower (strip name))
    = Some (length (familias st), {| fam_id := r.1; fam_nombre := strip name |}).
Proof.
  intros E. unfold get_or_create_familia. rewrite E. simpl.
  repeat split. apply deref_Some. rewrite lookup_insert_eq. split; [done|].
  by rewrite lookup_app_r, Nat.sub_diag.
Qed.

(** A text of ASCII characters, given in full. *)
Ltac ascii_text := apply (bool_decide_unpack _); vm_compute; exact I.

(** C2.  Two spellings of a family name that agree once stripped and
    lower-cased get the same identifier from two calls in a row; the second
    call changes nothing, so the two calls together create at most one
    family.  So it is for ["Vacuno"] and [" vacuno "], in every store. *)
Theorem get_or_create_familia_folds_spellings (st : JsonStore) :
  (∀ a b : str,
     lower (strip a) = lower (strip b) →
     let r1 := get_or_create_familia st a in
     let r2 := get_or_create_familia r1.2 b in
     r2.1 = r1.1 ∧ r2.2 = r1.2
     ∧ (length (familias r2.2) ≤ S (length (familias st)))%nat)
  ∧ (get_or_create_familia (get_or_create_familia st (py "Vacuno")).2
                           (py " vacuno ")).1
    = (get_or_create_familia st (py "Vacuno")).1.
Proof.
  assert (Hgen : ∀ a b : str,
     lower (strip a) = lower (strip b) →
     let r1 := get_or_create_familia st a in
     let r2 := get_or_create_familia r1.2 b in
     r2.1 = r1.1 ∧ r2.2 = r1.2
     ∧ (length (familias r2.2) ≤ S (length (familias st)))%nat).
  { intros a b Hab r1 r2. subst r1 r2.
    destruct (deref (familias st) (familias_by_name st !! lower (strip a)))
      as [[i existing]|] eqn:E.
    - rewrite (get_or_create_familia_hit st a i existing E). simpl.
      rewrite Hab in E. rewrite (get_or_create_familia_hit st b i existing E).
      simpl. repeat split. lia.
    - destruct (get_or_create_familia_miss st a E) as (Hid & Hl & Hd).
      rewrite Hab in Hd.
      rewrite (get_or_create_familia_hit _ b _ _ Hd). simpl.
      repeat split. rewrite Hl, length_app. simpl. lia. }
  split; [exact Hgen|]. apply (Hgen (py "Vacuno") (py " vacuno ")).
  change (strip (py "Vacuno")) with (py "Vacuno").
  change (strip (py " vacuno ")) with (py "vacuno").
  rewrite !lower_ascii by ascii_text. reflexivity.
Qed.

Lemma new_key_is_unindexed `{Countable K} {A} (key : A → K) (l : list A) (k : K) :
  (∀ x, x ∈ l → key x ≠ k) → deref l (index_by key l !! k) = None.
Proof.
  intros Hnew. destruct (index_by key l !! k) as [i|] eqn:E; [|done].
  destruct (index_by_sound key l k i E) as (x & Hx & Hk).
  destruct (Hnew x); [by eapply list_elem_of_lookup_2 | done].
Qed.

Lemma indexed_key_is_found `{Countable K} {A} (key : A → K) (l : list A) (x : A) :
  x ∈ l → ∃ i y, deref l (index_by key l !! key x) = Some (i, y) ∧ key y = key x.
Proof.
  intros Hx. destruct (index_by_complete key l x Hx) as [i Hi].
  destruct (index_by_sound key l _ i Hi) as (y & Hy & Hk).
  exists i, y. split; [|done]. apply deref_Some. by split.
Qed.

(** C5.  In a store as the constructor builds it, a family whose
    normalised name no stored family has is created with the identifier
    [max(existing ids) + 1], or 1 when there is no family yet; that
    identifier is above every identifier already in the collection, hence
    is none of them; it is the collection's largest identifier afterwards,
    and the largest identifier has strictly grown.  A family whose
    normalised name a stored family has is not created, and the identifier
    returned is one of those in the collection.  The same holds of the
    products, by family and normalised name. *)
Theorem surrogate_ids_increase (st : JsonStore) :
  indexed st →
  (∀ name : str,
     let r := get_or_create_familia st name in
     ((∀ f, f ∈ familias st → familia_key f ≠ lower (strip name)) →
        familias r.2 = familias st ++ [{| fam_id := r.1; fam_nombre := strip name |}]
        ∧ r.1 = match familias st with
                | [] => 1
                | _ => max_default 0 (fam_id <$> familias st) + 1
                end
        ∧ (∀ f, f ∈ familias st → fam_id f < r.1)
        ∧ (r.1 ∉ fam_id <$> familias st)
        ∧ max_default 0 (fam_id <$> familias r.2) = r.1
        ∧ max_default 0 (fam_id <$> familias st)
          < max_default 0 (fam_id <$> familias r.2))
     ∧ ((∃ f, f ∈ familias st ∧ familia_key f = lower (strip name)) →
        familias r.2 = familias st ∧ r.1 ∈ fam_id <$> familias st)
     ∧ (familias st = [] → r.1 = 1))
  ∧ (∀ (family_id : Z) (name : str) (url : option str),
     let r := get_or_create_producto st family_id name url in
     ((∀ p, p ∈ productos st → producto_key p ≠ (family_id, lower (strip name))) →
        productos r.2
        = productos st ++ [{| pro_id := r.1; pro_familia_id := family_id;
                              pro_nombre := strip name; pro_url := url |}]
        ∧ r.1 = match productos st with
                | [] => 1
                | _ => max_default 0 (pro_id <$> productos st) + 1
                end
        ∧ (∀ p, p ∈ productos st → pro_id p < r.1)
        ∧ (r.1 ∉ pro_id <$> productos st)
        ∧ max_default 0 (pro_id <$> productos r.2) = r.1
        ∧ max_default 0 (pro_id <$> productos st)
          < max_default 0 (pro_id <$> productos r.2))
     ∧ ((∃ p, p ∈ productos st
              ∧ producto_key p = (family_id, lower (strip name))) →
        pro_id <$> productos r.2 = pro_id <$> productos st
        ∧ r.1 ∈ pro_id <$> productos st)
     ∧ (productos st = [] → r.1 = 1)).
Proof.
  intros (_ & Hf & Hp & _). split.
  - intros name r.
    assert (Hnew : (∀ f, f ∈ familias st → familia_key f ≠ lower (strip name)) →
        familias r.2 = familias st ++ [{| fam_id := r.1; fam_nombre := strip name |}]
        ∧ r.1 = match familias st with
                | [] => 1
                | _ => max_default 0 (fam_id <$> familias st) + 1
                end
        ∧ (∀ f, f ∈ familias st → fam_id f < r.1)
        ∧ (r.1 ∉ fam_id <$> familias st)
        ∧ max_default 0 (fam_id <$> familias r.2) = r.1
        ∧ max_default 0 (fam_id <$> familias st)
          < max_default 0 (fam_id <$> familias r.2)).
    { intros Hk. subst r. unfold get_or_create_familia.
      rewrite Hf, (new_key_is_unindexed familia_key) by done. simpl.
      split; [done|]. split; [by destruct (familias st)|].
      split; [intros f Hin; by apply _next_id_fresh|]. split.
      + intros (f & Hid & Hin)%list_elem_of_fmap.
        pose proof (_next_id_fresh fam_id _ _ Hin). lia.
      + rewrite (max_default_after_create fam_id) by done.
        split; [done|]. apply _next_id_above_max. }
    split; [exact Hnew|]. split.
    + intros (f & Hin & Hk). subst r.
      destruct (indexed_key_is_found familia_key _ _ Hin) as (i & y & E & _).
      rewrite Hk, <- Hf in E.
      rewrite (get_or_create_familia_hit st name i y E). simpl.
      split; [done|]. apply deref_Some in E as [_ E].
      apply list_elem_of_fmap. exists y. split; [done|].
      by eapply list_elem_of_lookup_2.
    + intros E. destruct Hnew as (_ & Hid & _).
      * rewrite E. by intros f ?%elem_of_nil.
      * by rewrite E in Hid.
  - intros family_id name url r.
    assert (Hnew :
      (∀ p, p ∈ productos st → producto_key p ≠ (family_id, lower (strip name))) →
        productos r.2
        = productos st ++ [{| pro_id := r.1; pro_familia_id := family_id;
                              pro_nombre := strip name; pro_url := url |}]
        ∧ r.1 = match productos st with
                | [] => 1
                | _ => max_default 0 (pro_id <$> productos st) + 1
                end
        ∧ (∀ p, p ∈ productos st → pro_id p < r.1)
        ∧ (r.1 ∉ pro_id <$> productos st)
        ∧ max_default 0 (pro_id <$> productos r.2) = r.1
        ∧ max_default 0 (pro_id <$> productos st)
          < max_default 0 (pro_id <$> productos r.2)).
    { intros Hk. subst r. unfold get_or_create_producto.
      rewrite Hp, (new_key_is_unindexed producto_key) by done. simpl.
      split; [done|]. split; [by destruct (productos st)|].
      split; [intros p Hin; by apply _next_id_fresh|]. split.
      + intros (p & Hid & Hin)%list_elem_of_fmap.
        pose proof (_next_id_fresh pro_id _ _ Hin). lia.
      + rewrite (max_default_after_create pro_id) by done.
        split; [done|]. apply _next_id_above_max. }
    split; [exact Hnew|]. split.
    + intros (p & Hin & Hk). subst r.
      destruct (indexed_key_is_found producto_key _ _ Hin) as (i & y & E & _).
      rewrite Hk, <- Hp in E. unfold get_or_create_producto. rewrite E.
      apply deref_Some in E as [_ E].
      assert (Hy : pro_id y ∈ pro_id <$> productos st).
      { apply list_elem_of_fmap. exists y. split; [done|].
        by eapply list_elem_of_lookup_2. }
      destruct (_ && _); simpl; (split; [|done]); [|done].
      rewrite list_fmap_insert. apply list_insert_id.
      by rewrite list_lookup_fmap, E.
    + intros E. destruct Hnew as (_ & Hid & _).
      * rewrite E. by intros p ?%elem_of_nil.
      * by rewrite E in Hid.
Qed.

(** What a second [get_or_create_producto] leaves in the product's
    dictionary: the incoming URL if the stored one is empty and the incoming
    one is not, the stored URL otherwise; nothing else changes. *)
Lemma get_or_create_producto_hit (st : JsonStore) (family_id : Z)
    (name : str) (url : option str) (i : nat) (existing : producto) :
  deref (productos st) (productos_by_key st !! (family_id, lower (strip name)))
  = Some (i, existing) →
  let r := get_or_create_producto st family_id name url in
  let kept :=
    {| pro_id := pro_id existing; pro_familia_id := pro_familia_id existing;
       pro_nombre := pro_nombre existing;
       pro_url := if truthy url && negb (truthy (pro_url existing))
                  then url else pro_url existing |} in
  r.1 = pro_id existing
  ∧ productos r.2 = <[i := kept]> (productos st)
  ∧ subastas r.2 = subastas st ∧ familias r.2 = familias st
  ∧ precios r.2 = precios st
  ∧ subastas_by_id r.2 = subastas_by_id st
  ∧ familias_by_name r.2 = familias_by_name st
  ∧ productos_by_key r.2 = productos_by_key st
  ∧ precios_keys r.2 = precios_keys st.
Proof.
  intros E. unfold get_or_create_producto. rewrite E.
  apply deref_Some in E as [_ Hi].
  destruct (_ && _); simpl; repeat split.
  destruct existing. simpl. by rewrite list_insert_id.
Qed.

(** C6.  In a consistent store that holds a product with the key (family
    id, normalised name), [get_or_create_producto] returns the identifier
    of a stored product with that key and creates nothing: the product list
    keeps its length, its identifiers, its family ids and its names.  The
    product's URL becomes the incoming URL exactly when the stored URL is
    empty and the incoming one is not, and stays as it was otherwise; no
    other record or collection changes. *)
Theorem get_or_create_producto_existing (st : JsonStore) (family_id : Z)
    (name : str) (url : option str) :
  indexed st →
  (∃ p, p ∈ productos st ∧ producto_key p = (family_id, lower (strip name))) →
  let r := get_or_create_producto st family_id name url in
  ∃ (i : nat) (existing : producto),
    productos st !! i = Some existing
    ∧ producto_key existing = (family_id, lower (strip name))
    ∧ r.1 = pro_id existing
    ∧ productos r.2
      = <[i := {| pro_id := pro_id existing;
                  pro_familia_id := pro_familia_id existing;
                  pro_nombre := pro_nombre existing;
                  pro_url := if truthy url && negb (truthy (pro_url existing))
                             then url else pro_url existing |}]> (productos st)
    ∧ length (productos r.2) = length (productos st)
    ∧ pro_id <$> productos r.2 = pro_id <$> productos st
    ∧ pro_familia_id <$> productos r.2 = pro_familia_id <$> productos st
    ∧ pro_nombre <$> productos r.2 = pro_nombre <$> productos st
    ∧ subastas r.2 = subastas st ∧ familias r.2 = familias st
    ∧ precios r.2 = precios st.
Proof.
  intros (_ & _ & Hp & _) (p & Hin & Hkey) r.
  destruct (index_by_complete producto_key _ _ Hin) as [i Hi].
  rewrite Hkey, <- Hp in Hi.
  destruct (index_by_sound producto_key (productos st)
              (family_id, lower (strip name)) i) as (existing & Hex & Hk).
  { by rewrite <- Hp. }
  assert (E : deref (productos st)
                (productos_by_key st !! (family_id, lower (strip name)))
              = Some (i, existing)) by by apply deref_Some.
  destruct (get_or_create_producto_hit st family_id name url i existing E)
    as (H1 & H2 & H3 & H4 & H5 & _).
  fold r in H1, H2, H3, H4, H5.
  exists i, existing. rewrite H2.
  split; [done|]. split; [done|]. split; [done|]. split; [done|].
  split; [apply length_insert|].
  repeat split; try done;
    rewrite list_fmap_insert; apply list_insert_id;
    by rewrite list_lookup_fmap, Hex.
Qed.

(** ** Price cells *)

Lemma for_each_cons {S A} (body : S → A → result S) (x : A) (rest : list A) (s : S) :
  for_each body (x :: rest) s = body s x ≫= for_each body rest.
Proof. reflexivity. Qed.

Lemma for_each_app {S A} (body : S → A → result S) (xs ys : list A) (s : S) :
  for_each body (xs ++ ys) s = for_each body xs s ≫= for_each body ys.
Proof.
  revert s. induction xs as [|x xs IH]; intros s; [reflexivity|].
  simpl. destruct (body s x) as [s'|e]; simpl; [apply IH | reflexivity].
Qed.

Lemma parse_cuts_step_spec (values : list (option Z)) (cell : node) :
  parse_cuts_step values cell
  = if fits (get_text [] cell)
    then Ok (values ++ [cut_of_text (get_text [] cell)])
    else Raise ValueError.
Proof.
  unfold parse_cuts_step, cut_of_text, fits.
  destruct (decide (get_text [] cell = py "-")) as [E1|N1].
  { rewrite E1. reflexivity. }
  rewrite (bool_decide_eq_false_2 (get_text [] cell = py "-")) by done.
  destruct (decide (get_text [] cell = [])) as [E2|N2].
  { rewrite E2. reflexivity. }
  rewrite (bool_decide_eq_false_2 (get_text [] cell = [])) by done.
  cbn [orb]. rewrite <- only_digits_digit_characters.
  destruct (only_digits (get_text [] cell)) as [|c ds] eqn:E3.
  - simpl. by rewrite bool_decide_eq_true_2 by auto.
  - cbn [nonempty]. rewrite bool_decide_eq_false_2 by (intros [?|[?|?]]; done).
    rewrite int_0_9; [|done|]; [|rewrite <- E3; apply only_digits_0_9].
    by destruct (_ <? _)%nat.
Qed.

Lemma for_each_parse_cuts_step (cells : list node) (values : list (option Z)) :
  for_each parse_cuts_step cells values
  = if forallb (λ cell, fits (get_text [] cell)) cells
    then Ok (values ++ ((λ cell, cut_of_text (get_text [] cell)) <$> cells))
    else Raise ValueError.
Proof.
  revert values. induction cells as [|cell cells IH]; intros values.
  - simpl. by rewrite app_nil_r.
  - rewrite for_each_cons, parse_cuts_step_spec. cbn [forallb].
    destruct (fits _); [|reflexivity]. cbn [mbind result_bind andb].
    rewrite IH. destruct (forallb _ _); [|reflexivity].
    by rewrite fmap_cons, <- app_assoc.
Qed.


(** ** The response classifier *)

Lemma char_E (c : char) : ascii_upper c = 69 ↔ ascii_lower c = 101.
Proof.
  unfold ascii_upper, ascii_lower.
  destruct (Z.leb_spec 97 c), (Z.leb_spec c 122), (Z.leb_spec 65 c),
    (Z.leb_spec c 90); simpl; lia.
Qed.

Lemma char_R (c : char) : ascii_upper c = 82 ↔ ascii_lower c = 114.
Proof.
  unfold ascii_upper, ascii_lower.
  destruct (Z.leb_spec 97 c), (Z.leb_spec c 122), (Z.leb_spec 65 c),
    (Z.leb_spec c 90); simpl; lia.
Qed.

Lemma char_O (c : char) : ascii_upper c = 79 ↔ ascii_lower c = 111.
Proof.
  unfold ascii_upper, ascii_lower.
  destruct (Z.leb_spec 97 c), (Z.leb_spec c 122), (Z.leb_spec 65 c),
    (Z.leb_spec c 90); simpl; lia.
Qed.

Lemma fmap_cons_iff (f : char → char) (s : str) (c : char) (t : str) :
  f <$> s = c :: t ↔ ∃ d s', s = d :: s' ∧ f d = c ∧ f <$> s' = t.
Proof.
  destruct s as [|d s']; simpl.
  - split; [discriminate | by intros (? & ? & ? & _)].
  - split.
    + intros [= <- <-]. eauto.
    + by intros (? & ? & [= <- <-] & <- & <-).
Qed.

Lemma fmap_nil_iff (f : char → char) (s : str) : f <$> s = [] ↔ s = [].
Proof. destruct s; simpl; split; done. Qed.

Lemma fmap_split (f : char → char) (s a b : str) :
  f <$> s = a ++ b → ∃ a' b', s = a' ++ b' ∧ f <$> a' = a ∧ f <$> b' = b.
Proof.
  revert s. induction a as [|c a IH]; intros s E.
  - by exists [], s.
  - destruct s as [|d s]; simpl in E; [discriminate|].
    injection E as Ec Es. destruct (IH _ Es) as (a' & b' & -> & Ea & Eb).
    exists (d :: a'), b'. by subst.
Qed.

(** The words that [upper] sends to ["ERROR"] are those that lower-casing
    sends to ["error"]. *)
Lemma upper_ERROR (w : str) :
  upper w = py "ERROR" ↔ same_ignoring_case w (py "ERROR").
Proof.
  unfold same_ignoring_case, upper.
  change (ascii_lower <$> py "ERROR") with [101; 114; 114; 111; 114].
  change (py "ERROR") with [69; 82; 82; 79; 82].
  rewrite !fmap_cons_iff. split.
  - intros (c1 & w1 & -> & E1%char_E & (c2 & w2 & -> & E2%char_R &
            (c3 & w3 & -> & E3%char_R & (c4 & w4 & -> & E4%char_O &
            (c5 & w5 & -> & E5%char_R & ->%fmap_nil_iff)
              %fmap_cons_iff)%fmap_cons_iff)%fmap_cons_iff)
              %fmap_cons_iff).
    exists c1, [c2; c3; c4; c5].
    simpl. split; [done|]. split; [done|]. by rewrite E2, E3, E4, E5.
  - intros (c1 & w1 & -> & E1%char_E & (c2 & w2 & -> & E2%char_R &
            (c3 & w3 & -> & E3%char_R & (c4 & w4 & -> & E4%char_O &
            (c5 & w5 & -> & E5%char_R & ->%fmap_nil_iff)
              %fmap_cons_iff)%fmap_cons_iff)%fmap_cons_iff)
              %fmap_cons_iff).
    exists c1, [c2; c3; c4; c5].
    simpl. split; [done|]. split; [done|]. by rewrite E2, E3, E4, E5.
Qed.

Lemma occurs_upper (html : str) :
  occurs (py "ERROR") (upper html)
  ↔ ∃ w, occurs w html ∧ upper w = py "ERROR".
Proof.
  split.
  - intros (pre & post & E).
    apply fmap_split in E as (pre' & rest & -> & _ & E).
    apply fmap_split in E as (w & post' & -> & Ew & _).
    exists w. split; [by exists pre', post' | exact Ew].
  - intros (w & (pre & post & ->) & Ew).
    exists (upper pre), (upper post). unfold upper in *.
    by rewrite !fmap_app, Ew.
Qed.

(** C4.  [has_error_response] is true exactly for the texts that contain
    the token ERROR up to case and do not contain the products-table marker
    [tab_pre_pro]; so a text containing both ["ERROR"] and the marker is not
    an error response. *)
Theorem has_error_response_policy (html : str) :
  (has_error_response html = true ↔ error_page html)
  ∧ (occurs (py "ERROR") html → occurs (py "tab_pre_pro") html →
     has_error_response html = false).
Proof.
  assert (Hiff : has_error_response html = true ↔ error_page html).
  { unfold has_error_response, error_page.
    rewrite andb_true_iff, negb_true_iff, contains_occurs, occurs_upper.
    rewrite <- not_true_iff_false, contains_occurs.
    split; intros [(w & Hw & E) Hm]; (split; [|exact Hm]);
      exists w; (split; [exact Hw|]); by apply upper_ERROR. }
  split; [exact Hiff|].
  intros _ Hm. apply not_true_iff_false. intros [_ Hn]%Hiff. by apply Hn.
Qed.

(** ** The displayed date *)

(** Without a title cell, or without a date pattern in its text, the
    fallback is returned. *)
Lemma extract_table_date_fallback (soup : node) (fallback : date) :
  (select_one (title_cell_sel (py "titNombreder")) soup = None
   ∨ ∃ cell, select_one (title_cell_sel (py "titNombreder")) soup = Some cell
             ∧ search date_pattern (get_text (py " ") cell) = None) →
  extract_table_date soup fallback = Ok fallback.
Proof.
  unfold extract_table_date. intros [->|(cell & -> & ->)]; reflexivity.
Qed.

(** C7.  On a page whose title cell reads [Fecha: 00-00-0000] the pattern
    is found, the [date] constructor rejects year 0, month 0 and day 0, and
    [extract_table_date] raises [ValueError] instead of returning a date,
    whatever the fallback. *)
Theorem extract_table_date_raises (fallback : date) :
  search date_pattern (py "Fecha: 00-00-0000")
  = Some (py "00", py "00", py "0000")
  ∧ extract_table_date undated_page fallback = Raise ValueError.
Proof. split; reflexivity. Qed.

(** ** Rows and families *)

Lemma parse_rows_step_bare_header (acc : str * list ParsedRow) (h : node) :
  py "familias_subasta" ∈ get_classes h → select_one td_fam h = None →
  parse_rows_step acc h = Ok acc.
Proof.
  intros Hh Hc. destruct acc as [current_family rows]. unfold parse_rows_step.
  by rewrite bool_decide_eq_true_2, Hc by done.
Qed.

Lemma parse_rows_step_family (acc acc' : str * list ParsedRow) (row : node) :
  parse_rows_step acc row = Ok acc' →
  acc'.1 = default acc.1 (announced_family row).
Proof.
  destruct acc as [current_family rows].
  unfold parse_rows_step, announced_family.
  destruct (bool_decide _).
  - destruct (select_one td_fam row); by intros [= <-].
  - destruct (select_one td_pro row); [|by intros [= <-]].
    destruct (negb _); [by intros [= <-]|].
    destruct (parse_cuts row); simpl; [by intros [= <-] | done].
Qed.

Lemma default_last_cons {A} (a x : A) (l : list A) :
  default a (last (x :: l)) = default x (last l).
Proof. rewrite last_cons. by destruct (last l). Qed.

Lemma for_each_parse_rows_step_family (trs : list node)
    (acc acc' : str * list ParsedRow) :
  for_each parse_rows_step trs acc = Ok acc' →
  acc'.1 = default acc.1 (last (omap announced_family trs)).
Proof.
  revert acc. induction trs as [|row trs IH]; intros acc.
  - by intros [= <-].
  - rewrite for_each_cons.
    destruct (parse_rows_step acc row) as [acc1|e] eqn:E1; simpl; [|done].
    intros E. rewrite (IH _ E), (parse_rows_step_family _ _ _ E1).
    destruct (announced_family row); simpl; [by rewrite default_last_cons | done].
Qed.

Lemma parse_rows_step_product (current_family : str) (rows : list ParsedRow)
    (p cell : node) :
  py "familias_subasta" ∉ get_classes p → select_one td_pro p = Some cell →
  parse_rows_step (current_family, rows) p
  = if nonempty current_family
    then cuts ← parse_cuts p;
         Ok (current_family,
             rows ++ [{| family_name := current_family;
                         product_name := get_text (py " ") cell;
                         product_url := parse_product_url p;
                         cuts := cuts |}])
    else Ok (current_family, rows).
Proof.
  intros Hp Hc. unfold parse_rows_step.
  rewrite bool_decide_eq_false_2, Hc by done. by destruct (nonempty _).
Qed.

(** The loop over the rows completes when the cuts of every row can be
    read. *)
Lemma for_each_parse_rows_step_ok (trs : list node) (acc : str * list ParsedRow) :
  (∀ p, p ∈ trs → ∃ cuts, parse_cuts p = Ok cuts) →
  ∃ acc', for_each parse_rows_step trs acc = Ok acc'.
Proof.
  revert acc. induction trs as [|row trs IH]; intros acc Hok; [by eexists|].
  rewrite for_each_cons.
  assert (E : ∃ acc1, parse_rows_step acc row = Ok acc1).
  { destruct acc as [current_family rows]. unfold parse_rows_step.
    destruct (bool_decide _); [destruct (select_one td_fam row); eauto|].
    destruct (select_one td_pro row); [|eauto].
    destruct (negb _); [eauto|].
    destruct (Hok row) as [cuts ->]; [left|]. simpl. eauto. }
  destruct E as [acc1 ->]. simpl. apply IH. intros p Hp. apply Hok. by right.
Qed.

(** C9.  A row tagged as a family header that has no family cell leaves
    the loop of [parse_rows] as it found it: the current family is kept, not
    reset.  The current family after any rows is the one announced by the
    most recent header that did carry a family cell; a product row right
    after the bare header is therefore filed under that family, or skipped
    when there is none; and the page parses as it would without the bare
    header. *)
Theorem parse_rows_bare_header (h : node) :
  py "familias_subasta" ∈ get_classes h → select_one td_fam h = None →
  (∀ acc, parse_rows_step acc h = Ok acc)
  ∧ (∀ trs,
       ((∀ p, p ∈ trs → ∃ cuts, parse_cuts p = Ok cuts) →
        ∃ acc, rows_of trs = Ok acc)
       ∧ (∀ acc, rows_of trs = Ok acc → acc.1 = family_in_force trs))
  ∧ (∀ pre, family_in_force (pre ++ [h]) = family_in_force pre)
  ∧ (∀ pre p cell,
       py "familias_subasta" ∉ get_classes p → select_one td_pro p = Some cell →
       rows_of (pre ++ [h; p]) = rows_of (pre ++ [p])
       ∧ rows_of (pre ++ [h; p])
         = acc ← rows_of pre;
           if nonempty (family_in_force pre)
           then cuts ← parse_cuts p;
                Ok (family_in_force pre,
                    acc.2 ++ [{| family_name := family_in_force pre;
                                 product_name := get_text (py " ") cell;
                                 product_url := parse_product_url p;
                                 cuts := cuts |}])
           else Ok (family_in_force pre, acc.2))
  ∧ (∀ soup table pre post,
       select_one table_tab_pre_pro soup = Some table →
       select sel_tr table = pre ++ h :: post →
       parse_rows soup = acc ← rows_of (pre ++ post); Ok acc.2).
Proof.
  intros Hh Hc.
  assert (Hfam : ∀ trs acc, rows_of trs = Ok acc → acc.1 = family_in_force trs)
    by (intros trs acc E; by apply (for_each_parse_rows_step_family _ _ _ E)).
  assert (Hskip : ∀ pre post,
            rows_of (pre ++ h :: post) = rows_of (pre ++ post)).
  { intros pre post. unfold rows_of. rewrite !for_each_app.
    destruct (for_each parse_rows_step pre _) as [acc|e]; [|done].
    cbn [mbind result_bind].
    by rewrite for_each_cons, parse_rows_step_bare_header. }
  split; [intros acc; by apply parse_rows_step_bare_header|].
  split; [intros trs; split;
          [apply for_each_parse_rows_step_ok | apply Hfam]|].
  split; [|split].
  - intros pre. unfold family_in_force. rewrite omap_app. simpl.
    unfold announced_family at 2.
    by rewrite bool_decide_eq_true_2, Hc, app_nil_r by done.
  - intros pre p cell Hp Hcell. split; [apply Hskip|].
    rewrite Hskip. unfold rows_of. rewrite for_each_app.
    fold (rows_of pre).
    destruct (rows_of pre) as [[current_family rows]|e] eqn:E; [|done].
    cbn [mbind result_bind]. rewrite <- (Hfam pre _ E). cbn [fst snd].
    rewrite for_each_cons, (parse_rows_step_product _ _ p cell Hp Hcell).
    destruct (nonempty current_family); [|done].
    by destruct (parse_cuts p).
  - intros soup table pre post Ht Htrs. unfold parse_rows.
    by rewrite Ht, Htrs, Hskip.
Qed.

(** ** The crawl driver *)

Section CrawlFacts.
Variable fetch_auction_html : Z → date → option str.
Variable BeautifulSoup : str → node.

(** A pair whose request fails, whose page is classified as an error page,
    or whose page has no product rows, costs one query and one printed line
    and leaves the store and the count of inserted prices alone, provided
    the pair is dealt with at all, that is, [visit] returns. *)
Lemma visit_leaves_store (rs rs' : run_state) (subasta_id : Z) (current_day : date) :
  match fetch_auction_html subasta_id current_day with
  | None => True
  | Some html =>
      has_error_response html = true ∨ parse_rows (BeautifulSoup html) = Ok []
  end →
  visit fetch_auction_html BeautifulSoup rs subasta_id current_day = Ok rs' →
  store rs' = store rs
  ∧ inserted_prices rs' = inserted_prices rs
  ∧ queried rs' = queried rs + 1
  ∧ ∃ m, printed rs' = printed rs ++ [m].
Proof.
  unfold visit. destruct (fetch_auction_html _ _) as [html|].
  - destruct (has_error_response html).
    + intros _ [= <-]. simpl. eauto.
    + intros [?|Hrows]; [done|]. rewrite Hrows.
      destruct (extract_table_date _ _) as [d|e]; simpl; [|done].
      intros [= <-]. simpl. eauto.
  - intros _ [= <-]. simpl. eauto.
Qed.

(** An error page is always dealt with: the loop goes on. *)
Lemma visit_error_page (rs : run_state) (subasta_id : Z) (current_day : date)
    (html : str) :
  fetch_auction_html subasta_id current_day = Some html →
  has_error_response html = true →
  ∃ rs', visit fetch_auction_html BeautifulSoup rs subasta_id current_day = Ok rs'.
Proof. unfold visit. intros -> ->. eauto. Qed.

(** A page without product rows is dealt with exactly when its displayed
    date can be extracted; otherwise the exception leaves the loop. *)
Lemma visit_no_rows (rs : run_state) (subasta_id : Z) (current_day : date)
    (html : str) :
  fetch_auction_html subasta_id current_day = Some html →
  has_error_response html = false →
  parse_rows (BeautifulSoup html) = Ok [] →
  match extract_table_date (BeautifulSoup html) current_day with
  | Ok _ => ∃ rs', visit fetch_auction_html BeautifulSoup rs subasta_id
                         current_day = Ok rs'
  | Raise e => visit fetch_auction_html BeautifulSoup rs subasta_id current_day
               = Raise e
  end.
Proof.
  unfold visit. intros -> -> ->.
  destruct (extract_table_date _ _); simpl; eauto.
Qed.
End CrawlFacts.

(** C8.  The site answers with a page that is not an error page, has no
    product rows, and shows the date [00-00-0000] in its title cell.  The
    visit of the pair raises [ValueError] while extracting the displayed
    date, before the rows are looked at; the loop over the auctions does not
    go on to the next pair, and [run_scrapper] ends with the exception
    without saving. *)
Theorem visit_undated_page_raises (rs : run_state) (subasta_id : Z)
    (current_day : date) :
  has_error_response undated_html = false
  ∧ parse_rows (undated_soup undated_html) = Ok []
  ∧ visit undated_site undated_soup rs subasta_id current_day = Raise ValueError
  ∧ (∀ rest,
       for_each (λ rs subasta_id, visit undated_site undated_soup rs subasta_id
                                        current_day)
                (subasta_id :: rest) rs
       = Raise ValueError)
  ∧ run_scrapper undated_site undated_soup current_day 1 2 (store rs)
    = Raise ValueError.
Proof.
  assert (Hv : ∀ rs i, visit undated_site undated_soup rs i current_day
                       = Raise ValueError) by reflexivity.
  split; [reflexivity|]. split; [reflexivity|]. split; [apply Hv|].
  split; [intros rest; by rewrite for_each_cons, Hv|].
  assert (Hd : ∀ rs, visit_day undated_site undated_soup current_day 2 rs 0
                     = Raise ValueError).
  { intros rs0. unfold visit_day.
    change (minus_days current_day (Z.to_nat 0)) with (Ok current_day).
    change (seqZ 1 2) with [1; 2].
    cbn [mbind result_bind]. by rewrite for_each_cons, Hv. }
  unfold run_scrapper. change (seqZ 0 1) with [0].
  by rewrite for_each_cons, Hd.
Qed.

(** * Further properties of the store, the parsers and the driver *)

(** ** Auctions *)


(** X1.  [upsert_subasta] is idempotent: a second call with the same
    identifier and name changes nothing.  After a call the identifier is
    found, at most one record was added, and the record found carries the
    stripped name whenever that name is not empty. *)
Theorem upsert_subasta_idempotent (st : JsonStore) (subasta_id : Z)
    (nombre : str) :
  let st' := upsert_subasta st subasta_id nombre in
  upsert_subasta st' subasta_id nombre = st'
  ∧ (length (subastas st') ≤ S (length (subastas st)))%nat
  ∧ ∃ j s, deref (subastas st') (subastas_by_id st' !! subasta_id) = Some (j, s)
           ∧ (nonempty (strip nombre) = true → sub_nombre s = strip nombre).
Proof.
  intros st'. subst st'.
  destruct (deref (subastas st) (subastas_by_id st !! subasta_id))
    as [[i stored]|] eqn:E.
  - pose proof E as [Hidx Hi]%deref_Some.
    destruct (nonempty (strip nombre)
              && negb (bool_decide (sub_nombre stored = strip nombre))) eqn:Hc.
    + set (stored' := {| sub_id := sub_id stored; sub_nombre := strip nombre |}).
      assert (E' : deref (<[i := stored']> (subastas st))
                     (subastas_by_id st !! subasta_id) = Some (i, stored')).
      { apply deref_Some. split; [done|].
        apply list_lookup_insert_eq. by eapply lookup_lt_Some. }
      assert (Hst : upsert_subasta st subasta_id nombre
                    = {| subastas := <[i := stored']> (subastas st);
                         familias := familias st; productos := productos st;
                         precios := precios st;
                         subastas_by_id := subastas_by_id st;
                         familias_by_name := familias_by_name st;
                         productos_by_key := productos_by_key st;
                         precios_keys := precios_keys st |})
        by (unfold upsert_subasta; by rewrite E, Hc).
      rewrite Hst. split; [|split].
      * unfold upsert_subasta. simpl. rewrite E'. simpl.
        by rewrite bool_decide_eq_true_2, andb_false_r by done.
      * simpl. rewrite length_insert. lia.
      * exists i, stored'. split; [exact E' | done].
    + assert (Hst : upsert_subasta st subasta_id nombre = st)
        by (unfold upsert_subasta; by rewrite E, Hc).
      rewrite Hst. split; [exact Hst|]. split; [lia|].
      exists i, stored. split; [exact E|]. intros Hn. rewrite Hn in Hc.
      simpl in Hc. apply negb_false_iff, bool_decide_eq_true in Hc. exact Hc.
  - set (record := {| sub_id := subasta_id; sub_nombre := strip nombre |}).
    assert (E' : deref (subastas st ++ [record])
                   (<[subasta_id := length (subastas st)]> (subastas_by_id st)
                      !! subasta_id)
                 = Some (length (subastas st), record)).
    { apply deref_Some. rewrite lookup_insert_eq. split; [done|].
      by rewrite lookup_app_r, Nat.sub_diag. }
    assert (Hst : upsert_subasta st subasta_id nombre
                  = {| subastas := subastas st ++ [record];
                       familias := familias st; productos := productos st;
                       precios := precios st;
                       subastas_by_id :=
                         <[subasta_id := length (subastas st)]> (subastas_by_id st);
                       familias_by_name := familias_by_name st;
                       productos_by_key := productos_by_key st;
                       precios_keys := precios_keys st |})
      by (unfold upsert_subasta; by rewrite E).
    rewrite Hst. split; [|split].
    + unfold upsert_subasta. simpl. rewrite E'. simpl.
      by rewrite bool_decide_eq_true_2, andb_false_r by done.
    + simpl. rewrite length_app. simpl. lia.
    + exists (length (subastas st)), record. split; [exact E' | done].
Qed.

(** ** The store only grows *)

Lemma deref_snoc {A} (l : list A) (ref : option nat) (x : A) (j : nat) (y : A) :
  deref l ref = Some (j, y) → deref (l ++ [x]) ref = Some (j, y).
Proof.
  rewrite !deref_Some. intros [-> Hj]. split; [done|]. by apply lookup_app_l_Some.
Qed.

Lemma deref_snoc_other `{Countable K} {A} (l : list A) (idx : gmap K nat)
    (k0 k : K) (x : A) (j : nat) (y : A) :
  deref l (idx !! k0) = None → deref l (idx !! k) = Some (j, y) →
  deref (l ++ [x]) (<[k0 := length l]> idx !! k) = Some (j, y).
Proof.
  intros Hnone Hk. assert (k0 ≠ k) by (intros ->; congruence).
  rewrite lookup_insert_ne by done. by apply deref_snoc.
Qed.

Lemma deref_update {A} (l : list A) (ref : option nat) (i : nat) (x' : A)
    (j : nat) (y : A) :
  deref l ref = Some (j, y) →
  ∃ y', deref (<[i := x']> l) ref = Some (j, y')
        ∧ (y' = y ∨ (j = i ∧ y' = x')).
Proof.
  rewrite deref_Some. intros [-> Hj]. destruct (decide (j = i)) as [->|Hne].
  - exists x'. split; [|by right]. apply deref_Some. split; [done|].
    apply list_lookup_insert_eq. by eapply lookup_lt_Some.
  - exists y. split; [|by left]. apply deref_Some. split; [done|].
    by rewrite list_lookup_insert_ne.
Qed.

Lemma same_product_refl (p : producto) : same_product p p.
Proof. by repeat split. Qed.

Lemma same_product_trans (p q r : producto) :
  same_product p q → same_product q r → same_product p r.
Proof.
  intros (H1 & H2 & H3 & H4) (G1 & G2 & G3 & G4).
  repeat split; try congruence.
  intros Hp. rewrite G4, H4; [done..|]. by rewrite H4.
Qed.

Lemma grows_refl (T : JsonStore) : grows T T.
Proof.
  split; try done; eauto using same_product_refl.
Qed.

Lemma grows_trans (T S R : JsonStore) : grows T S → grows S R → grows T R.
Proof.
  intros [F1 P1 A1 Q1 LF1 LP1 LA1 K1] [F2 P2 A2 Q2 LF2 LP2 LA2 K2]. split.
  - by etrans.
  - by etrans.
  - intros j s (s' & Hs' & E1)%A1. destruct (A2 _ _ Hs') as (s'' & Hs'' & E2).
    exists s''. split; [done | congruence].
  - intros j p (p' & Hp' & E1)%Q1. destruct (Q2 _ _ Hp') as (p'' & Hp'' & E2).
    exists p''. split; [done|]. by eapply same_product_trans.
  - eauto.
  - intros k j p (p' & Hp')%LP1. eauto.
  - intros k j s (s' & Hs')%LA1. eauto.
  - by etrans.
Qed.

Lemma grows_upsert_subasta (st : JsonStore) (subasta_id : Z) (nombre : str) :
  grows st (upsert_subasta st subasta_id nombre).
Proof.
  unfold upsert_subasta.
  destruct (deref (subastas st) (subastas_by_id st !! subasta_id))
    as [[i stored]|] eqn:E.
  - destruct (_ && _); [|apply grows_refl].
    apply deref_Some in E as [_ Hi].
    split; simpl; try done; eauto using same_product_refl.
    + intros j s Hj. destruct (decide (j = i)) as [->|Hne].
      * exists {| sub_id := sub_id stored; sub_nombre := strip nombre |}.
        rewrite list_lookup_insert_eq by (by eapply lookup_lt_Some).
        split; [done|]. simpl. congruence.
      * exists s. by rewrite list_lookup_insert_ne.
    + intros k j s Hk.
      destruct (deref_update _ _ i
                  {| sub_id := sub_id stored; sub_nombre := strip nombre |}
                  _ _ Hk) as (y' & Hy' & _).
      eauto.
  - split; simpl; try done; eauto using same_product_refl.
    + intros j s Hj. exists s. split; [|done]. by apply lookup_app_l_Some.
    + intros k j s Hk. exists s. by apply deref_snoc_other.
Qed.

Lemma grows_get_or_create_familia (st : JsonStore) (family_name : str) :
  grows st (get_or_create_familia st family_name).2.
Proof.
  unfold get_or_create_familia.
  destruct (deref (familias st) (familias_by_name st !! lower (strip family_name)))
    as [[i existing]|] eqn:E; [apply grows_refl|].
  split; simpl; try done; eauto using same_product_refl.
  - by apply prefix_app_r.
  - intros k j f Hk. by apply deref_snoc_other.
Qed.

Lemma grows_get_or_create_producto (st : JsonStore) (family_id : Z)
    (product_name : str) (product_url : option str) :
  grows st (get_or_create_producto st family_id product_name product_url).2.
Proof.
  unfold get_or_create_producto.
  destruct (deref (productos st) _) as [[i existing]|] eqn:E.
  - destruct (truthy product_url && negb (truthy (pro_url existing))) eqn:Hc;
      [|apply grows_refl].
    apply andb_true_iff in Hc as [_ Hold%negb_true_iff].
    apply deref_Some in E as [_ Hi].
    split; simpl; try done; eauto.
    + intros j p Hj. destruct (decide (j = i)) as [->|Hne].
      * eexists. rewrite list_lookup_insert_eq by (by eapply lookup_lt_Some).
        split; [done|]. assert (p = existing) as -> by congruence.
        repeat split. simpl. congruence.
      * exists p. rewrite list_lookup_insert_ne by done.
        split; [done | apply same_product_refl].
    + intros k j p Hk.
      destruct (deref_update _ _ i
                  {| pro_id := pro_id existing;
                     pro_familia_id := pro_familia_id existing;
                     pro_nombre := pro_nombre existing;
                     pro_url := product_url |} _ _ Hk) as (y' & Hy' & _).
      eauto.
  - split; simpl; try done; eauto.
    + intros j p Hj. exists p. split; [|apply same_product_refl].
      by apply lookup_app_l_Some.
    + intros k j p Hk. exists p. by apply deref_snoc_other.
Qed.

Lemma grows_insert_precio (st : JsonStore) (subasta_id : Z) (fecha_iso : str)
    (producto_id corte precio_ : Z) :
  grows st (insert_precio st subasta_id fecha_iso producto_id corte precio_).2.
Proof.
  unfold insert_precio. destruct (decide _); [apply grows_refl|].
  split; simpl; try done; eauto using same_product_refl.
  - by apply prefix_app_r.
  - apply union_subseteq_r.
Qed.

Lemma grows_perform (st : JsonStore) (c : call) : grows st (perform st c).
Proof.
  destruct c; simpl;
    auto using grows_upsert_subasta, grows_get_or_create_familia,
      grows_get_or_create_producto, grows_insert_precio.
Qed.

Lemma grows_calls (calls : list call) (st : JsonStore) :
  grows st (fold_left perform calls st).
Proof.
  revert st. induction calls as [|c calls IH]; intros st; simpl;
    [apply grows_refl|].
  eapply grows_trans; [apply grows_perform | apply IH].
Qed.

(** X2.  Whatever calls are made on a store, nothing it holds is lost or
    moved: the families and the prices it had are a prefix of those it has
    afterwards, every auction is still at its place with its identifier,
    every product is still at its place with its identifier, family and
    name, a URL that was not empty is still the same, and every registered
    price key is still registered. *)
Theorem store_only_grows (st : JsonStore) (calls : list call) :
  let st' := fold_left perform calls st in
  familias st `prefix_of` familias st'
  ∧ precios st `prefix_of` precios st'
  ∧ (∀ j s, subastas st !! j = Some s →
       ∃ s', subastas st' !! j = Some s' ∧ sub_id s' = sub_id s)
  ∧ (∀ j p, productos st !! j = Some p →
       ∃ p', productos st' !! j = Some p'
             ∧ pro_id p' = pro_id p ∧ pro_familia_id p' = pro_familia_id p
             ∧ pro_nombre p' = pro_nombre p
             ∧ (truthy (pro_url p) = true → pro_url p' = pro_url p))
  ∧ precios_keys st ⊆ precios_keys st'.
Proof.
  intros st'. destruct (grows_calls calls st) as [F P A Q _ _ _ K].
  repeat split; try done.
Qed.

(** ** Keys and identifiers stay unique *)

Lemma unindexed_key_is_new `{Countable K} {A} (key : A → K) (l : list A) (k : K) :
  deref l (index_by key l !! k) = None → k ∉ key <$> l.
Proof.
  intros Hnone (x & -> & Hx)%list_elem_of_fmap.
  destruct (index_by_complete key l x Hx) as [j Hj].
  destruct (index_by_sound key l _ j Hj) as (y & Hy & _).
  assert (deref l (index_by key l !! key x) = Some (j, y))
    by (by apply deref_Some).
  congruence.
Qed.

Lemma NoDup_snoc_new {A} (l : list A) (x : A) : NoDup l → x ∉ l → NoDup (l ++ [x]).
Proof.
  intros Hl Hx. apply NoDup_app. split; [done|]. split.
  - by intros y Hy ->%list_elem_of_singleton.
  - apply NoDup_singleton.
Qed.

Lemma familias_perform (st : JsonStore) (c : call) :
  familias (perform st c) = familias st
  ∨ ∃ name,
      familias (perform st c)
      = familias st ++ [{| fam_id := _next_id fam_id (familias st);
                           fam_nombre := strip name |}]
      ∧ deref (familias st) (familias_by_name st !! lower (strip name)) = None.
Proof.
  destruct c as [i n|n|f n u|s f p k v]; simpl.
  - left. unfold upsert_subasta. destruct (deref _ _) as [[??]|]; [|done].
    by destruct (_ && _).
  - unfold get_or_create_familia. destruct (deref _ _) as [[??]|] eqn:E; [by left|].
    right. by exists n.
  - left. unfold get_or_create_producto. destruct (deref _ _) as [[??]|]; [|done].
    by destruct (_ && _).
  - left. unfold insert_precio. by destruct (decide _).
Qed.

Lemma productos_perform (st : JsonStore) (c : call) :
  (producto_key <$> productos (perform st c) = producto_key <$> productos st
   ∧ pro_id <$> productos (perform st c) = pro_id <$> productos st)
  ∨ ∃ family_id name url,
      productos (perform st c)
      = productos st ++ [{| pro_id := _next_id pro_id (productos st);
                            pro_familia_id := family_id;
                            pro_nombre := strip name; pro_url := url |}]
      ∧ deref (productos st)
              (productos_by_key st !! (family_id, lower (strip name))) = None.
Proof.
  destruct c as [i n|n|f n u|s f p k v]; simpl.
  - left. unfold upsert_subasta. destruct (deref _ _) as [[??]|]; [|done].
    by destruct (_ && _).
  - left. unfold get_or_create_familia. by destruct (deref _ _) as [[??]|].
  - unfold get_or_create_producto.
    destruct (deref _ _) as [[i existing]|] eqn:E.
    + left. destruct (_ && _); [|done]. simpl.
      apply deref_Some in E as [_ Hi].
      rewrite !list_fmap_insert. simpl.
      split; apply list_insert_id; by rewrite list_lookup_fmap, Hi.
    + right. by exists f, n, u.
  - left. unfold insert_precio. by destruct (decide _).
Qed.

Lemma subastas_perform (st : JsonStore) (c : call) :
  sub_id <$> subastas (perform st c) = sub_id <$> subastas st
  ∨ ∃ subasta_id,
      sub_id <$> subastas (perform st c) = (sub_id <$> subastas st) ++ [subasta_id]
      ∧ deref (subastas st) (subastas_by_id st !! subasta_id) = None.
Proof.
  destruct c as [a n|n|f n u|s f p k v]; simpl.
  - unfold upsert_subasta. destruct (deref _ _) as [[i stored]|] eqn:E.
    + left. destruct (_ && _); [|done]. simpl.
      apply deref_Some in E as [_ Hi].
      rewrite list_fmap_insert. simpl.
      apply list_insert_id. by rewrite list_lookup_fmap, Hi.
    + right. exists a. simpl. by rewrite fmap_app.
  - left. unfold get_or_create_familia. by destruct (deref _ _) as [[??]|].
  - left. unfold get_or_create_producto. destruct (deref _ _) as [[??]|]; [|done].
    by destruct (_ && _).
  - left. unfold insert_precio. by destruct (decide _).
Qed.

(** X3.  Natural keys stay unique.  If the loaded auctions have distinct
    identifiers, so have the auctions of the store after any calls; likewise
    for the normalised names of the families and for the (family,
    normalised name) keys of the products: no call adds a second record for
    a key that a record already has. *)
Theorem natural_keys_stay_unique (ss : list subasta) (fs : list familia)
    (ps : list producto) (rs : list precio) (calls : list call) :
  let st := fold_left perform calls (JsonStore_init ss fs ps rs) in
  (NoDup (sub_id <$> ss) → NoDup (sub_id <$> subastas st))
  ∧ (NoDup (familia_key <$> fs) → NoDup (familia_key <$> familias st))
  ∧ (NoDup (producto_key <$> ps) → NoDup (producto_key <$> productos st)).
Proof.
  induction calls as [|c calls IH] using rev_ind; [by repeat split|].
  rewrite fold_left_app. simpl.
  set (st := fold_left perform calls (JsonStore_init ss fs ps rs)) in *.
  assert (Hst : indexed st) by apply indexed_calls, indexed_init.
  destruct Hst as (Hs & Hf & Hp & _). destruct IH as (IHs & IHf & IHp).
  split; [|split].
  - intros Hnd%IHs. destruct (subastas_perform st c) as [->|(i & -> & Hnew)];
      [done|].
    apply NoDup_snoc_new; [done|]. rewrite Hs in Hnew.
    by apply unindexed_key_is_new.
  - intros Hnd%IHf. destruct (familias_perform st c) as [->|(n & -> & Hnew)];
      [done|].
    rewrite fmap_app. simpl. rewrite familia_key_created.
    apply NoDup_snoc_new; [done|]. rewrite Hf in Hnew.
    by apply unindexed_key_is_new.
  - intros Hnd%IHp.
    destruct (productos_perform st c) as [[-> _]|(f & n & u & -> & Hnew)];
      [done|].
    rewrite fmap_app. simpl. rewrite producto_key_created.
    apply NoDup_snoc_new; [done|]. rewrite Hp in Hnew.
    by apply unindexed_key_is_new.
Qed.


(** X4.  Surrogate identifiers stay unique.  If the loaded families have
    distinct identifiers, so have the families of the store after any calls,
    and likewise for the products: a created record never takes an
    identifier that is in use. *)
Theorem surrogate_ids_stay_unique (st : JsonStore) (calls : list call) :
  let st' := fold_left perform calls st in
  (NoDup (fam_id <$> familias st) → NoDup (fam_id <$> familias st'))
  ∧ (NoDup (pro_id <$> productos st) → NoDup (pro_id <$> productos st')).
Proof.
  induction calls as [|c calls IH] using rev_ind; [by split|].
  rewrite fold_left_app. simpl.
  set (st' := fold_left perform calls st) in *. destruct IH as [IHf IHp]. split.
  - intros Hnd%IHf. destruct (familias_perform st' c) as [->|(n & -> & _)];
      [done|].
    rewrite fmap_app. simpl. apply NoDup_snoc_new; [done|].
    intros (f & Hid & Hf)%list_elem_of_fmap.
    pose proof (_next_id_fresh fam_id _ _ Hf). lia.
  - intros Hnd%IHp.
    destruct (productos_perform st' c) as [[_ ->]|(f & n & u & -> & _)];
      [done|].
    rewrite fmap_app. simpl. apply NoDup_snoc_new; [done|].
    intros (p & Hid & Hp)%list_elem_of_fmap.
    pose proof (_next_id_fresh pro_id _ _ Hp). lia.
Qed.


(** X5.  Saving and loading again gives the same store: after any calls on
    a store built by the constructor, the constructor applied to the four
    saved lists rebuilds exactly the lookup dictionaries the store holds. *)
Theorem save_then_load (ss : list subasta) (fs : list familia)
    (ps : list producto) (rs : list precio) (calls : list call) :
  let st := fold_left perform calls (JsonStore_init ss fs ps rs) in
  let '(ss', fs', ps', rs') := save st in
  JsonStore_init ss' fs' ps' rs' = st.
Proof.
  intros st. assert (Hst : indexed st) by apply indexed_calls, indexed_init.
  destruct Hst as (Hs & Hf & Hp & Hr). unfold prices_indexed in Hr.
  unfold save, JsonStore_init. destruct st; simpl in *. congruence.
Qed.

(** ** Products: create, then look up *)

Lemma get_or_create_producto_found (st : JsonStore) (family_id : Z)
    (name : str) (url : option str) :
  let r := get_or_create_producto st family_id name url in
  ∃ j p,
    deref (productos r.2) (productos_by_key r.2 !! (family_id, lower (strip name)))
    = Some (j, p)
    ∧ pro_id p = r.1
    ∧ (truthy url = true → truthy (pro_url p) = true)
    ∧ (length (productos r.2) ≤ S (length (productos st)))%nat.
Proof.
  intros r. subst r. unfold get_or_create_producto.
  destruct (deref (productos st) _) as [[i existing]|] eqn:E.
  - pose proof E as [Hidx Hi]%deref_Some.
    destruct (truthy url) eqn:Hu; simpl.
    + destruct (truthy (pro_url existing)) eqn:Hold; simpl.
      * exists i, existing. repeat split; try done. lia.
      * eexists i, _. split; [|split; [|split]].
        -- apply deref_Some. split; [done|]. simpl.
           apply list_lookup_insert_eq. by eapply lookup_lt_Some.
        -- done.
        -- done.
        -- simpl. rewrite length_insert. lia.
    + exists i, existing. repeat split; try done. lia.
  - simpl. eexists (length (productos st)), _. split; [|split; [|split]].
    + apply deref_Some. rewrite lookup_insert_eq. split; [done|].
      by rewrite lookup_app_r, Nat.sub_diag.
    + done.
    + done.
    + rewrite length_app. simpl. lia.
Qed.

(** X6.  A product that [get_or_create_producto] has returned is found
    again under any spelling with the same family and the same normalised
    name: the second call returns the same identifier and adds no product.
    It changes nothing at all unless it brings a URL to a product that had
    none; and once either call has brought a URL, the product has one. *)
Theorem get_or_create_producto_twice (st : JsonStore) (family_id : Z)
    (a b : str) (url1 url2 : option str) :
  lower (strip a) = lower (strip b) →
  let r1 := get_or_create_producto st family_id a url1 in
  let r2 := get_or_create_producto r1.2 family_id b url2 in
  r2.1 = r1.1
  ∧ length (productos r2.2) = length (productos r1.2)
  ∧ (length (productos r2.2) ≤ S (length (productos st)))%nat
  ∧ (truthy url1 = true ∨ truthy url2 = false → r2.2 = r1.2)
  ∧ ∃ j p, productos r2.2 !! j = Some p ∧ pro_id p = r1.1
           ∧ (truthy url1 = true ∨ truthy url2 = true →
              truthy (pro_url p) = true).
Proof.
  intros Hab r1 r2.
  destruct (get_or_create_producto_found st family_id a url1)
    as (j & p & Hd & Hid & Hurl & Hlen). fold r1 in Hd, Hid, Hlen.
  rewrite Hab in Hd.
  destruct (get_or_create_producto_hit r1.2 family_id b url2 j p Hd)
    as (H1 & H2 & _). fold r2 in H1, H2.
  pose proof Hd as [_ Hj]%deref_Some.
  assert (Hlen2 : length (productos r2.2) = length (productos r1.2))
    by (rewrite H2; apply length_insert).
  split; [congruence|]. split; [done|]. split; [lia|]. split.
  - intros Hcase.
    assert (Hc : truthy url2 && negb (truthy (pro_url p)) = false).
    { destruct Hcase as [Hu1| ->]; [|done].
      rewrite (Hurl Hu1). apply andb_false_r. }
    subst r2. unfold get_or_create_producto. by rewrite Hd, Hc.
  - eexists j, _. split; [|split].
    + rewrite H2. apply list_lookup_insert_eq. by eapply lookup_lt_Some.
    + done.
    + simpl. intros [Hu1|Hu2].
      * rewrite (Hurl Hu1). rewrite andb_false_r. by apply Hurl.
      * rewrite Hu2. simpl. by destruct (truthy (pro_url p)) eqn:Hp.
Qed.



(** ** Parsed rows *)

Lemma rows_of_snoc (trs : list node) (row : node) :
  rows_of (trs ++ [row]) = acc ← rows_of trs; parse_rows_step acc row.
Proof.
  unfold rows_of. rewrite for_each_app.
  destruct (for_each parse_rows_step trs _) as [acc|e]; [|done].
  cbn [mbind result_bind]. rewrite for_each_cons.
  by destruct (parse_rows_step acc row).
Qed.

(** What one turn of the loop does. *)
Lemma parse_rows_step_files (acc : str * list ParsedRow) (row : node) :
  parse_rows_step acc row
  = match files acc.1 row with
    | Some cell =>
        cuts ← parse_cuts row;
        Ok (acc.1, acc.2 ++ [parsed_row acc.1 row cell cuts])
    | None => Ok (default acc.1 (announced_family row), acc.2)
    end.
Proof.
  destruct acc as [current_family rows].
  unfold parse_rows_step, files, announced_family. cbn [fst snd].
  destruct (bool_decide (py "familias_subasta" ∈ get_classes row)).
  - by destruct (select_one td_fam row).
  - destruct (nonempty current_family); simpl.
    + by destruct (select_one td_pro row).
    + by destruct (select_one td_pro row).
Qed.

Lemma files_spec (family : str) (p cell : node) :
  files family p = Some cell
  ↔ (py "familias_subasta" ∉ get_classes p) ∧ select_one td_pro p = Some cell
    ∧ nonempty family = true.
Proof.
  unfold files. destruct (bool_decide _) eqn:Hh.
  - apply bool_decide_eq_true in Hh. split; [done | by intros [? _]].
  - apply bool_decide_eq_false in Hh.
    destruct (nonempty family); [|split; [done | by intros (_ & _ & ?)]].
    split; [done | by intros (_ & ? & _)].
Qed.

Lemma family_in_force_snoc (trs : list node) (row : node) :
  family_in_force (trs ++ [row])
  = default (family_in_force trs) (announced_family row).
Proof.
  unfold family_in_force. rewrite omap_app. simpl.
  destruct (announced_family row); simpl; [by rewrite last_snoc|].
  by rewrite app_nil_r.
Qed.

Lemma files_not_header (family : str) (p cell : node) :
  files family p = Some cell → announced_family p = None.
Proof.
  intros (Hh & _ & _)%files_spec. unfold announced_family.
  by rewrite bool_decide_eq_false_2.
Qed.

(** The rows filed out of [trs], when the loop completes, and the row that
    stops it when it does not. *)
Lemma rows_of_spec (trs : list node) :
  match rows_of trs with
  | Ok acc =>
      acc.1 = family_in_force trs
      ∧ (∀ r, r ∈ acc.2 ↔
           ∃ pre p post cell cuts,
             trs = pre ++ p :: post
             ∧ files (family_in_force pre) p = Some cell
             ∧ parse_cuts p = Ok cuts
             ∧ r = parsed_row (family_in_force pre) p cell cuts)
      ∧ (∀ pre p post cell,
           trs = pre ++ p :: post →
           files (family_in_force pre) p = Some cell →
           ∃ cuts, parse_cuts p = Ok cuts)
  | Raise e =>
      ∃ pre p post cell,
        trs = pre ++ p :: post
        ∧ files (family_in_force pre) p = Some cell
        ∧ parse_cuts p = Raise e
  end.
Proof.
  induction trs as [|row trs IH] using rev_ind.
  - simpl. split; [done|]. split.
    + intros r. split; [by intros ?%elem_of_nil|].
      intros (pre & p & post & cell & cuts & E & _). by destruct pre.
    + intros pre p post cell E. by destruct pre.
  - rewrite rows_of_snoc.
    destruct (rows_of trs) as [acc|e]; cbn [mbind result_bind].
    + destruct IH as (Hfam & Hrows & Hok).
      rewrite parse_rows_step_files, Hfam.
      assert (Hlast : ∀ pre (p : node) post,
                trs ++ [row] = pre ++ p :: post →
                (post = [] ∧ pre = trs ∧ p = row)
                ∨ ∃ post', post = post' ++ [row] ∧ trs = pre ++ p :: post').
      { intros pre p post E. destruct post as [|x post _] using rev_ind.
        - apply app_inj_tail in E as [-> ->]. by left.
        - right. exists post. rewrite app_comm_cons, app_assoc in E.
          by apply app_inj_tail in E as [-> ->]. }
      destruct (files (family_in_force trs) row) as [cell|] eqn:Hfiles.
      * destruct (parse_cuts row) as [cuts|e] eqn:Hcuts; cbn [mbind result_bind].
        -- cbn [fst snd]. split; [|split].
           ++ by rewrite family_in_force_snoc, (files_not_header _ _ _ Hfiles).
           ++ intros r. rewrite elem_of_app, Hrows, list_elem_of_singleton. split.
              ** intros [(pre & p & post & c & cs & -> & H1 & H2 & H3)| ->].
                 --- exists pre, p, (post ++ [row]), c, cs.
                     by rewrite <- app_assoc.
                 --- by exists trs, row, [], cell, cuts.
              ** intros (pre & p & post & c & cs & E & H1 & H2 & H3).
                 destruct (Hlast _ _ _ E) as [(-> & -> & ->)|(post' & -> & ->)].
                 --- right. congruence.
                 --- left. by exists pre, p, post', c, cs.
           ++ intros pre p post c E H1.
              destruct (Hlast _ _ _ E) as [(-> & -> & ->)|(post' & -> & ->)].
              ** eauto.
              ** by eapply Hok.
        -- by exists trs, row, [], cell.
      * cbn [fst snd]. split; [|split].
        -- by rewrite family_in_force_snoc.
        -- intros r. rewrite Hrows. split.
           ++ intros (pre & p & post & c & cs & -> & H1 & H2 & H3).
              exists pre, p, (post ++ [row]), c, cs. by rewrite <- app_assoc.
           ++ intros (pre & p & post & c & cs & E & H1 & H2 & H3).
              destruct (Hlast _ _ _ E) as [(-> & -> & ->)|(post' & -> & ->)].
              ** congruence.
              ** by exists pre, p, post', c, cs.
        -- intros pre p post c E H1.
           destruct (Hlast _ _ _ E) as [(-> & -> & ->)|(post' & -> & ->)].
           ++ congruence.
           ++ by eapply Hok.
    + destruct IH as (pre & p & post & cell & -> & H1 & H2).
      exists pre, p, (post ++ [row]), cell. by rewrite <- app_assoc.
Qed.

(** X7.  When [parse_rows] returns, the rows it returns are exactly those
    made of the product rows of the products table that come after a header
    announcing a family with a non-empty name: each returned row stems from
    a [tr] that is not a family header and has a product cell, and carries
    the family in force before that [tr], which is never empty, and the
    cuts of that [tr]; and every such [tr] gives a returned row.  It returns
    exactly when the cuts of every such [tr] can be read, and raises what
    [parse_cuts] raises otherwise. *)
Theorem parse_rows_characterised (soup : node) :
  (∀ rows, parse_rows soup = Ok rows →
     ∀ r, r ∈ rows ↔
       ∃ table pre p post cell cuts,
         select_one table_tab_pre_pro soup = Some table
         ∧ select sel_tr table = pre ++ p :: post
         ∧ (py "familias_subasta" ∉ get_classes p)
         ∧ select_one td_pro p = Some cell
         ∧ nonempty (family_in_force pre) = true
         ∧ parse_cuts p = Ok cuts
         ∧ r = {| family_name := family_in_force pre;
                  product_name := get_text (py " ") cell;
                  product_url := parse_product_url p;
                  cuts := cuts |})
  ∧ ((∃ rows, parse_rows soup = Ok rows) ↔
     ∀ table pre p post cell,
       select_one table_tab_pre_pro soup = Some table →
       select sel_tr table = pre ++ p :: post →
       py "familias_subasta" ∉ get_classes p →
       select_one td_pro p = Some cell →
       nonempty (family_in_force pre) = true →
       ∃ cuts, parse_cuts p = Ok cuts).
Proof.
  unfold parse_rows. destruct (select_one table_tab_pre_pro soup) as [table|].
  - pose proof (rows_of_spec (select sel_tr table)) as Hspec.
    destruct (rows_of (select sel_tr table)) as [acc|e]; cbn [mbind result_bind].
    + destruct Hspec as (_ & Hrows & Hok). split.
      * intros rows [= <-] r. rewrite Hrows. split.
        -- intros (pre & p & post & cell & cuts & E & (H1 & H2 & H3)%files_spec
                   & H4 & H5).
           by exists table, pre, p, post, cell, cuts.
        -- intros (table' & pre & p & post & cell & cuts & [= <-] & E & H1 & H2
                   & H3 & H4 & H5).
           exists pre, p, post, cell, cuts. split; [done|].
           split; [by apply files_spec|]. done.
      * split; [|eauto]. intros _ table' pre p post cell [= <-] E H1 H2 H3.
        apply (Hok pre p post cell E). by apply files_spec.
    + destruct Hspec as (pre & p & post & cell & E & (H1 & H2 & H3)%files_spec
                         & Hraise).
      split; [done|]. split; [by intros [? ?]|]. intros Hall.
      destruct (Hall table pre p post cell eq_refl E H1 H2 H3) as [cuts Hc].
      congruence.
  - split.
    + intros rows [= <-] r. split; [by intros ?%elem_of_nil|].
      by intros (? & ? & ? & ? & ? & ? & ? & _).
    + split; [done | eauto].
Qed.

(** ** Prices are never negative *)

Lemma written_number_nonneg (s : str) :
  forallb is_0_9 s = true → 0 ≤ written_number s.
Proof.
  induction s as [|c s IH]; [done|]. simpl.
  intros [Hc Hs]%andb_true_iff. specialize (IH Hs).
  apply andb_true_iff in Hc as [?%Z.leb_le ?%Z.leb_le].
  assert (0 ≤ 10 ^ Z.of_nat (length s)) by (apply Z.pow_nonneg; lia). nia.
Qed.

(** X8.  Every price [parse_cuts] reads is non-negative: only the digits
    of a cell count, so a sign in the cell is dropped. *)
Theorem parse_cuts_nonneg (row : node) (values : list (option Z)) (v : Z) :
  parse_cuts row = Ok values → Some v ∈ values → 0 ≤ v.
Proof.
  unfold parse_cuts. rewrite for_each_parse_cuts_step.
  destruct (forallb _ _); [|done]. intros [= <-]. simpl.
  intros (cell & Hv & _)%list_elem_of_fmap. unfold cut_of_text in Hv.
  destruct (bool_decide _); [done|]. injection Hv as ->.
  apply written_number_nonneg. rewrite <- only_digits_digit_characters.
  apply only_digits_0_9.
Qed.

(** ** Regular expressions and the product link *)

Lemma expect_app (p s rest : str) : expect p s = Some rest ↔ s = p ++ rest.
Proof.
  revert s. induction p as [|a p IH]; intros s; simpl.
  - split; [by intros [= ->] | by intros ->].
  - destruct s as [|b s]; [split; discriminate|].
    destruct (decide (a = b)) as [->|Hne].
    + rewrite bool_decide_eq_true_2, IH by done. split; [by intros ->|].
      by intros [= ?].
    + rewrite bool_decide_eq_false_2 by done. split; [discriminate|].
      by intros [= ? _].
Qed.

Lemma search_found {A} (match_at : str → option A) (s : str) (r : A) :
  search match_at s = Some r →
  ∃ pre suf, s = pre ++ suf ∧ match_at suf = Some r.
Proof.
  induction s as [|c s IH]; simpl.
  - destruct (match_at []) eqn:E; [|discriminate]. intros [= <-]. by exists [], [].
  - destruct (match_at (c :: s)) eqn:E.
    + intros [= <-]. by exists [], (c :: s).
    + intros (pre & suf & -> & Hm)%IH. by exists (c :: pre), suf.
Qed.

Lemma search_here {A} (match_at : str → option A) (s : str) (r : A) :
  match_at s = Some r → search match_at s = Some r.
Proof. intros Hm. destruct s; simpl; by rewrite Hm. Qed.

(** [search] steps over a prefix at no position of which the pattern starts. *)
Lemma search_skip {A} (match_at : str → option A) (pre s : str) :
  (∀ a t u, pre = t ++ a :: u → match_at (a :: u ++ s) = None) →
  search match_at (pre ++ s) = search match_at s.
Proof.
  induction pre as [|c pre IH]; intros Hpre; [done|].
  simpl. rewrite (Hpre c [] pre) by done. apply IH.
  intros a t u ->. by apply (Hpre a (c :: t) u).
Qed.

Lemma lstrip_split (s : str) :
  ∃ ws, s = ws ++ lstrip s ∧ all_chars isspace ws = true.
Proof.
  induction s as [|c s (ws & E & Hws)]; [by exists []|].
  simpl. destruct (isspace c) eqn:Hc.
  - exists (c :: ws). split; [|simpl; by rewrite Hc].
    rewrite E at 1. reflexivity.
  - by exists [].
Qed.


Lemma lstrip_spaces (ws s : str) :
  all_chars isspace ws = true → lstrip (ws ++ s) = lstrip s.
Proof.
  induction ws as [|c ws IH]; [done|]. simpl.
  intros [-> Hws]%andb_true_iff. by apply IH.
Qed.

Lemma until_quote_split (s : str) :
  s = (until_quote s).1 ++ (until_quote s).2
  ∧ all_chars not_quote (until_quote s).1 = true.
Proof.
  induction s as [|c s [E Hq]]; [done|]. simpl.
  destruct (c =? 39) eqn:Hc; [done|].
  destruct (until_quote s) as [run rest]. simpl in *.
  split; [by rewrite E at 1|].
  unfold not_quote at 1. by rewrite Hc.
Qed.

Lemma until_quote_run (url rest : str) :
  all_chars not_quote url = true →
  until_quote (url ++ 39 :: rest) = (url, 39 :: rest).
Proof.
  induction url as [|c url IH]; [done|]. simpl.
  intros [Hc Hu]%andb_true_iff. unfold not_quote in Hc.
  apply negb_true_iff in Hc. rewrite Hc, (IH Hu). done.
Qed.

(** What [location_pattern] accepts, and what it then returns. *)
Lemma location_pattern_spec (s url : str) :
  location_pattern s = Some url ↔
  ∃ ws1 ws2 post,
    s = py "window.location" ++ ws1 ++ py "=" ++ ws2 ++ py "'" ++ url
        ++ py "'" ++ post
    ∧ all_chars isspace ws1 = true ∧ all_chars isspace ws2 = true
    ∧ nonempty url = true ∧ all_chars not_quote url = true.
Proof.
  unfold location_pattern. split.
  - intros (s1 & E1 & (s2 & E2 & (s3 & E3 & Hm)%bind_Some)%bind_Some)%bind_Some.
    destruct (until_quote_split s3) as [E4 Hq].
    destruct (until_quote s3) as [run rest]. simpl in E4, Hq.
    destruct (nonempty run) eqn:Hn; [|done].
    apply bind_Some in Hm as (post & E5 & [= <-]).
    apply expect_app in E1, E2, E3, E5.
    destruct (lstrip_split s1) as (ws1 & F1 & H1).
    destruct (lstrip_split s2) as (ws2 & F2 & H2).
    exists ws1, ws2, post. split; [|done].
    rewrite E1, F1, E2, F2, E3, E4, E5. reflexivity.
  - intros (ws1 & ws2 & post & -> & H1 & H2 & Hn & Hq).
    rewrite (proj2 (expect_app (py "window.location") _ _) eq_refl).
    cbn [mbind option_bind]. rewrite (lstrip_spaces ws1) by done.
    match goal with
    | |- context [expect (py "=") (lstrip (py "=" ++ ?x))] =>
        change (expect (py "=") (lstrip (py "=" ++ x))) with (Some x)
    end.
    cbn [mbind option_bind]. rewrite (lstrip_spaces ws2) by done.
    match goal with
    | |- context [expect (py "'") (lstrip (py "'" ++ ?x))] =>
        change (expect (py "'") (lstrip (py "'" ++ x))) with (Some x)
    end.
    cbn [mbind option_bind].
    change (py "'" ++ post) with (39 :: post).
    rewrite (until_quote_run url post Hq), Hn. reflexivity.
Qed.

Lemma all_chars_app (test : char → bool) (a b : str) :
  all_chars test (a ++ b) = all_chars test a && all_chars test b.
Proof. apply forallb_app. Qed.

Lemma location_pattern_not_w (a : char) (t : str) :
  not_w a = true → location_pattern (a :: t) = None.
Proof.
  unfold not_w. intros Ha%negb_true_iff%Z.eqb_neq.
  unfold location_pattern.
  assert (expect (py "window.location") (a :: t) = None) as ->; [|done].
  change (py "window.location") with (119 :: py "indow.location").
  cbn [expect]. rewrite bool_decide_eq_false_2; [done|]. congruence.
Qed.

(** X9.  A link [parse_product_url] returns was written in the row's
    [onclick] attribute as [window.location = '...'], with optional white
    space around the equals sign; it is what stands between the quotes, it
    is not empty and it holds no quote. *)
Theorem parse_product_url_sound (row : node) (url : str) :
  parse_product_url row = Some url →
  nonempty url = true ∧ all_chars not_quote url = true
  ∧ ∃ pre ws1 ws2 post,
      get_attr row (py "onclick") []
      = pre ++ py "window.location" ++ ws1 ++ py "=" ++ ws2
            ++ py "'" ++ url ++ py "'" ++ post
      ∧ all_chars isspace ws1 = true ∧ all_chars isspace ws2 = true.
Proof.
  unfold parse_product_url. destruct (nonempty _); [|done].
  intros (pre & suf & E & (ws1 & ws2 & post & -> & H1 & H2 & Hn & Hq)
            %location_pattern_spec)%search_found.
  split; [done|]. split; [done|]. by exists pre, ws1, ws2, post.
Qed.

(** X10.  A row whose [onclick] attribute reads [window.location='u'],
    with any white space around the equals sign, after a prefix without the
    letter w (such as [javascript:]) and before anything, gives the link
    [u], provided [u] is not empty and holds no quote. *)
Theorem parse_product_url_recognises (row : node) (pre ws1 ws2 url post : str) :
  get_attr row (py "onclick") []
  = pre ++ py "window.location" ++ ws1 ++ py "=" ++ ws2
        ++ py "'" ++ url ++ py "'" ++ post →
  all_chars not_w pre = true →
  all_chars isspace ws1 = true → all_chars isspace ws2 = true →
  nonempty url = true → all_chars not_quote url = true →
  parse_product_url row = Some url.
Proof.
  intros E Hpre H1 H2 Hn Hq.
  unfold parse_product_url. rewrite E.
  assert (nonempty (pre ++ py "window.location" ++ ws1 ++ py "=" ++ ws2
                        ++ py "'" ++ url ++ py "'" ++ post) = true) as ->
    by (by destruct pre).
  rewrite search_skip.
  - apply search_here, location_pattern_spec. by exists ws1, ws2, post.
  - intros a t u ->. rewrite all_chars_app in Hpre.
    apply andb_true_iff in Hpre as [_ [Ha _]%andb_true_iff].
    by apply location_pattern_not_w.
Qed.

(** ** The auction's name *)






(** ** Numerals *)

Lemma pretty_N_char_digit (r : N) :
  (r < 10)%N →
  is_0_9 (code (pretty_N_char r)) = true
  ∧ default 0 (decimal (code (pretty_N_char r))) = Z.of_N r.
Proof.
  intros Hr.
  assert (r = 0 ∨ r = 1 ∨ r = 2 ∨ r = 3 ∨ r = 4 ∨ r = 5 ∨ r = 6 ∨ r = 7
          ∨ r = 8 ∨ r = 9)%N as Hcases by lia.
  repeat destruct Hcases as [->|Hcases]; try subst r; by vm_compute.
Qed.

Lemma bytes_cons (c : ascii) (s : string) : bytes (String c s) = code c :: bytes s.
Proof. reflexivity. Qed.

Lemma int_acc_cons (acc : Z) (c : char) (s : str) :
  int_acc acc (c :: s) = int_acc (10 * acc + default 0 (decimal c)) s.
Proof. reflexivity. Qed.

Lemma int_acc_horner (s : str) : int_acc 0 s = horner (values s).
Proof. reflexivity. Qed.

(** Reading a printed number gives the number back. *)
Lemma int_acc_pretty_N_go (x : N) (s : string) :
  int_acc 0 (bytes (pretty_N_go x s)) = int_acc (Z.of_N x) (bytes s).
Proof.
  revert s. induction (N.lt_wf_0 x) as [x _ IH]; intros s.
  destruct (decide (x = 0)%N) as [->|Hx]; [by rewrite pretty_N_go_0|].
  rewrite pretty_N_go_step by lia.
  rewrite IH by (apply N.div_lt; lia). rewrite bytes_cons, int_acc_cons.
  destruct (pretty_N_char_digit (x `mod` 10)) as [_ ->];
    [apply N.mod_lt; lia|].
  f_equal. rewrite (N.div_mod x 10) at 3 by lia. lia.
Qed.

Lemma all_digits_pretty_N_go (x : N) (s : string) :
  forallb is_0_9 (bytes s) = true →
  forallb is_0_9 (bytes (pretty_N_go x s)) = true.
Proof.
  revert s. induction (N.lt_wf_0 x) as [x _ IH]; intros s Hs.
  destruct (decide (x = 0)%N) as [->|Hx]; [by rewrite pretty_N_go_0|].
  rewrite pretty_N_go_step by lia. apply IH; [apply N.div_lt; lia|].
  rewrite bytes_cons. cbn [forallb].
  destruct (pretty_N_char_digit (x `mod` 10)) as [-> _];
    [apply N.mod_lt; lia | done].
Qed.

Lemma length_pretty_N_go (w : nat) (x : N) (s : string) :
  (x < 10 ^ N.of_nat w)%N →
  (length (bytes (pretty_N_go x s)) ≤ w + length (bytes s))%nat.
Proof.
  revert x s. induction w as [|w IH]; intros x s Hx.
  - assert (x = 0%N) as -> by (simpl in Hx; lia). by rewrite pretty_N_go_0.
  - destruct (decide (x = 0)%N) as [->|Hx0]; [rewrite pretty_N_go_0; lia|].
    rewrite pretty_N_go_step by lia.
    etrans; [apply IH|rewrite bytes_cons; simpl; lia].
    apply N.Div0.div_lt_upper_bound.
    rewrite Nat2N.inj_succ, N.pow_succ_r' in Hx. lia.
Qed.

Lemma nonempty_pretty_N_go (x : N) (s : string) :
  (0 < x)%N → bytes (pretty_N_go x s) ≠ [].
Proof.
  revert s. induction (N.lt_wf_0 x) as [x _ IH]; intros s Hx.
  rewrite pretty_N_go_step by done.
  destruct (decide (x `div` 10 = 0)%N) as [E|Hd].
  - by rewrite E, pretty_N_go_0.
  - apply IH; [apply N.div_lt; lia | by apply N.neq_0_lt_0].
Qed.

(** The decimal digits of a number that is not negative: they are
    digits, there is at least one, they write the number, and they are not
    more than the size of the number asks for. *)
Lemma str_of_int_nonneg (n : Z) :
  0 ≤ n →
  forallb is_0_9 (str_of_int n) = true
  ∧ str_of_int n ≠ []
  ∧ horner (values (str_of_int n)) = n
  ∧ ∀ w : nat, n < 10 ^ Z.of_nat w → 0 < Z.of_nat w →
               (length (str_of_int n) ≤ w)%nat.
Proof.
  intros Hn. unfold str_of_int. destruct n as [|p|p]; [|clear Hn|lia].
  - split; [done|]. split; [done|]. split; [done|]. intros w _ Hw. simpl. lia.
  - change (pretty (Z.pos p)) with (pretty_N_go (N.pos p) "").
    split; [|split; [|split]].
    + by apply all_digits_pretty_N_go.
    + by apply nonempty_pretty_N_go.
    + by rewrite <- int_acc_horner, int_acc_pretty_N_go.
    + intros w Hw _. pose proof (length_pretty_N_go w (N.pos p) "") as Hl.
      simpl in Hl. rewrite Nat.add_0_r in Hl. apply Hl.
      apply N2Z.inj_lt. rewrite N2Z.inj_pow, nat_N_Z. simpl. lia.
Qed.

Lemma written_number_zeros (k : nat) (s : str) :
  written_number (replicate k 48 ++ s) = written_number s.
Proof. induction k as [|k IH]; [done|]. simpl. rewrite IH. lia. Qed.

Lemma all_digits_zeros (k : nat) : forallb is_0_9 (replicate k 48) = true.
Proof. induction k as [|k IH]; [done | exact IH]. Qed.

Lemma written_number_bound (s : str) :
  forallb is_0_9 s = true → 0 ≤ written_number s < 10 ^ Z.of_nat (length s).
Proof.
  induction s as [|c s IH]; [simpl; lia|]. cbn [forallb length written_number].
  intros [Hc Hs]%andb_true_iff. specialize (IH Hs).
  apply andb_true_iff in Hc as [?%Z.leb_le ?%Z.leb_le].
  rewrite Nat2Z.inj_succ, Z.pow_succ_r by lia. nia.
Qed.

(** A number below [10 ^ w] is printed on exactly [w] digits, which write
    the number. *)
Lemma zero_padded_spec (w : nat) (n : Z) :
  0 ≤ n < 10 ^ Z.of_nat w → 0 < Z.of_nat w →
  length (zero_padded w n) = w
  ∧ forallb is_0_9 (zero_padded w n) = true
  ∧ written_number (zero_padded w n) = n.
Proof.
  intros [Hn Hw] Hpos.
  destruct (str_of_int_nonneg n Hn) as (Hdig & _ & Hint & Hlen).
  specialize (Hlen w Hw Hpos). unfold zero_padded. split; [|split].
  - rewrite length_app, length_replicate. lia.
  - by rewrite forallb_app, all_digits_zeros, Hdig.
  - by rewrite written_number_zeros, <- horner_written.
Qed.

(** From 1000 on, the year is printed on four digits. *)
Lemma str_of_int_year (y : Z) :
  1000 ≤ y ≤ 9999 → str_of_int y = zero_padded 4 y.
Proof.
  intros Hy. destruct (str_of_int_nonneg y) as (Hdig & _ & Hint & Hlen); [lia|].
  specialize (Hlen 4%nat). rewrite horner_written in Hint by done.
  pose proof (written_number_bound _ Hdig) as Hb. rewrite Hint in Hb.
  assert (length (str_of_int y) = 4%nat) as Hl.
  { assert (length (str_of_int y) ≤ 4)%nat by (apply Hlen; simpl; lia).
    destruct (length (str_of_int y)) as [|[|[|[|[|k]]]]]; simpl in *; lia. }
  unfold zero_padded. by rewrite Hl.
Qed.

Lemma digits_exact (d rest : str) :
  forallb is_0_9 d = true →
  digits (length d) (d ++ rest) = Some (d, rest).
Proof.
  induction d as [|c d IH]; simpl.
  - by destruct rest.
  - intros [Hc Hd]%andb_true_iff. by rewrite (isdecimal_0_9 c Hc), (IH Hd).
Qed.

(** [int] on a short run of the digits 0 to 9. *)
Lemma int_short (s : str) :
  forallb is_0_9 s = true → (0 < length s ≤ 4300)%nat →
  int s = Ok (written_number s).
Proof.
  intros Hs Hl. rewrite int_0_9; [|by destruct s; simpl in *; [lia|]|done].
  unfold int_max_str_digits.
  destruct (Nat.ltb_spec 4300 (length s)); [lia | done].
Qed.

(** ** Dates *)

Lemma is_date_bounds (d : date) :
  is_date d → 1 ≤ year d ≤ 9999 ∧ 1 ≤ month d ≤ 12 ∧ 1 ≤ day d ≤ 31.
Proof.
  unfold is_date, valid_date, days_in_month.
  intros Hd. repeat (apply andb_true_iff in Hd as [Hd ?]).
  repeat match goal with
         | H : (_ <=? _) = true |- _ => apply Z.leb_le in H
         end.
  split; [lia|]. split; [lia|]. split; [lia|].
  repeat case_match; lia.
Qed.

Lemma date_fields (d : date) :
  is_date d →
  let Y := zero_padded 4 (year d) in
  let M := zero_padded 2 (month d) in
  let D := zero_padded 2 (day d) in
  (length Y = 4%nat ∧ forallb is_0_9 Y = true ∧ int Y = Ok (year d))
  ∧ (length M = 2%nat ∧ forallb is_0_9 M = true ∧ int M = Ok (month d))
  ∧ (length D = 2%nat ∧ forallb is_0_9 D = true ∧ int D = Ok (day d)).
Proof.
  intros (Hy & Hm & Hd)%is_date_bounds. cbn zeta.
  assert (Hf : ∀ (w : nat) n, 0 ≤ n < 10 ^ Z.of_nat w → (0 < w ≤ 4300)%nat →
            length (zero_padded w n) = w
            ∧ forallb is_0_9 (zero_padded w n) = true
            ∧ int (zero_padded w n) = Ok n).
  { intros w n Hn Hw. destruct (zero_padded_spec w n Hn) as (L & D & W); [lia|].
    split; [done|]. split; [done|]. rewrite int_short, W; [done..|lia]. }
  split; [|split]; apply Hf; simpl; lia.
Qed.

(** X12.  [date_to_iso] tells dates apart: two different dates never get
    the same text, so prices of different days never share a key.  From
    year 1000 on the text has ten characters. *)
Theorem date_to_iso_injective (d1 d2 : date) :
  is_date d1 → is_date d2 →
  (date_to_iso d1 = date_to_iso d2 → d1 = d2)
  ∧ (1000 ≤ year d1 → length (date_to_iso d1) = 10%nat).
Proof.
  intros H1 H2.
  destruct (date_fields d1 H1) as (_ & (Lm1 & Dm1 & Im1) & (Ld1 & Dd1 & Id1)).
  destruct (date_fields d2 H2) as (_ & (Lm2 & Dm2 & Im2) & (Ld2 & Dd2 & Id2)).
  destruct (is_date_bounds d1 H1) as (Hy1 & _).
  destruct (is_date_bounds d2 H2) as (Hy2 & _).
  unfold date_to_iso. split.
  - intros E.
    assert (Hlen : length (str_of_int (year d1)) = length (str_of_int (year d2))).
    { apply (f_equal length) in E. rewrite !length_app, Lm1, Lm2, Ld1, Ld2 in E.
      lia. }
    apply app_inj_1 in E as [Ey E]; [|done].
    apply (app_inj_1 (py "-") (py "-")) in E as [_ E]; [|done].
    apply app_inj_1 in E as [Em E]; [|congruence].
    apply (app_inj_1 (py "-") (py "-")) in E as [_ Ed]; [|done].
    assert (year d1 = year d2).
    { destruct (str_of_int_nonneg (year d1)) as (_ & _ & <- & _); [lia|].
      destruct (str_of_int_nonneg (year d2)) as (_ & _ & <- & _); [lia|].
      by rewrite Ey. }
    destruct d1 as [y1 m1 a1], d2 as [y2 m2 a2]. simpl in *.
    f_equal; congruence.
  - intros Hy. rewrite str_of_int_year by lia.
    destruct (date_fields d1 H1) as ((Ly & _) & _).
    rewrite !length_app, Ly, Lm1, Ld1. reflexivity.
Qed.

Lemma date_pattern_not_digit (a : char) (t : str) :
  not_digit a = true → date_pattern (a :: t) = None.
Proof.
  unfold not_digit. intros Ha%negb_true_iff. unfold date_pattern.
  simpl. by rewrite Ha.
Qed.

Lemma date_pattern_exact (D M Y post : str) :
  length D = 2%nat → length M = 2%nat → length Y = 4%nat →
  forallb is_0_9 D = true → forallb is_0_9 M = true →
  forallb is_0_9 Y = true →
  date_pattern (D ++ py "-" ++ M ++ py "-" ++ Y ++ post) = Some (D, M, Y).
Proof.
  intros LD LM LY HD HM HY. unfold date_pattern.
  rewrite <- LD at 1. rewrite (digits_exact D _ HD). cbn [mbind option_bind].
  rewrite (proj2 (expect_app (py "-") (py "-" ++ _) _) eq_refl).
  cbn [mbind option_bind].
  rewrite <- LM at 1. rewrite (digits_exact M _ HM). cbn [mbind option_bind].
  rewrite (proj2 (expect_app (py "-") (py "-" ++ _) _) eq_refl).
  cbn [mbind option_bind].
  rewrite <- LY at 1. by rewrite (digits_exact Y _ HY).
Qed.

(** X13.  A date shown in the title cell is read back: when the text of
    the title cell is the date written day-month-year on 2, 2 and 4 digits,
    after any text without digits and before any text, [extract_table_date]
    returns that date, and the price records are dated with its ISO form,
    whatever the fallback. *)
Theorem extract_table_date_reads_shown_date (soup cell : node) (d fallback : date)
    (pre post : str) :
  is_date d →
  select_one (title_cell_sel (py "titNombreder")) soup = Some cell →
  get_text (py " ") cell
  = pre ++ zero_padded 2 (day d) ++ py "-" ++ zero_padded 2 (month d)
        ++ py "-" ++ zero_padded 4 (year d) ++ post →
  all_chars not_digit pre = true →
  extract_table_date soup fallback = Ok d.
Proof.
  intros Hd Hcell Htext Hpre.
  destruct (date_fields d Hd) as ((Ly & Dy & Iy) & (Lm & Dm & Im) & (Ld & Dd & Id)).
  unfold extract_table_date. rewrite Hcell, Htext.
  rewrite search_skip.
  - rewrite (search_here _ _ (zero_padded 2 (day d), zero_padded 2 (month d),
                              zero_padded 4 (year d)))
      by by apply date_pattern_exact.
    rewrite Iy, Im, Id. cbn [mbind result_bind].
    unfold date_of. rewrite Hd. by destruct d.
  - intros a t u ->. rewrite all_chars_app in Hpre.
    apply andb_true_iff in Hpre as [_ [Ha _]%andb_true_iff].
    by apply date_pattern_not_digit.
Qed.

(** ** The date given on the command line *)

Lemma in_range (P : Z → Prop) (lo : Z) (len : Z) :
  Forall P (seqZ lo len) → ∀ n, lo ≤ n < lo + len → P n.
Proof.
  intros HP n Hn. by apply (proj1 (Forall_forall _ _) HP), elem_of_seqZ.
Qed.

Lemma re_day_padded (n : Z) (rest : str) :
  1 ≤ n ≤ 31 →
  ∃ others, re_day (zero_padded 2 n ++ rest) = (zero_padded 2 n, rest) :: others.
Proof.
  intros Hn. revert rest.
  apply (in_range (λ n, ∀ rest, ∃ others,
           re_day (zero_padded 2 n ++ rest) = (zero_padded 2 n, rest) :: others)
           1 31); [|lia].
  let l := eval vm_compute in (seqZ 1 31) in change (seqZ 1 31) with l.
  repeat constructor; intros rest; eexists; reflexivity.
Qed.

Lemma re_month_padded (n : Z) (rest : str) :
  1 ≤ n ≤ 12 →
  ∃ others,
    re_month (zero_padded 2 n ++ rest) = (zero_padded 2 n, rest) :: others.
Proof.
  intros Hn. revert rest.
  apply (in_range (λ n, ∀ rest, ∃ others,
           re_month (zero_padded 2 n ++ rest) = (zero_padded 2 n, rest) :: others)
           1 12); [|lia].
  let l := eval vm_compute in (seqZ 1 12) in change (seqZ 1 12) with l.
  repeat constructor; intros rest; eexists; reflexivity.
Qed.

(** X14.  The date format of the command line and the one sent to the
    site agree: from year 1000 on, which is printed on four digits,
    [parse_input_date] reads back every date that [date_to_php_format]
    writes, and refuses the same text with anything after it.  Without an
    argument it returns today's date. *)
Theorem parse_input_date_reads_php_format (today d : date) :
  is_date d → 1000 ≤ year d →
  parse_input_date today (Some (date_to_php_format d)) = Ok d
  ∧ (∀ c more, parse_input_date today
                 (Some (date_to_php_format d ++ c :: more))
               = Raise ValueError)
  ∧ parse_input_date today None = Ok today.
Proof.
  intros Hd Hyear.
  destruct (date_fields d Hd) as ((Ly & Dy & Iy) & (Lm & Dm & Im) & (Ld & Dd & Id)).
  destruct (is_date_bounds d Hd) as (Hy & Hm & Hday).
  assert (Hparse : ∀ tail,
    first_of (re_day (date_to_php_format d ++ tail)) (λ '(d, s1),
      s2 ← expect (py "/") s1;
      first_of (re_month s2) (λ '(m, s3),
        s4 ← expect (py "/") s3;
        '(y, rest) ← digits 4 s4;
        Some (d, m, y, rest)))
    = Some (zero_padded 2 (day d), zero_padded 2 (month d),
            zero_padded 4 (year d), tail)).
  { intros tail. unfold date_to_php_format.
    rewrite str_of_int_year by lia. rewrite <- !app_assoc.
    destruct (re_day_padded (day d)
                (py "/" ++ zero_padded 2 (month d)
                   ++ py "/" ++ zero_padded 4 (year d) ++ tail) Hday)
      as [others1 ->].
    cbn [first_of].
    rewrite (proj2 (expect_app (py "/") (py "/" ++ _) _) eq_refl).
    cbn [mbind option_bind].
    destruct (re_month_padded (month d)
                (py "/" ++ zero_padded 4 (year d) ++ tail) Hm)
      as [others2 ->].
    cbn [first_of].
    rewrite (proj2 (expect_app (py "/") (py "/" ++ _) _) eq_refl).
    cbn [mbind option_bind].
    rewrite <- Ly at 1. rewrite (digits_exact _ _ Dy). reflexivity. }
  split; [|split; [|done]].
  - unfold parse_input_date, strptime_dmy.
    rewrite <- (app_nil_r (date_to_php_format d)) at 1.
    rewrite Hparse. cbn [nonempty]. rewrite Iy, Im, Id. cbn [mbind result_bind].
    unfold date_of. rewrite Hd. by destruct d.
  - intros c more. unfold parse_input_date, strptime_dmy. by rewrite Hparse.
Qed.
(** ** What a run does to the store *)

Lemma reaches_refl (st : JsonStore) : reaches st st.
Proof. by exists []. Qed.

Lemma reaches_trans (a b c : JsonStore) : reaches a b → reaches b c → reaches a c.
Proof.
  intros [l1 ->] [l2 ->]. exists (l1 ++ l2). by rewrite fold_left_app.
Qed.

Lemma reaches_perform (st : JsonStore) (c : call) : reaches st (perform st c).
Proof. by exists [c]. Qed.

Lemma accounted_refl (acc : JsonStore * Z) : accounted acc acc.
Proof. split; [apply reaches_refl|]. split; [lia | done]. Qed.

Lemma accounted_trans (a b c : JsonStore * Z) :
  accounted a b → accounted b c → accounted a c.
Proof.
  intros (R1 & L1 & E1) (R2 & L2 & E2).
  split; [by eapply reaches_trans|]. split; lia.
Qed.

Lemma fold_left_accounted {A} (f : JsonStore * Z → A → JsonStore * Z)
    (xs : list A) (acc : JsonStore * Z) :
  (∀ acc x, accounted acc (f acc x)) → accounted acc (fold_left f xs acc).
Proof.
  intros Hf. revert acc. induction xs as [|x xs IH]; intros acc; simpl.
  - apply accounted_refl.
  - eapply accounted_trans; [apply Hf | apply IH].
Qed.

Lemma insert_cut_accounted (subasta_id : Z) (fecha_iso : str) (producto_id : Z)
    (acc : JsonStore * Z) (cut : Z * option Z) :
  accounted acc (insert_cut subasta_id fecha_iso producto_id acc cut).
Proof.
  destruct acc as [st inserted], cut as [cut_index [p|]]; simpl;
    [|apply accounted_refl].
  pose proof (reaches_perform st
                (InsertPrecio subasta_id fecha_iso producto_id cut_index p)) as Hr.
  simpl in Hr. revert Hr. unfold insert_precio.
  destruct (decide _); simpl; intros Hr; (split; [exact Hr|]); simpl.
  - split; lia.
  - rewrite length_app. simpl. split; lia.
Qed.

Lemma store_row_accounted (subasta_id : Z) (fecha_iso : str)
    (acc : JsonStore * Z) (row : ParsedRow) :
  accounted acc (store_row subasta_id fecha_iso acc row).
Proof.
  destruct acc as [st inserted]. unfold store_row.
  pose proof (reaches_perform st (GetOrCreateFamilia (family_name row))) as R1.
  pose proof (precios_perform st (GetOrCreateFamilia (family_name row))) as P1.
  simpl in R1, P1.
  destruct (get_or_create_familia st (family_name row)) as [family_id st1].
  pose proof (reaches_perform st1
                (GetOrCreateProducto family_id (product_name row)
                                     (product_url row))) as R2.
  pose proof (precios_perform st1
                (GetOrCreateProducto family_id (product_name row)
                                     (product_url row))) as P2.
  simpl in R2, P2.
  destruct (get_or_create_producto st1 family_id (product_name row)
              (product_url row)) as [product_id st2].
  simpl in *.
  eapply accounted_trans;
    [|apply fold_left_accounted; intros; apply insert_cut_accounted].
  split; [by eapply reaches_trans|]. simpl. split; [lia | congruence].
Qed.

Lemma for_each_advanced {A} (body : run_state → A → result run_state)
    (n : Z) (xs : list A) (rs rs' : run_state) :
  (∀ rs x rs', body rs x = Ok rs' → advanced n rs rs') →
  for_each body xs rs = Ok rs' →
  advanced (n * Z.of_nat (length xs)) rs rs'.
Proof.
  intros Hbody. revert rs. induction xs as [|x xs IH]; intros rs; simpl.
  - intros [= <-]. split; [apply accounted_refl | lia].
  - destruct (body rs x) as [rs1|] eqn:E; simpl; [|done].
    intros Hrest. destruct (Hbody _ _ _ E) as [A1 Q1].
    destruct (IH _ Hrest) as [A2 Q2].
    split; [by eapply accounted_trans | lia].
Qed.

Section RunFacts.
Variable fetch_auction_html : Z → date → option str.
Variable BeautifulSoup : str → node.

Lemma visit_advanced (rs rs' : run_state) (subasta_id : Z) (current_day : date) :
  visit fetch_auction_html BeautifulSoup rs subasta_id current_day = Ok rs' →
  advanced 1 rs rs'.
Proof.
  unfold visit. destruct (fetch_auction_html _ _) as [html|].
  - destruct (has_error_response html).
    + intros [= <-]. split; [apply accounted_refl | done].
    + destruct (extract_table_date _ _) as [d|]; simpl; [|done].
      destruct (parse_rows _) as [[|row rows]|] eqn:Hrows;
        cbn [mbind result_bind]; [| |done].
      * intros [= <-]. split; [apply accounted_refl | done].
      * set (name := extract_auction_name _ _).
        pose proof (fold_left_accounted
                      (store_row subasta_id (date_to_iso d)) (row :: rows)
                      (upsert_subasta (store rs) subasta_id name,
                       inserted_prices rs)
                      (store_row_accounted subasta_id (date_to_iso d))) as Hacc.
        destruct (fold_left _ (row :: rows) _) as [st' inserted].
        intros [= <-]. split; [|done]. simpl.
        eapply accounted_trans; [|exact Hacc].
        pose proof (reaches_perform (store rs) (UpsertSubasta subasta_id name)) as R.
        pose proof (precios_perform (store rs) (UpsertSubasta subasta_id name)) as P.
        simpl in R, P. split; [exact R|]. simpl. split; [lia | congruence].
  - intros [= <-]. split; [apply accounted_refl | done].
Qed.

Lemma visit_day_advanced (lastdate : date) (maxsubastas : Z)
    (rs rs' : run_state) (day_offset : Z) :
  visit_day fetch_auction_html BeautifulSoup lastdate maxsubastas rs day_offset
  = Ok rs' →
  advanced (Z.of_nat (Z.to_nat maxsubastas)) rs rs'.
Proof.
  unfold visit_day. destruct (minus_days _ _) as [current_day|]; simpl; [|done].
  intros H%(for_each_advanced _ 1); [|intros ???; apply visit_advanced].
  rewrite length_seqZ in H. by rewrite Z.mul_1_l in H.
Qed.

(** X15.  When [run_scrapper] completes, its counters are exact: it has
    queried every pair of the grid, [maxdays] times [maxsubastas] of them
    (none if either is not positive), whatever became of each, and the
    number of inserted prices it reports is the number of price records the
    store has gained; what it saves is the content of the final store. *)
Theorem run_scrapper_counts (lastdate : date) (maxdays maxsubastas : Z)
    (st : JsonStore) (rs : run_state)
    (saved : list subasta * list familia * list producto * list precio) :
  run_scrapper fetch_auction_html BeautifulSoup lastdate maxdays maxsubastas st
  = Ok (rs, saved) →
  queried rs = Z.max 0 maxdays * Z.max 0 maxsubastas
  ∧ 0 ≤ inserted_prices rs
  ∧ Z.of_nat (length (precios (store rs)))
    = Z.of_nat (length (precios st)) + inserted_prices rs
  ∧ saved = save (store rs)
  ∧ last (printed rs) = Some (OkSummary (queried rs) (inserted_prices rs)).
Proof.
  unfold run_scrapper.
  destruct (for_each _ _ _) as [rs1|] eqn:E; simpl; [|done].
  intros [= <- <-].
  apply (for_each_advanced _ (Z.of_nat (Z.to_nat maxsubastas))) in E;
    [|intros ???; apply visit_day_advanced].
  destruct E as [(_ & Hle & Hacc) Hq]. simpl in *.
  rewrite length_seqZ in Hq.
  split; [lia|]. split; [lia|]. split; [lia|]. split; [done|].
  by rewrite last_snoc.
Qed.

(** X16.  A run changes the store through the four operations only.  So
    when it completes, everything the store held is still there, at its
    place (the families and prices as a prefix), and if the store was as the
    constructor builds it, loading what the run saved gives the final store
    back. *)
Theorem run_scrapper_store (lastdate : date) (maxdays maxsubastas : Z)
    (st : JsonStore) (rs : run_state)
    (saved : list subasta * list familia * list producto * list precio) :
  run_scrapper fetch_auction_html BeautifulSoup lastdate maxdays maxsubastas st
  = Ok (rs, saved) →
  (∃ calls, store rs = fold_left perform calls st)
  ∧ familias st `prefix_of` familias (store rs)
  ∧ precios st `prefix_of` precios (store rs)
  ∧ (length (subastas st) ≤ length (subastas (store rs)))%nat
  ∧ (length (productos st) ≤ length (productos (store rs)))%nat
  ∧ (indexed st →
     indexed (store rs)
     ∧ JsonStore_init saved.1.1.1 saved.1.1.2 saved.1.2 saved.2 = store rs).
Proof.
  unfold run_scrapper.
  destruct (for_each _ _ _) as [rs1|] eqn:E; simpl; [|done].
  intros [= <- <-].
  apply (for_each_advanced _ (Z.of_nat (Z.to_nat maxsubastas))) in E;
    [|intros ???; apply visit_day_advanced].
  destruct E as [([calls Hcalls] & _) _]. simpl in *.
  destruct (grows_calls calls st) as [F P A Q _ _ _ _].
  rewrite <- Hcalls in F, P, A, Q.
  split; [by exists calls|]. split; [done|]. split; [done|]. split; [|split].
  - destruct (decide (length (subastas st) = 0%nat)) as [->|Hne]; [lia|].
    destruct (lookup_lt_is_Some_2 (subastas st) (pred (length (subastas st))))
      as [s Hs]; [lia|].
    destruct (A _ _ Hs) as (s' & Hs'%lookup_lt_Some & _). lia.
  - destruct (decide (length (productos st) = 0%nat)) as [->|Hne]; [lia|].
    destruct (lookup_lt_is_Some_2 (productos st) (pred (length (productos st))))
      as [p Hp]; [lia|].
    destruct (Q _ _ Hp) as (p' & Hp'%lookup_lt_Some & _). lia.
  - intros Hst. assert (Hrs : indexed (store rs1))
      by (rewrite Hcalls; by apply indexed_calls).
    split; [done|]. destruct Hrs as (Hs & Hf & Hp & Hr).
    unfold prices_indexed in Hr. unfold JsonStore_init.
    destruct (store rs1); simpl in *. congruence.
Qed.
End RunFacts.

(** ** Cuts are stored by position *)

Lemma insert_cuts_by_position (subasta_id : Z) (fecha_iso : str)
    (producto_id : Z) (known : gset (Z * str * Z * Z))
    (cuts : list (option Z)) (i : Z) (st : JsonStore) (n : Z) :
  (∀ j, i ≤ j → (subasta_id, fecha_iso, producto_id, j) ∈ precios_keys st
                ↔ (subasta_id, fecha_iso, producto_id, j) ∈ known) →
  let r := fold_left (insert_cut subasta_id fecha_iso producto_id)
                     (enumerate i cuts) (st, n) in
  let new := new_prices subasta_id fecha_iso producto_id known i cuts in
  precios r.1 = precios st ++ new ∧ r.2 = n + Z.of_nat (length new).
Proof.
  revert i st n. induction cuts as [|cut cuts IH]; intros i st n Hknown; simpl.
  - rewrite app_nil_r. split; [done | lia].
  - destruct cut as [p|]; simpl.
    + unfold insert_precio.
      destruct (decide ((subasta_id, fecha_iso, producto_id, i) ∈ precios_keys st))
        as [Hin|Hnew].
      * rewrite decide_True by (apply Hknown; [lia | done]).
        apply IH. intros j Hj. apply Hknown. lia.
      * rewrite decide_False by (rewrite <- Hknown; [done | lia]).
        simpl.
        match goal with
        | |- context [fold_left _ _ (?s, _)] =>
            destruct (IH (i + 1) s (n + 1)) as [E1 E2]
        end.
        { intros j Hj. simpl. rewrite elem_of_union, elem_of_singleton.
          rewrite <- Hknown by lia. split; [|by right].
          intros [[= ?]|?]; [lia | done]. }
        rewrite E1, E2. simpl. rewrite <- app_assoc. split; [done | lia].
    + apply IH. intros j Hj. apply Hknown. lia.
Qed.

(** The loop over the cuts touches the prices only. *)
Lemma fold_insert_cut_keeps (subasta_id : Z) (fecha_iso : str)
    (producto_id : Z) (cs : list (Z * option Z)) (acc : JsonStore * Z) :
  familias (fold_left (insert_cut subasta_id fecha_iso producto_id) cs acc).1
  = familias acc.1
  ∧ productos (fold_left (insert_cut subasta_id fecha_iso producto_id) cs acc).1
    = productos acc.1
  ∧ subastas (fold_left (insert_cut subasta_id fecha_iso producto_id) cs acc).1
    = subastas acc.1.
Proof.
  revert acc. induction cs as [|[j c] cs IHc]; intros [s0 n0]; [done|]. simpl.
  destruct c as [v|]; [|apply IHc].
  destruct (insert_precio s0 subasta_id fecha_iso producto_id j v)
    as [was s1] eqn:Ei.
  destruct (IHc (s1, if was then n0 + 1 else n0)) as (-> & -> & ->). simpl.
  assert (s1 = (insert_precio s0 subasta_id fecha_iso producto_id j v).2)
    as -> by by rewrite Ei.
  unfold insert_precio. by destruct (decide _).
Qed.

Lemma store_row_subastas (subasta_id : Z) (fecha_iso : str)
    (st : JsonStore) (n : Z) (row : ParsedRow) :
  subastas (store_row subasta_id fecha_iso (st, n) row).1 = subastas st.
Proof.
  unfold store_row.
  assert (H1 : subastas (get_or_create_familia st (family_name row)).2
               = subastas st).
  { unfold get_or_create_familia. by destruct (deref _ _) as [[??]|]. }
  destruct (get_or_create_familia st (family_name row)) as [family_id st1].
  assert (H2 : subastas (get_or_create_producto st1 family_id (product_name row)
                           (product_url row)).2 = subastas st1).
  { unfold get_or_create_producto. destruct (deref _ _) as [[??]|]; [|done].
    by destruct (_ && _). }
  destruct (get_or_create_producto st1 family_id (product_name row)
              (product_url row)) as [product_id st2].
  simpl in *.
  destruct (fold_insert_cut_keeps subasta_id fecha_iso product_id
              (enumerate 1 (cuts row)) (st2, n)) as (_ & _ & ->).
  simpl. congruence.
Qed.

(** X17.  [store_row] files the cuts of a row by position: after the
    family and the product are found or created, the store gains exactly
    one price record for each cut that is not null and whose key (auction,
    date, product, position counted from 1) was not yet registered, in the
    order of the row, with the cut's value; null cuts give nothing but keep
    their position; and the counter grows by the number of records
    added. *)
Theorem store_row_by_position (subasta_id : Z) (fecha_iso : str)
    (st : JsonStore) (n : Z) (row : ParsedRow) :
  let f := get_or_create_familia st (family_name row) in
  let p := get_or_create_producto f.2 f.1 (product_name row) (product_url row) in
  let r := store_row subasta_id fecha_iso (st, n) row in
  let new := new_prices subasta_id fecha_iso p.1 (precios_keys st) 1 (cuts row) in
  precios r.1 = precios st ++ new
  ∧ r.2 = n + Z.of_nat (length new)
  ∧ familias r.1 = familias f.2 ∧ productos r.1 = productos p.2
  ∧ subastas r.1 = subastas st.
Proof.
  intros f p r new. subst r. unfold store_row. fold f.
  destruct f as [family_id st1] eqn:Ef. simpl in p. fold p.
  destruct p as [product_id st2] eqn:Ep. simpl in new.
  assert (H1 : precios st1 = precios st ∧ precios_keys st1 = precios_keys st
               ∧ subastas st1 = subastas st).
  { replace st1 with (get_or_create_familia st (family_name row)).2
      by (subst f; by rewrite Ef).
    unfold get_or_create_familia. by destruct (deref _ _) as [[??]|]. }
  assert (H2 : precios st2 = precios st1 ∧ precios_keys st2 = precios_keys st1
               ∧ subastas st2 = subastas st1 ∧ familias st2 = familias st1).
  { replace st2 with (get_or_create_producto st1 family_id (product_name row)
                        (product_url row)).2 by (subst p; by rewrite Ep).
    unfold get_or_create_producto. destruct (deref _ _) as [[??]|]; [|done].
    by destruct (_ && _). }
  destruct H1 as (P1 & K1 & S1), H2 as (P2 & K2 & S2 & F2).
  destruct (insert_cuts_by_position subasta_id fecha_iso product_id
              (precios_keys st) (cuts row) 1 st2 n) as [E1 E2].
  { intros j _. by rewrite K2, K1. }
  fold new in E1, E2. rewrite E1, E2, P2, P1. split; [done|]. split; [done|].
  destruct (fold_insert_cut_keeps subasta_id fecha_iso product_id
              (enumerate 1 (cuts row)) (st2, n)) as (-> & -> & ->).
  simpl. split; [done|]. split; [done|]. congruence.
Qed.

(** ** When a run completes *)




Section Completion.
Variable fetch_auction_html : Z → date → option str.
Variable BeautifulSoup : str → node.

End Completion.


(** ** Running again *)

Lemma same_but_names_refl (S : JsonStore) : same_but_names S S.
Proof. by repeat split. Qed.

Lemma get_or_create_familia_found (st : JsonStore) (name : str) :
  let r := get_or_create_familia st name in
  ∃ j f, deref (familias r.2) (familias_by_name r.2 !! lower (strip name))
         = Some (j, f) ∧ fam_id f = r.1.
Proof.
  intros r. subst r.
  destruct (deref (familias st) (familias_by_name st !! lower (strip name)))
    as [[i existing]|] eqn:E.
  - rewrite (get_or_create_familia_hit st name i existing E). eauto.
  - destruct (get_or_create_familia_miss st name E) as (_ & _ & Hd). eauto.
Qed.

(** In the second run a family is found, with the identifier it got in the
    first, and nothing changes. *)
Lemma replay_familia (T U S : JsonStore) (name : str) :
  grows (get_or_create_familia T name).2 S → same_but_names U S →
  get_or_create_familia U name = ((get_or_create_familia T name).1, U).
Proof.
  intros HG (_ & HF & _ & _ & _ & HI & _).
  destruct (get_or_create_familia_found T name) as (j & f & Hd & Hid).
  apply (grows_familia_lookup _ _ HG) in Hd. rewrite <- HF, <- HI in Hd.
  rewrite (get_or_create_familia_hit U name j f Hd). by rewrite Hid.
Qed.

Lemma replay_producto (T U S : JsonStore) (family_id : Z) (name : str)
    (url : option str) :
  grows (get_or_create_producto T family_id name url).2 S → same_but_names U S →
  get_or_create_producto U family_id name url
  = ((get_or_create_producto T family_id name url).1, U).
Proof.
  intros HG (_ & _ & HP & _ & _ & _ & HI & _).
  destruct (get_or_create_producto_found T family_id name url)
    as (j & p & Hd & Hid & Hurl & _).
  pose proof Hd as [_ Hj]%deref_Some.
  destruct (grows_producto_lookup _ _ HG _ _ _ Hd) as (p' & Hd').
  destruct (grows_productos _ _ HG _ _ Hj) as (p'' & Hj'' & Hsame).
  pose proof Hd' as [_ Hj']%deref_Some.
  assert (p'' = p') as -> by congruence.
  destruct Hsame as (Hid' & _ & _ & Hkeep).
  rewrite <- HP, <- HI in Hd'.
  assert (Hc : truthy url && negb (truthy (pro_url p')) = false).
  { destruct (truthy url) eqn:Hu; [|done]. simpl.
    rewrite Hkeep by (by apply Hurl). by rewrite (Hurl eq_refl). }
  unfold get_or_create_producto at 1. rewrite Hd', Hc. congruence.
Qed.

Lemma replay_precio (T U S : JsonStore) (subasta_id : Z) (fecha_iso : str)
    (producto_id corte precio_ : Z) :
  grows (insert_precio T subasta_id fecha_iso producto_id corte precio_).2 S →
  same_but_names U S →
  insert_precio U subasta_id fecha_iso producto_id corte precio_ = (false, U).
Proof.
  intros HG (_ & _ & _ & _ & _ & _ & _ & HK).
  unfold insert_precio at 1. rewrite decide_True; [done|].
  rewrite HK. apply (grows_keys _ _ HG).
  unfold insert_precio. destruct (decide _); simpl; [done|].
  apply elem_of_union_l, elem_of_singleton. reflexivity.
Qed.

Lemma grows_fold_insert_cut (subasta_id : Z) (fecha_iso : str)
    (producto_id : Z) (cuts : list (Z * option Z)) (acc : JsonStore * Z) :
  grows acc.1 (fold_left (insert_cut subasta_id fecha_iso producto_id) cuts acc).1.
Proof.
  destruct (fold_left_accounted (insert_cut subasta_id fecha_iso producto_id)
              cuts acc (insert_cut_accounted subasta_id fecha_iso producto_id))
    as ([calls ->] & _).
  apply grows_calls.
Qed.

Lemma grows_fold_store_row (subasta_id : Z) (fecha_iso : str)
    (rows : list ParsedRow) (acc : JsonStore * Z) :
  grows acc.1 (fold_left (store_row subasta_id fecha_iso) rows acc).1.
Proof.
  destruct (fold_left_accounted (store_row subasta_id fecha_iso)
              rows acc (store_row_accounted subasta_id fecha_iso))
    as ([calls ->] & _).
  apply grows_calls.
Qed.

Lemma replay_cuts (S U : JsonStore) (subasta_id : Z) (fecha_iso : str)
    (producto_id : Z) (cuts : list (Z * option Z)) (T : JsonStore) (n m : Z) :
  grows (fold_left (insert_cut subasta_id fecha_iso producto_id) cuts (T, n)).1 S →
  same_but_names U S →
  fold_left (insert_cut subasta_id fecha_iso producto_id) cuts (U, m) = (U, m).
Proof.
  intros HG HU. revert T n HG. induction cuts as [|[i c] cuts IH]; intros T n HG;
    [done|].
  simpl in *. destruct c as [p|]; [|by eapply IH].
  destruct (insert_precio T subasta_id fecha_iso producto_id i p)
    as [was T1] eqn:ET.
  rewrite (replay_precio T U S); [by eapply IH|..|done].
  rewrite ET. simpl.
  eapply grows_trans; [|exact HG].
  apply (grows_fold_insert_cut _ _ _ cuts (T1, _)).
Qed.

Lemma replay_row (S U : JsonStore) (subasta_id : Z) (fecha_iso : str)
    (row : ParsedRow) (T : JsonStore) (n m : Z) :
  grows (store_row subasta_id fecha_iso (T, n) row).1 S →
  same_but_names U S →
  store_row subasta_id fecha_iso (U, m) row = (U, m).
Proof.
  unfold store_row. intros HG HU.
  pose proof (grows_get_or_create_familia T (family_name row)) as G1.
  pose proof (replay_familia T U S (family_name row)) as R1.
  destruct (get_or_create_familia T (family_name row)) as [family_id T1].
  pose proof (grows_get_or_create_producto T1 family_id (product_name row)
                (product_url row)) as G2.
  pose proof (replay_producto T1 U S family_id (product_name row)
                (product_url row)) as R2.
  destruct (get_or_create_producto T1 family_id (product_name row)
              (product_url row)) as [product_id T2].
  simpl in *.
  pose proof (grows_fold_insert_cut subasta_id fecha_iso product_id
                (enumerate 1 (cuts row)) (T2, n)) as G3. simpl in G3.
  assert (grows T2 S) by (by eapply grows_trans).
  assert (grows T1 S) by (by eapply grows_trans).
  rewrite R1, R2 by done. by eapply replay_cuts.
Qed.

Lemma replay_rows (S U : JsonStore) (subasta_id : Z) (fecha_iso : str)
    (rows : list ParsedRow) (T : JsonStore) (n m : Z) :
  grows (fold_left (store_row subasta_id fecha_iso) rows (T, n)).1 S →
  same_but_names U S →
  fold_left (store_row subasta_id fecha_iso) rows (U, m) = (U, m).
Proof.
  intros HG HU. revert T n HG. induction rows as [|row rows IH]; intros T n HG;
    [done|].
  cbn [fold_left] in *.
  destruct (store_row subasta_id fecha_iso (T, n) row) as [T1 n1] eqn:ET.
  rewrite (replay_row S U subasta_id fecha_iso row T n m); [by eapply IH|..|done].
  rewrite ET. simpl. eapply grows_trans; [|exact HG].
  apply (grows_fold_store_row _ _ rows (T1, n1)).
Qed.

(** The rows of a page do not touch the auctions. *)
Lemma subastas_fold_store_row (subasta_id : Z) (fecha_iso : str)
    (rows : list ParsedRow) (acc : JsonStore * Z) :
  subastas (fold_left (store_row subasta_id fecha_iso) rows acc).1
  = subastas acc.1.
Proof.
  revert acc. induction rows as [|row rows IH]; intros [st n]; [done|].
  cbn [fold_left]. rewrite IH. apply store_row_subastas.
Qed.

Lemma upsert_subasta_shape (T : JsonStore) (subasta_id : Z) (nombre : str) :
  let T' := upsert_subasta T subasta_id nombre in
  ∃ j t',
    deref (subastas T') (subastas_by_id T' !! subasta_id) = Some (j, t')
    ∧ (∀ k, k ≠ j → subastas T' !! k = subastas T !! k)
    ∧ (nonempty (strip nombre) = true → sub_nombre t' = strip nombre)
    ∧ (nonempty (strip nombre) = false →
       subastas T !! j = None ∨ subastas T' !! j = subastas T !! j).
Proof.
  intros T'. subst T'. unfold upsert_subasta.
  destruct (deref (subastas T) (subastas_by_id T !! subasta_id))
    as [[i stored]|] eqn:E.
  - pose proof E as [Hidx Hi]%deref_Some.
    destruct (nonempty (strip nombre)
              && negb (bool_decide (sub_nombre stored = strip nombre))) eqn:Hc.
    + exists i, {| sub_id := sub_id stored; sub_nombre := strip nombre |}.
      simpl. split; [|split; [|split]].
      * apply deref_Some. split; [done|].
        apply list_lookup_insert_eq. by eapply lookup_lt_Some.
      * intros k Hk. by rewrite list_lookup_insert_ne.
      * done.
      * intros Hn. by rewrite Hn in Hc.
    + exists i, stored. split; [exact E|]. split; [done|]. split; [|by right].
      intros Hn. rewrite Hn in Hc. simpl in Hc.
      apply negb_false_iff, bool_decide_eq_true in Hc. exact Hc.
  - exists (length (subastas T)),
      {| sub_id := subasta_id; sub_nombre := strip nombre |}.
    simpl. split; [|split; [|split]].
    + apply deref_Some. rewrite lookup_insert_eq. split; [done|].
      by rewrite lookup_app_r, Nat.sub_diag.
    + intros k Hk. destruct (decide (k < length (subastas T))%nat).
      * by rewrite lookup_app_l.
      * rewrite lookup_app_r by lia.
        rewrite (lookup_ge_None_2 (subastas T)) by lia.
        apply lookup_ge_None_2. simpl. lia.
    + done.
    + intros _. left. by apply lookup_ge_None_2.
Qed.

(** In the second run an auction is found where the first run put it, and
    it gets the name the first run gave it. *)
Lemma replay_upsert (T U S : JsonStore) (subasta_id : Z) (nombre : str) :
  grows (upsert_subasta T subasta_id nombre) S →
  same_but_names U S → names_follow T U S →
  same_but_names (upsert_subasta U subasta_id nombre) S
  ∧ names_follow (upsert_subasta T subasta_id nombre)
                 (upsert_subasta U subasta_id nombre) S.
Proof.
  intros HG HU HN.
  destruct (upsert_subasta_shape T subasta_id nombre)
    as (j & t' & Hd & Hother & Hname & Hempty).
  set (T' := upsert_subasta T subasta_id nombre) in *.
  destruct (grows_subasta_lookup _ _ HG _ _ _ Hd) as (s' & [HSi HSj]%deref_Some).
  pose proof Hd as [_ HTj]%deref_Some.
  pose proof HU as (Hids & HF & HP & HR & HI & HIF & HIP & HK).
  assert (∃ u, subastas U !! j = Some u) as [u Hu].
  { assert (Hl : (sub_id <$> subastas U) !! j = Some (sub_id s'))
      by (by rewrite Hids, list_lookup_fmap, HSj).
    rewrite list_lookup_fmap in Hl. destruct (subastas U !! j); [eauto|done]. }
  assert (HdU : deref (subastas U) (subastas_by_id U !! subasta_id) = Some (j, u))
    by (apply deref_Some; by rewrite HI).
  assert (Hrest : ∀ k x, k ≠ j → subastas U !! k = Some x →
            (∃ s, subastas S !! k = Some s ∧ sub_nombre x = sub_nombre s)
            ∨ (∃ t, subastas T' !! k = Some t ∧ sub_nombre x = sub_nombre t)).
  { intros k x Hk Hx. destruct (HN k x Hx) as [?|(t & Ht & Hxt)]; [by left|].
    right. exists t. by rewrite Hother. }
  unfold upsert_subasta at 1 2. rewrite HdU.
  destruct (nonempty (strip nombre)) eqn:Hn; simpl.
  - destruct (bool_decide (sub_nombre u = strip nombre)) eqn:Hsame; simpl.
    + split; [done|]. intros k x Hx. destruct (decide (k = j)) as [->|Hk];
        [|by apply Hrest].
      right. exists t'. split; [done|].
      assert (x = u) as -> by congruence.
      apply bool_decide_eq_true in Hsame. rewrite Hsame. symmetry. by apply Hname.
    + split.
      * repeat split; simpl; try done.
        rewrite list_fmap_insert. simpl. rewrite <- Hids.
        apply list_insert_id. by rewrite list_lookup_fmap, Hu.
      * intros k x Hx. simpl in Hx. destruct (decide (k = j)) as [->|Hk].
        -- rewrite list_lookup_insert_eq in Hx by (by eapply lookup_lt_Some).
           injection Hx as <-. right. exists t'. split; [done|].
           simpl. symmetry. by apply Hname.
        -- rewrite list_lookup_insert_ne in Hx by done. by apply Hrest.
  - split; [done|]. intros k x Hx. destruct (decide (k = j)) as [->|Hk];
      [|by apply Hrest].
    destruct (HN j x Hx) as [?|(t & Ht & Hxt)]; [by left|].
    right. exists t. split; [|done].
    destruct (Hempty eq_refl) as [Hnone| ->]; [congruence | done].
Qed.

Lemma names_follow_subastas (T T' U S : JsonStore) :
  subastas T' = subastas T → names_follow T U S → names_follow T' U S.
Proof. intros E HN j u Hu. rewrite E. by apply HN. Qed.

Lemma same_but_names_eq (U S : JsonStore) :
  same_but_names U S → names_follow S U S → U = S.
Proof.
  intros (Hids & HF & HP & HR & HI & HIF & HIP & HK) HN.
  assert (Hsub : subastas U = subastas S).
  { apply list_eq. intros j.
    pose proof (f_equal (λ l, l !! j) Hids) as Hj. simpl in Hj.
    rewrite !list_lookup_fmap in Hj.
    destruct (subastas U !! j) as [u|] eqn:Hu;
      destruct (subastas S !! j) as [s|] eqn:Hs; try done.
    simpl in Hj. injection Hj as Hid.
    assert (sub_nombre u = sub_nombre s) as Hname.
    { destruct (HN j u Hu) as [(s0 & Hs0 & E)|(s0 & Hs0 & E)]; congruence. }
    destruct u, s. simpl in *. congruence. }
  destruct U, S. simpl in *. congruence.
Qed.

Section Replay.
Variable fetch_auction_html : Z → date → option str.
Variable BeautifulSoup : str → node.
Variable S : JsonStore.

Lemma grows_visit (rs rs' : run_state) (subasta_id : Z) (day : date) :
  visit fetch_auction_html BeautifulSoup rs subasta_id day = Ok rs' →
  grows (store rs) (store rs').
Proof.
  intros [[[calls Hc] _] _]%visit_advanced. simpl in Hc. rewrite Hc.
  apply grows_calls.
Qed.

Lemma grows_visits (ids : list Z) (rs rs' : run_state) (day : date) :
  for_each (λ rs i, visit fetch_auction_html BeautifulSoup rs i day) ids rs
  = Ok rs' →
  grows (store rs) (store rs').
Proof.
  intros H. apply (for_each_advanced _ 1) in H as [[[calls Hc] _] _].
  - simpl in Hc. rewrite Hc. apply grows_calls.
  - intros ???. apply visit_advanced.
Qed.

Lemma grows_visit_day (lastdate : date) (maxsubastas : Z) (rs rs' : run_state)
    (day_offset : Z) :
  visit_day fetch_auction_html BeautifulSoup lastdate maxsubastas rs day_offset
  = Ok rs' →
  grows (store rs) (store rs').
Proof.
  intros [[[calls Hc] _] _]%visit_day_advanced. simpl in Hc. rewrite Hc.
  apply grows_calls.
Qed.

Lemma grows_visit_days (lastdate : date) (maxsubastas : Z) (offsets : list Z)
    (rs rs' : run_state) :
  for_each (visit_day fetch_auction_html BeautifulSoup lastdate maxsubastas)
           offsets rs = Ok rs' →
  grows (store rs) (store rs').
Proof.
  intros H.
  apply (for_each_advanced _ (Z.of_nat (Z.to_nat maxsubastas))) in H
    as [[[calls Hc] _] _].
  - simpl in Hc. rewrite Hc. apply grows_calls.
  - intros ???. apply visit_day_advanced.
Qed.

(** What the second run keeps true, pair after pair. *)
Definition replays (T U : run_state) (U0 : run_state) (n : Z) : Prop :=
  same_but_names (store U) S
  ∧ names_follow (store T) (store U) S
  ∧ inserted_prices U = inserted_prices U0
  ∧ queried U = queried U0 + n.

Lemma replay_visit (rsT rsT' rsU : run_state) (subasta_id : Z) (day : date) :
  visit fetch_auction_html BeautifulSoup rsT subasta_id day = Ok rsT' →
  grows (store rsT') S →
  same_but_names (store rsU) S → names_follow (store rsT) (store rsU) S →
  ∃ rsU',
    visit fetch_auction_html BeautifulSoup rsU subasta_id day = Ok rsU'
    ∧ replays rsT' rsU' rsU 1.
Proof.
  unfold visit, replays. intros HT HG HU HN.
  destruct (fetch_auction_html subasta_id day) as [html|].
  - destruct (has_error_response html).
    + injection HT as <-. eexists. split; [done|]. simpl. by split.
    + destruct (extract_table_date _ _) as [d|];
        cbn [mbind result_bind] in *; [|done].
      destruct (parse_rows _) as [[|row rows]|] eqn:Hrows;
        cbn [mbind result_bind] in *; [| |done].
      * injection HT as <-. eexists. split; [done|]. simpl. by split.
      * set (name := extract_auction_name _ _) in *.
        cbn [store inserted_prices queried printed] in *.
        pose proof (grows_fold_store_row subasta_id (date_to_iso d) (row :: rows)
                      (upsert_subasta (store rsT) subasta_id name,
                       inserted_prices rsT)) as G1.
        pose proof (subastas_fold_store_row subasta_id (date_to_iso d)
                      (row :: rows)
                      (upsert_subasta (store rsT) subasta_id name,
                       inserted_prices rsT)) as S1.
        assert (HR : ∀ T' n',
                  fold_left (store_row subasta_id (date_to_iso d)) (row :: rows)
                    (upsert_subasta (store rsT) subasta_id name,
                     inserted_prices rsT) = (T', n') →
                  grows T' S →
                  fold_left (store_row subasta_id (date_to_iso d)) (row :: rows)
                    (upsert_subasta (store rsU) subasta_id name,
                     inserted_prices rsU)
                  = (upsert_subasta (store rsU) subasta_id name,
                     inserted_prices rsU)
                  ∧ same_but_names (upsert_subasta (store rsU) subasta_id name) S
                  ∧ names_follow T' (upsert_subasta (store rsU) subasta_id name) S).
        { intros T' n' EF HG'. rewrite EF in G1, S1. cbn [fst] in G1, S1.
          destruct (replay_upsert (store rsT) (store rsU) S subasta_id name)
            as [HU' HN']; [by eapply grows_trans | done | done |].
          split; [|split; [done|]].
          - apply (replay_rows S _ subasta_id (date_to_iso d) (row :: rows)
                     (upsert_subasta (store rsT) subasta_id name)
                     (inserted_prices rsT)); [by rewrite EF | done].
          - by eapply names_follow_subastas. }
        clear G1 S1.
        destruct (fold_left _ (row :: rows)
                    (upsert_subasta (store rsT) subasta_id name, _))
          as [T' n'] eqn:EF.
        injection HT as <-. cbn [store] in HG.
        destruct (HR T' n' eq_refl HG) as (-> & HU' & HN').
        eexists. split; [done|]. cbn [store inserted_prices queried].
        by split.
  - injection HT as <-. eexists. split; [done|]. simpl. by split.
Qed.

Lemma replay_visits (day : date) (ids : list Z) (rsT rsT' rsU : run_state) :
  for_each (λ rs i, visit fetch_auction_html BeautifulSoup rs i day) ids rsT
  = Ok rsT' →
  grows (store rsT') S →
  same_but_names (store rsU) S → names_follow (store rsT) (store rsU) S →
  ∃ rsU',
    for_each (λ rs i, visit fetch_auction_html BeautifulSoup rs i day) ids rsU
    = Ok rsU'
    ∧ replays rsT' rsU' rsU (Z.of_nat (length ids)).
Proof.
  revert rsT rsU. induction ids as [|i ids IH]; intros rsT rsU HT HG HU HN.
  - injection HT as <-. exists rsU. split; [done|]. split; [done|].
    split; [done|]. split; [done|]. simpl. lia.
  - rewrite for_each_cons in HT.
    destruct (visit _ _ rsT i day) as [rs1|] eqn:E1; [|done].
    cbn [mbind result_bind] in HT.
    destruct (replay_visit rsT rs1 rsU i day E1) as (rsU1 & EU1 & R1);
      [|done|done|].
    { eapply grows_trans; [by eapply grows_visits | done]. }
    destruct R1 as (HU1 & HN1 & I1 & Q1).
    destruct (IH rs1 rsU1 HT HG HU1 HN1) as (rsU' & EU' & HU' & HN' & I' & Q').
    exists rsU'. rewrite for_each_cons, EU1. cbn [mbind result_bind].
    split; [done|]. split; [done|]. split; [done|]. split; [congruence|].
    rewrite Q', Q1. simpl length. lia.
Qed.

Lemma replay_visit_days (lastdate : date) (maxsubastas : Z) (offsets : list Z)
    (rsT rsT' rsU : run_state) :
  for_each (visit_day fetch_auction_html BeautifulSoup lastdate maxsubastas)
           offsets rsT = Ok rsT' →
  grows (store rsT') S →
  same_but_names (store rsU) S → names_follow (store rsT) (store rsU) S →
  ∃ rsU',
    for_each (visit_day fetch_auction_html BeautifulSoup lastdate maxsubastas)
             offsets rsU = Ok rsU'
    ∧ same_but_names (store rsU') S
    ∧ names_follow (store rsT') (store rsU') S
    ∧ inserted_prices rsU' = inserted_prices rsU
    ∧ queried rsU' - queried rsU = queried rsT' - queried rsT.
Proof.
  revert rsT rsU. induction offsets as [|o offsets IH];
    intros rsT rsU HT HG HU HN.
  - injection HT as <-. exists rsU. split; [done|]. split; [done|].
    split; [done|]. split; [done | lia].
  - rewrite for_each_cons in HT.
    destruct (visit_day _ _ lastdate maxsubastas rsT o) as [rs1|] eqn:E1; [|done].
    cbn [mbind result_bind] in HT.
    pose proof (visit_day_advanced _ _ _ _ _ _ _ E1) as [_ QT1].
    unfold visit_day in E1.
    destruct (minus_days lastdate (Z.to_nat o)) as [day|] eqn:Ed; [|done].
    cbn [mbind result_bind] in E1.
    destruct (replay_visits day (seqZ 1 maxsubastas) rsT rs1 rsU E1)
      as (rsU1 & EU1 & HU1 & HN1 & I1 & Q1); [|done|done|].
    { eapply grows_trans; [by eapply grows_visit_days | done]. }
    destruct (IH rs1 rsU1 HT HG HU1 HN1) as (rsU' & EU' & HU' & HN' & I' & Q').
    assert (EV : visit_day fetch_auction_html BeautifulSoup lastdate maxsubastas
                   rsU o = Ok rsU1)
      by (unfold visit_day; rewrite Ed; exact EU1).
    exists rsU'. rewrite for_each_cons, EV. cbn [mbind result_bind].
    split; [done|]. split; [done|]. split; [done|]. split; [congruence|].
    rewrite length_seqZ in Q1. lia.
Qed.
End Replay.

Section Again.
Variable fetch_auction_html : Z → date → option str.
Variable BeautifulSoup : str → node.

(** X19.  Running again changes nothing.  If a run over loaded data
    completes, a second run with the same arguments against the same
    answers of the site, started from what the first run saved, completes
    too, inserts no price, queries the same pairs and saves the very same
    data. *)
Theorem run_scrapper_idempotent (lastdate : date) (maxdays maxsubastas : Z)
    (ss : list subasta) (fs : list familia) (ps : list producto)
    (rs : list precio) (rs1 : run_state)
    (saved : list subasta * list familia * list producto * list precio) :
  run_scrapper fetch_auction_html BeautifulSoup lastdate maxdays maxsubastas
               (JsonStore_init ss fs ps rs) = Ok (rs1, saved) →
  ∃ rs2,
    run_scrapper fetch_auction_html BeautifulSoup lastdate maxdays maxsubastas
                 (JsonStore_init saved.1.1.1 saved.1.1.2 saved.1.2 saved.2)
    = Ok (rs2, saved)
    ∧ inserted_prices rs2 = 0
    ∧ queried rs2 = queried rs1
    ∧ store rs2 = store rs1.
Proof.
  unfold run_scrapper at 1.
  destruct (for_each _ _ _) as [rsT|] eqn:ET; [|done].
  cbn [mbind result_bind]. intros [= <- <-].
  set (S := store rsT).
  assert (HS : indexed S).
  { pose proof ET as H.
    apply (for_each_advanced _ (Z.of_nat (Z.to_nat maxsubastas))) in H
      as [[[calls Hc] _] _]; [|intros ???; apply visit_day_advanced].
    simpl in Hc. subst S. rewrite Hc. apply indexed_calls, indexed_init. }
  assert (Hload : JsonStore_init (save S).1.1.1 (save S).1.1.2 (save S).1.2
                                 (save S).2 = S).
  { destruct HS as (Hs & Hf & Hp & Hr). unfold prices_indexed in Hr.
    unfold save, JsonStore_init. destruct S; simpl in *. congruence. }
  rewrite Hload.
  destruct (replay_visit_days fetch_auction_html BeautifulSoup S lastdate
              maxsubastas (seqZ 0 maxdays) _ rsT
              {| store := S; inserted_prices := 0; queried := 0; printed := [] |}
              ET)
    as (rsU & EU & HU & HN & HI & HQ).
  { apply grows_refl. }
  { apply same_but_names_refl. }
  { intros j u Hu. left. eauto. }
  simpl in HI, HQ.
  assert (HE : store rsU = S) by (by apply same_but_names_eq).
  eexists. unfold run_scrapper. rewrite EU. cbn [mbind result_bind].
  rewrite HE. split; [done|]. simpl. split; [done|]. split; [lia | done].
Qed.
End Again.





(** ** References between the collections *)

Lemma has_subasta_grows (T S : JsonStore) (i : Z) :
  grows T S → has_subasta T i → has_subasta S i.
Proof.
  intros HG (s & -> & (j & Hj)%list_elem_of_lookup_1)%list_elem_of_fmap.
  destruct (grows_subastas _ _ HG _ _ Hj) as (s' & Hs' & <-).
  apply list_elem_of_fmap. exists s'. split; [done|].
  by eapply list_elem_of_lookup_2.
Qed.

Lemma has_producto_grows (T S : JsonStore) (i : Z) :
  grows T S → has_producto T i → has_producto S i.
Proof.
  intros HG (p & -> & (j & Hj)%list_elem_of_lookup_1)%list_elem_of_fmap.
  destruct (grows_productos _ _ HG _ _ Hj) as (p' & Hp' & <- & _).
  apply list_elem_of_fmap. exists p'. split; [done|].
  by eapply list_elem_of_lookup_2.
Qed.

Lemma has_familia_grows (T S : JsonStore) (i : Z) :
  grows T S → has_familia T i → has_familia S i.
Proof.
  intros HG (f & -> & Hf)%list_elem_of_fmap.
  apply list_elem_of_fmap. exists f. split; [done|].
  destruct (grows_familias _ _ HG) as [tail ->]. apply elem_of_app. by left.
Qed.

(** A call that adds no price and keeps the family of every product keeps
    the references. *)
Lemma linked_grows (T S : JsonStore) :
  grows T S → precios S = precios T →
  (∀ p, p ∈ productos S → has_familia S (pro_familia_id p)) →
  linked T → linked S.
Proof.
  intros HG HP HQ [HL _]. split; [|done].
  intros r Hr. rewrite HP in Hr. destruct (HL r Hr) as [H1 H2].
  split; [by eapply has_producto_grows | by eapply has_subasta_grows].
Qed.

Lemma linked_upsert_subasta (st : JsonStore) (subasta_id : Z) (nombre : str) :
  indexed st → linked st →
  linked (upsert_subasta st subasta_id nombre)
  ∧ has_subasta (upsert_subasta st subasta_id nombre) subasta_id.
Proof.
  intros (Hs & _) HL.
  pose proof (grows_upsert_subasta st subasta_id nombre) as HG.
  pose proof (precios_perform st (UpsertSubasta subasta_id nombre)) as HP.
  pose proof (subastas_perform st (UpsertSubasta subasta_id nombre)) as HA.
  simpl in HP, HA. split.
  - apply (linked_grows st); [done..| |done].
    assert (productos (upsert_subasta st subasta_id nombre) = productos st
            ∧ familias (upsert_subasta st subasta_id nombre) = familias st)
      as [E1 E2].
    { unfold upsert_subasta. destruct (deref _ _) as [[??]|]; [|done].
      by destruct (_ && _). }
    intros p Hp. unfold has_familia. rewrite E2. rewrite E1 in Hp.
    by apply HL.
  - clear HG HP HA. unfold has_subasta, upsert_subasta.
    destruct (deref (subastas st) (subastas_by_id st !! subasta_id))
      as [[i stored]|] eqn:E.
    + pose proof E as [Hi Hj]%deref_Some. rewrite Hs in Hi.
      destruct (index_by_sound sub_id _ _ _ Hi) as (x & Hx & Hid).
      assert (subasta_id ∈ sub_id <$> subastas st).
      { apply list_elem_of_fmap. exists x. split; [done|].
        by eapply list_elem_of_lookup_2. }
      destruct (_ && _); [|done]. simpl.
      rewrite list_fmap_insert. simpl.
      by rewrite list_insert_id by (by rewrite list_lookup_fmap, Hj).
    + simpl. rewrite fmap_app. apply elem_of_app. right.
      by apply list_elem_of_singleton.
Qed.

Lemma linked_get_or_create_familia (st : JsonStore) (name : str) :
  linked st →
  linked (get_or_create_familia st name).2
  ∧ has_familia (get_or_create_familia st name).2 (get_or_create_familia st name).1.
Proof.
  intros HL. pose proof (grows_get_or_create_familia st name) as HG. split.
  - apply (linked_grows st); [done| | |done].
    + unfold get_or_create_familia. by destruct (deref _ _) as [[??]|].
    + assert (productos (get_or_create_familia st name).2 = productos st) as ->.
      { unfold get_or_create_familia. by destruct (deref _ _) as [[??]|]. }
      intros p Hp. eapply has_familia_grows; [done|]. by apply HL.
  - destruct (get_or_create_familia_found st name) as (j & f & [_ Hj]%deref_Some & <-).
    apply list_elem_of_fmap. exists f. split; [done|].
    by eapply list_elem_of_lookup_2.
Qed.

Lemma linked_get_or_create_producto (st : JsonStore) (family_id : Z)
    (name : str) (url : option str) :
  linked st → has_familia st family_id →
  linked (get_or_create_producto st family_id name url).2
  ∧ has_producto (get_or_create_producto st family_id name url).2
                 (get_or_create_producto st family_id name url).1.
Proof.
  intros HL HF.
  pose proof (grows_get_or_create_producto st family_id name url) as HG. split.
  - apply (linked_grows st); [done| | |done].
    + unfold get_or_create_producto. destruct (deref _ _) as [[??]|]; [|done].
      by destruct (_ && _).
    + assert (familias (get_or_create_producto st family_id name url).2
              = familias st) as Hfam.
      { unfold get_or_create_producto. destruct (deref _ _) as [[??]|]; [|done].
        by destruct (_ && _). }
      unfold has_familia. rewrite Hfam.
      unfold get_or_create_producto.
      destruct (deref (productos st) _) as [[i existing]|] eqn:E.
      * pose proof E as [_ Hi]%deref_Some.
        destruct (_ && _); simpl; [|apply HL].
        intros p (j & Hj)%list_elem_of_lookup_1.
        apply list_lookup_insert_Some in Hj as [(-> & <- & _)|(_ & Hj)].
        -- simpl. apply (proj2 HL). by eapply list_elem_of_lookup_2.
        -- apply (proj2 HL). by eapply list_elem_of_lookup_2.
      * simpl. intros p [Hp| ->%list_elem_of_singleton]%elem_of_app;
          [by apply HL | done].
  - destruct (get_or_create_producto_found st family_id name url)
      as (j & p & [_ Hj]%deref_Some & <- & _).
    apply list_elem_of_fmap. exists p. split; [done|].
    by eapply list_elem_of_lookup_2.
Qed.

Lemma linked_insert_precio (st : JsonStore) (subasta_id : Z) (fecha_iso : str)
    (producto_id corte precio_ : Z) :
  linked st → has_producto st producto_id → has_subasta st subasta_id →
  linked (insert_precio st subasta_id fecha_iso producto_id corte precio_).2.
Proof.
  intros [HL1 HL2] HP HA. unfold insert_precio. destruct (decide _); [done|].
  split; [|done]. simpl.
  intros r [Hr| ->%list_elem_of_singleton]%elem_of_app; [by apply HL1 | done].
Qed.

Lemma linked_cuts (subasta_id : Z) (fecha_iso : str) (producto_id : Z)
    (cs : list (Z * option Z)) (acc : JsonStore * Z) :
  linked acc.1 → has_producto acc.1 producto_id → has_subasta acc.1 subasta_id →
  linked (fold_left (insert_cut subasta_id fecha_iso producto_id) cs acc).1.
Proof.
  revert acc. induction cs as [|[i c] cs IH]; intros [st n] HL HP HA; [done|].
  cbn [fold_left]. apply IH.
  - destruct c as [v|]; simpl; [|done].
    pose proof (linked_insert_precio st subasta_id fecha_iso producto_id i v
                  HL HP HA) as H.
    by destruct (insert_precio _ _ _ _ _ _).
  - eapply has_producto_grows; [|exact HP].
    apply (grows_fold_insert_cut _ _ _ [(i, c)] (st, n)).
  - eapply has_subasta_grows; [|exact HA].
    apply (grows_fold_insert_cut _ _ _ [(i, c)] (st, n)).
Qed.

Lemma linked_store_row (subasta_id : Z) (fecha_iso : str) (row : ParsedRow)
    (acc : JsonStore * Z) :
  linked acc.1 → has_subasta acc.1 subasta_id →
  linked (store_row subasta_id fecha_iso acc row).1
  ∧ has_subasta (store_row subasta_id fecha_iso acc row).1 subasta_id.
Proof.
  destruct acc as [st n]. intros HL HA. split.
  - unfold store_row.
    pose proof (linked_get_or_create_familia st (family_name row) HL) as [L1 F1].
    pose proof (grows_get_or_create_familia st (family_name row)) as G1.
    destruct (get_or_create_familia st (family_name row)) as [family_id st1].
    simpl in *.
    pose proof (linked_get_or_create_producto st1 family_id (product_name row)
                  (product_url row) L1 F1) as [L2 P2].
    pose proof (grows_get_or_create_producto st1 family_id (product_name row)
                  (product_url row)) as G2.
    destruct (get_or_create_producto st1 family_id (product_name row)
                (product_url row)) as [product_id st2].
    simpl in *. apply linked_cuts; simpl; [done..|].
    eapply has_subasta_grows; [exact G2|]. by eapply has_subasta_grows.
  - unfold has_subasta. by rewrite store_row_subastas.
Qed.

Lemma linked_rows (subasta_id : Z) (fecha_iso : str) (rows : list ParsedRow)
    (acc : JsonStore * Z) :
  linked acc.1 → has_subasta acc.1 subasta_id →
  linked (fold_left (store_row subasta_id fecha_iso) rows acc).1.
Proof.
  revert acc. induction rows as [|row rows IH]; intros acc HL HA; [done|].
  cbn [fold_left].
  destruct (linked_store_row subasta_id fecha_iso row acc HL HA) as [L1 A1].
  by apply IH.
Qed.

Section Links.
Variable fetch_auction_html : Z → date → option str.
Variable BeautifulSoup : str → node.

Lemma linked_visit (rs rs' : run_state) (subasta_id : Z) (day : date) :
  indexed (store rs) → linked (store rs) →
  visit fetch_auction_html BeautifulSoup rs subasta_id day = Ok rs' →
  indexed (store rs') ∧ linked (store rs').
Proof.
  intros HI HL HV. split.
  { apply visit_advanced in HV as [[[calls Hc] _] _]. simpl in Hc.
    rewrite Hc. by apply indexed_calls. }
  revert HV. unfold visit.
  destruct (fetch_auction_html _ _) as [html|]; [|by intros [= <-]].
  destruct (has_error_response html); [by intros [= <-]|].
  destruct (extract_table_date _ _) as [d|]; cbn [mbind result_bind]; [|done].
  destruct (parse_rows _) as [[|row rows]|]; cbn [mbind result_bind];
    [by intros [= <-]| |done].
  set (name := extract_auction_name _ _).
  destruct (linked_upsert_subasta (store rs) subasta_id name HI HL) as [L0 A0].
  pose proof (linked_rows subasta_id (date_to_iso d) (row :: rows)
                (upsert_subasta (store rs) subasta_id name, inserted_prices rs)
                L0 A0) as HR.
  cbn [store inserted_prices].
  destruct (fold_left _ (row :: rows) _) as [st' n']. by intros [= <-].
Qed.

Lemma linked_for_each {A} (body : run_state → A → result run_state)
    (xs : list A) (rs rs' : run_state) :
  (∀ rs x rs', indexed (store rs) → linked (store rs) → body rs x = Ok rs' →
               indexed (store rs') ∧ linked (store rs')) →
  indexed (store rs) → linked (store rs) →
  for_each body xs rs = Ok rs' →
  indexed (store rs') ∧ linked (store rs').
Proof.
  intros Hbody. revert rs. induction xs as [|x xs IH]; intros rs HI HL.
  - by intros [= <-].
  - rewrite for_each_cons. destruct (body rs x) as [rs1|] eqn:E; [|done].
    cbn [mbind result_bind]. destruct (Hbody _ _ _ HI HL E). by apply IH.
Qed.

(** X20.  A run keeps the references between the collections whole: if
    in the loaded data every price names a stored product and a stored
    auction and every product names a stored family, the same holds of
    what the run saves. *)
Theorem run_scrapper_keeps_references (lastdate : date) (maxdays maxsubastas : Z)
    (ss : list subasta) (fs : list familia) (ps : list producto)
    (rs : list precio) (rs1 : run_state)
    (saved : list subasta * list familia * list producto * list precio) :
  linked (JsonStore_init ss fs ps rs) →
  run_scrapper fetch_auction_html BeautifulSoup lastdate maxdays maxsubastas
               (JsonStore_init ss fs ps rs) = Ok (rs1, saved) →
  linked (store rs1)
  ∧ linked (JsonStore_init saved.1.1.1 saved.1.1.2 saved.1.2 saved.2).
Proof.
  intros HL. unfold run_scrapper.
  destruct (for_each _ _ _) as [rsT|] eqn:ET; [|done].
  cbn [mbind result_bind]. intros [= <- <-].
  apply linked_for_each in ET as [_ HT]; [by split|..|apply indexed_init|done].
  intros rs0 o rs0' HI0 HL0. unfold visit_day.
  destruct (minus_days _ _) as [day|]; [|done]. cbn [mbind result_bind].
  apply linked_for_each; [|done..].
  intros ??????. by eapply linked_visit.
Qed.
End Links.


(** ** What is returned is what was asked for *)

(** X21.  In a store as the constructor builds it, the identifier
    [get_or_create_familia] returns is that of a stored family whose
    normalised name is the normalised name asked for, and the identifier
    [get_or_create_producto] returns is that of a stored product of the
    family asked for whose normalised name is the one asked for. *)
Theorem get_or_create_returns_match (st : JsonStore) (family_id : Z)
    (name : str) (url : option str) :
  indexed st →
  (let r := get_or_create_familia st name in
   ∃ f, f ∈ familias r.2 ∧ fam_id f = r.1
        ∧ lower (strip (fam_nombre f)) = lower (strip name))
  ∧ (let r := get_or_create_producto st family_id name url in
     ∃ p, p ∈ productos r.2 ∧ pro_id p = r.1
          ∧ pro_familia_id p = family_id
          ∧ lower (strip (pro_nombre p)) = lower (strip name)).
Proof.
  intros Hst. split.
  - intros r.
    destruct (indexed_get_or_create_familia st name Hst) as (_ & Hf & _).
    destruct (get_or_create_familia_found st name)
      as (j & f & [Hidx Hj]%deref_Some & Hid).
    fold r in Hf, Hidx, Hj, Hid. rewrite Hf in Hidx.
    destruct (index_by_sound familia_key _ _ _ Hidx) as (x & Hx & Hk).
    assert (x = f) as -> by congruence.
    exists f. split; [by eapply list_elem_of_lookup_2 | by split].
  - intros r.
    destruct (indexed_get_or_create_producto st family_id name url Hst)
      as (_ & _ & Hp & _).
    destruct (get_or_create_producto_found st family_id name url)
      as (j & p & [Hidx Hj]%deref_Some & Hid & _).
    fold r in Hp, Hidx, Hj, Hid. rewrite Hp in Hidx.
    destruct (index_by_sound producto_key _ _ _ Hidx) as (x & Hx & Hk).
    assert (x = p) as -> by congruence.
    injection Hk as Hk1 Hk2.
    exists p. split; [by eapply list_elem_of_lookup_2 | by repeat split].
Qed.


(** ** Runs with nothing to record *)

Section Nothing.
Variable fetch_auction_html : Z → date → option str.
Variable BeautifulSoup : str → node.

End Nothing.

End Facts.

(** * Examples

    The facts above hold whatever [str.lower] does outside ASCII.  The
    examples below are worked with the case mapping of the Latin-1 range. *)
#[local] Existing Instance latin1.

Lemma insert_precio_dedup_witness :
  insert_precio (JsonStore_init [] [] [] [sample_precio]) 3 (py "2024-03-05")
                1 1 1700
  = (false, JsonStore_init [] [] [] [sample_precio])
  ∧ (insert_precio (JsonStore_init [] [] [] []) 3 (py "2024-03-05") 1 1 1500).1
    = true.
Proof.
  split.
  - apply (proj1 (proj2 (insert_precio_dedup
                           (JsonStore_init [] [] [] [sample_precio])
                           3 (py "2024-03-05") 1 1 1700))).
    simpl. apply elem_of_union_l, elem_of_singleton. reflexivity.
  - apply (proj2 (proj2 (insert_precio_dedup (JsonStore_init [] [] [] [])
                           3 (py "2024-03-05") 1 1 1500))).
    simpl. apply not_elem_of_empty.
Defined.

Lemma price_keys_invariant_witness :
  let st := fold_left perform [InsertPrecio 3 (py "2024-03-05") 1 2 1400;
                               InsertPrecio 3 (py "2024-03-05") 1 1 1700]
                      (JsonStore_init [] [] [] [sample_precio]) in
  NoDup (precio_key <$> precios st)
  ∧ length (precios st) = size (precios_keys st).
Proof.
  apply (price_keys_invariant [] [] [] [sample_precio]).
  simpl. apply NoDup_singleton.
Defined.

(** Two spellings that differ in the case of a letter outside ASCII and in
    a no-break space at the end. *)
Lemma get_or_create_familia_folds_spellings_witness :
  (get_or_create_familia
     (get_or_create_familia empty_store (py "CALABACÍN")).2
     (py " calabacín" ++ nbsp)).1
  = (get_or_create_familia empty_store (py "CALABACÍN")).1.
Proof.
  apply (proj1 (get_or_create_familia_folds_spellings empty_store)
           (py "CALABACÍN") (py " calabacín" ++ nbsp)).
  reflexivity.
Defined.

(** The first family created into an empty collection gets identifier 1,
    the next one 2; the first product gets identifier 1, and a product
    created next to products 1 and 4 gets identifier 5. *)
Lemma surrogate_ids_increase_witness :
  (get_or_create_familia empty_store (py "Vacuno")).1 = 1
  ∧ (get_or_create_familia (JsonStore_init [] [{| fam_id := 1;
                                                  fam_nombre := py "Vacuno" |}]
                                           [] [])
                           (py "Ovino")).1 = 2
  ∧ (get_or_create_producto empty_store 1 (py "Novillo") None).1 = 1
  ∧ (get_or_create_producto (JsonStore_init [] [] [sample_producto; calabacin] [])
                            2 (py "Pepino") None).1 = 5.
Proof.
  split; [|split; [|split]].
  - apply (proj1 (surrogate_ids_increase empty_store (indexed_init [] [] [] []))
             (py "Vacuno")).
    reflexivity.
  - refine (proj1 (proj2 (proj1 (proj1 (surrogate_ids_increase _
              (indexed_init [] [{| fam_id := 1; fam_nombre := py "Vacuno" |}]
                            [] [])) (py "Ovino")) _))).
    intros f ->%list_elem_of_singleton. vm_compute. discriminate.
  - apply (proj2 (surrogate_ids_increase empty_store (indexed_init [] [] [] []))
             1 (py "Novillo") None).
    reflexivity.
  - refine (proj1 (proj2 (proj1 (proj2 (surrogate_ids_increase _
              (indexed_init [] [] [sample_producto; calabacin] []))
              2 (py "Pepino") None) _))).
    intros p [->| ->%list_elem_of_singleton]%elem_of_cons;
      vm_compute; discriminate.
Defined.

(** The product CALABACÍN of family 2, stored without a link, is found
    under another spelling and gets the link. *)
Lemma get_or_create_producto_existing_witness :
  let r := get_or_create_producto (JsonStore_init [] [] [sample_producto; calabacin] [])
                                  2 (py " calabacín" ++ nbsp)
                                  (Some (py "ficha.php?id=7")) in
  ∃ (i : nat) (existing : producto),
    [sample_producto; calabacin] !! i = Some existing
    ∧ producto_key existing = (2, py "calabacín")
    ∧ r.1 = pro_id existing
    ∧ productos r.2
      = <[i := {| pro_id := pro_id existing;
                  pro_familia_id := pro_familia_id existing;
                  pro_nombre := pro_nombre existing;
                  pro_url := if truthy (Some (py "ficha.php?id=7"))
                                && negb (truthy (pro_url existing))
                             then Some (py "ficha.php?id=7")
                             else pro_url existing |}]>
        [sample_producto; calabacin]
    ∧ length (productos r.2) = 2%nat
    ∧ pro_id <$> productos r.2 = [1; 4]
    ∧ pro_familia_id <$> productos r.2 = [1; 2]
    ∧ pro_nombre <$> productos r.2 = [py "Novillo"; py "CALABACÍN"]
    ∧ subastas r.2 = [] ∧ familias r.2 = [] ∧ precios r.2 = [].
Proof.
  assert (Hin : ∃ p, p ∈ [sample_producto; calabacin]
                     ∧ producto_key p
                       = (2, lower (strip (py " calabacín" ++ nbsp)))).
  { exists calabacin. split; [right; apply list_elem_of_here | reflexivity]. }
  exact (get_or_create_producto_existing
           (JsonStore_init [] [] [sample_producto; calabacin] []) 2
           (py " calabacín" ++ nbsp) (Some (py "ficha.php?id=7"))
           (indexed_init [] [] [sample_producto; calabacin] []) Hin).
Defined.



Lemma has_error_response_policy_witness :
  has_error_response (py "<b>ERROR</b><table class='tab_pre_pro'></table>")
  = false.
Proof.
  apply has_error_response_policy.
  - exists (py "<b>"), (py "</b><table class='tab_pre_pro'></table>").
    vm_compute. reflexivity.
  - exists (py "<b>ERROR</b><table class='"), (py "'></table>").
    vm_compute. reflexivity.
Defined.

(** A product row after a bare header is filed under the family of the
    header before it; when that header's cell holds only a no-break space,
    there is no family and the row is skipped. *)
Lemma parse_rows_bare_header_witness :
  parse_rows sample_page
  = (acc ← rows_of [family_header (py "Vacuno"); sample_row]; Ok acc.2)
  ∧ rows_of [family_header (py "Vacuno"); bare_header; sample_row]
    = Ok (py "Vacuno",
          [{| family_name := py "Vacuno"; product_name := py "Novillo";
              product_url := None;
              cuts := [Some 1200; None; None; Some 980] |}])
  ∧ rows_of [family_header nbsp; bare_header; sample_row] = Ok ([], []).
Proof.
  assert (Hh : py "familias_subasta" ∈ get_classes bare_header)
    by apply list_elem_of_here.
  assert (Hc : select_one td_fam bare_header = None) by reflexivity.
  destruct (parse_rows_bare_header bare_header Hh Hc) as (_ & _ & _ & Hp & Hdoc).
  split; [|split].
  - apply (Hdoc sample_page
             (Tag (py "table") [py "tab_pre_pro"] ∅
                  [family_header (py "Vacuno"); bare_header; sample_row])
             [family_header (py "Vacuno")] [sample_row]); reflexivity.
  - etrans; [|reflexivity].
    refine (proj2 (Hp [family_header (py "Vacuno")] sample_row
                      (Tag (py "td") [py "pro"] ∅ [Text (py "Novillo")]) _ eq_refl)).
    vm_compute. intros Hin. repeat (apply elem_of_cons in Hin as [Hin|Hin];
                                    [discriminate Hin|]).
    by apply elem_of_nil in Hin.
  - etrans; [|reflexivity].
    refine (proj2 (Hp [family_header nbsp] sample_row
                      (Tag (py "td") [py "pro"] ∅ [Text (py "Novillo")]) _ eq_refl)).
    vm_compute. intros Hin. repeat (apply elem_of_cons in Hin as [Hin|Hin];
                                    [discriminate Hin|]).
    by apply elem_of_nil in Hin.
Defined.

(** The end-to-end scenario of the specification: three auctions are
    queried for the first of January 2099, only auction 3 has a price table,
    and what is saved is one auction, one family, one product and one price,
    dated by the page and not by the request.  A second run over the saved
    data inserts nothing and saves the same data. *)
Example run_scrapper_end_to_end :
  let first_run :=
    outcome (run_scrapper scenario_site scenario_soup
               {| year := 2099; month := 1; day := 1 |} 1 3 empty_store) in
  let saved :=
    ([{| sub_id := 3; sub_nombre := py "Lonja de prueba" |}],
     [{| fam_id := 1; fam_nombre := py "Vacuno" |}],
     [{| pro_id := 1; pro_familia_id := 1; pro_nombre := py "Novillo";
         pro_url := None |}],
     [{| pre_subasta_id := 3; pre_fecha := py "2024-03-05"; pre_producto_id := 1;
         pre_corte := 1; pre_precio := 1500 |}]) in
  first_run = Some (saved, 3, 1)
  ∧ outcome (run_scrapper scenario_site scenario_soup
               {| year := 2099; month := 1; day := 1 |} 1 3
               (JsonStore_init saved.1.1.1 saved.1.1.2 saved.1.2 saved.2))
    = Some (saved, 3, 0).
Proof. split; vm_compute; reflexivity. Qed.

Lemma natural_keys_stay_unique_witness :
  let st := fold_left perform
              [GetOrCreateFamilia (py "Vacuno"); GetOrCreateFamilia (py " VACUNO ");
               GetOrCreateProducto 1 (py "novillo") None;
               UpsertSubasta 3 (py "Lonja")]
              (JsonStore_init [] [] [sample_producto] []) in
  NoDup (sub_id <$> subastas st) ∧ NoDup (familia_key <$> familias st)
  ∧ NoDup (producto_key <$> productos st).
Proof.
  destruct (natural_keys_stay_unique [] [] [sample_producto] []
              [GetOrCreateFamilia (py "Vacuno"); GetOrCreateFamilia (py " VACUNO ");
               GetOrCreateProducto 1 (py "novillo") None;
               UpsertSubasta 3 (py "Lonja")])
    as (Hs & Hf & Hp).
  split; [apply Hs, NoDup_nil_2|]. split; [apply Hf, NoDup_nil_2|].
  apply Hp, NoDup_singleton.
Defined.

Lemma surrogate_ids_stay_unique_witness :
  let st := fold_left perform
              [GetOrCreateFamilia (py "Vacuno"); GetOrCreateFamilia (py "Ovino");
               GetOrCreateProducto 1 (py "Ternero") None]
              (JsonStore_init [] [] [sample_producto] []) in
  NoDup (fam_id <$> familias st) ∧ NoDup (pro_id <$> productos st).
Proof.
  destruct (surrogate_ids_stay_unique (JsonStore_init [] [] [sample_producto] [])
              [GetOrCreateFamilia (py "Vacuno"); GetOrCreateFamilia (py "Ovino");
               GetOrCreateProducto 1 (py "Ternero") None]) as (Hf & Hp).
  split; [apply Hf, NoDup_nil_2 | apply Hp, NoDup_singleton].
Defined.

Lemma get_or_create_producto_twice_witness :
  let r1 := get_or_create_producto empty_store 1 (py "Novillo") None in
  let r2 := get_or_create_producto r1.2 1 (py " NOVILLO ")
                                   (Some (py "ficha.php?id=7")) in
  r2.1 = r1.1
  ∧ length (productos r2.2) = length (productos r1.2)
  ∧ (length (productos r2.2) ≤ S (length (productos empty_store)))%nat
  ∧ (truthy None = true ∨ truthy (Some (py "ficha.php?id=7")) = false →
     r2.2 = r1.2)
  ∧ ∃ j p, productos r2.2 !! j = Some p ∧ pro_id p = r1.1
           ∧ (truthy None = true ∨ truthy (Some (py "ficha.php?id=7")) = true →
              truthy (pro_url p) = true).
Proof.
  apply (get_or_create_producto_twice empty_store 1 (py "Novillo")
           (py " NOVILLO ") None (Some (py "ficha.php?id=7"))).
  reflexivity.
Defined.

Lemma parse_cuts_nonneg_witness : 0 ≤ 980.
Proof.
  apply (parse_cuts_nonneg (Tag (py "tr") [] ∅ [price_cell (py "-980")])
           [Some 980] 980).
  - reflexivity.
  - apply list_elem_of_here.
Defined.

Lemma parse_product_url_sound_witness :
  nonempty (py "ficha.php?id=7") = true
  ∧ all_chars not_quote (py "ficha.php?id=7") = true
  ∧ ∃ pre ws1 ws2 post,
      get_attr (Tag (py "tr") []
                    {[py "onclick" := py "window.location = 'ficha.php?id=7';"]} [])
               (py "onclick") []
      = pre ++ py "window.location" ++ ws1 ++ py "=" ++ ws2
            ++ py "'" ++ py "ficha.php?id=7" ++ py "'" ++ post
      ∧ all_chars isspace ws1 = true ∧ all_chars isspace ws2 = true.
Proof.
  apply (parse_product_url_sound
           (Tag (py "tr") []
                {[py "onclick" := py "window.location = 'ficha.php?id=7';"]} [])
           (py "ficha.php?id=7")).
  vm_compute. reflexivity.
Defined.

Lemma parse_product_url_recognises_witness :
  parse_product_url
    (Tag (py "tr") []
         {[py "onclick" := py "javascript:window.location ='ficha.php?id=7'"]} [])
  = Some (py "ficha.php?id=7").
Proof.
  apply (parse_product_url_recognises
           (Tag (py "tr") []
                {[py "onclick" := py "javascript:window.location ='ficha.php?id=7'"]} [])
           (py "javascript:") (py " ") [] (py "ficha.php?id=7") []); reflexivity.
Defined.

Lemma date_to_iso_injective_witness :
  (date_to_iso {| year := 2024; month := 3; day := 5 |}
   = date_to_iso {| year := 2024; month := 5; day := 3 |} →
   {| year := 2024; month := 3; day := 5 |}
   = {| year := 2024; month := 5; day := 3 |})
  ∧ (1000 ≤ 2024 →
     length (date_to_iso {| year := 2024; month := 3; day := 5 |}) = 10%nat).
Proof.
  apply (date_to_iso_injective {| year := 2024; month := 3; day := 5 |}
           {| year := 2024; month := 5; day := 3 |}); reflexivity.
Defined.

Lemma extract_table_date_reads_shown_date_witness :
  extract_table_date scenario_page {| year := 2099; month := 1; day := 1 |}
  = Ok {| year := 2024; month := 3; day := 5 |}.
Proof.
  apply (extract_table_date_reads_shown_date scenario_page
           (Tag (py "td") [py "titNombreder"] ∅ [Text (py "Fecha: 05-03-2024")])
           {| year := 2024; month := 3; day := 5 |}
           {| year := 2099; month := 1; day := 1 |} (py "Fecha: ") []);
    reflexivity.
Defined.

Lemma parse_input_date_reads_php_format_witness :
  parse_input_date {| year := 2026; month := 11; day := 4 |}
                   (Some (date_to_php_format {| year := 2024; month := 2; day := 29 |}))
  = Ok {| year := 2024; month := 2; day := 29 |}.
Proof.
  apply (parse_input_date_reads_php_format
           {| year := 2026; month := 11; day := 4 |}
           {| year := 2024; month := 2; day := 29 |}); [reflexivity|].
  simpl. lia.
Defined.


(** The end-to-end scenario completes. *)
Lemma scenario_run :
  ∃ rs saved,
    run_scrapper scenario_site scenario_soup
                 {| year := 2099; month := 1; day := 1 |} 1 3
                 (JsonStore_init [] [] [] []) = Ok (rs, saved).
Proof.
  assert (Hr : returned (run_scrapper scenario_site scenario_soup
                          {| year := 2099; month := 1; day := 1 |} 1 3
                          (JsonStore_init [] [] [] [])) = true)
    by (vm_compute; reflexivity).
  destruct (run_scrapper _ _ _ _ _ _) as [[rs saved]|e]; [eauto | discriminate Hr].
Qed.

Lemma run_scrapper_idempotent_witness :
  ∃ rs1 saved rs2,
    run_scrapper scenario_site scenario_soup
                 {| year := 2099; month := 1; day := 1 |} 1 3
                 (JsonStore_init [] [] [] []) = Ok (rs1, saved)
    ∧ run_scrapper scenario_site scenario_soup
                   {| year := 2099; month := 1; day := 1 |} 1 3
                   (JsonStore_init saved.1.1.1 saved.1.1.2 saved.1.2 saved.2)
      = Ok (rs2, saved)
    ∧ inserted_prices rs2 = 0.
Proof.
  destruct scenario_run as (rs1 & saved & E).
  destruct (run_scrapper_idempotent scenario_site scenario_soup _ _ _ _ _ _ _
              _ _ E) as (rs2 & E2 & H0 & _).
  exists rs1, saved, rs2. split; [exact E|]. split; [exact E2 | exact H0].
Defined.

Lemma run_scrapper_counts_witness :
  ∃ rs saved,
    run_scrapper scenario_site scenario_soup
                 {| year := 2099; month := 1; day := 1 |} 1 3
                 (JsonStore_init [] [] [] [])
    = Ok (rs, saved)
    ∧ queried rs = Z.max 0 1 * Z.max 0 3
    ∧ 0 ≤ inserted_prices rs
    ∧ Z.of_nat (length (precios (store rs)))
      = Z.of_nat (length (precios (JsonStore_init [] [] [] [])))
        + inserted_prices rs
    ∧ saved = save (store rs)
    ∧ last (printed rs) = Some (OkSummary (queried rs) (inserted_prices rs)).
Proof.
  destruct scenario_run as (rs & saved & E).
  exists rs, saved. split; [exact E|].
  exact (run_scrapper_counts scenario_site scenario_soup _ _ _ _ _ _ E).
Defined.

Lemma run_scrapper_store_witness :
  ∃ rs saved,
    run_scrapper scenario_site scenario_soup
                 {| year := 2099; month := 1; day := 1 |} 1 3
                 (JsonStore_init [] [] [] [])
    = Ok (rs, saved)
    ∧ (∃ calls, store rs = fold_left perform calls (JsonStore_init [] [] [] []))
    ∧ indexed (store rs)
    ∧ JsonStore_init saved.1.1.1 saved.1.1.2 saved.1.2 saved.2 = store rs.
Proof.
  destruct scenario_run as (rs & saved & E).
  destruct (run_scrapper_store scenario_site scenario_soup _ _ _ _ _ _ E)
    as (Hc & _ & _ & _ & _ & Hi).
  exists rs, saved. split; [exact E|]. split; [exact Hc|].
  apply Hi, indexed_init.
Defined.

Lemma run_scrapper_keeps_references_witness :
  ∃ rs1 saved,
    run_scrapper scenario_site scenario_soup
                 {| year := 2099; month := 1; day := 1 |} 1 3
                 (JsonStore_init [] [] [] []) = Ok (rs1, saved)
    ∧ linked (store rs1).
Proof.
  destruct scenario_run as (rs1 & saved & E).
  exists rs1, saved. split; [exact E|].
  refine (proj1 (run_scrapper_keeps_references scenario_site scenario_soup
                   _ _ _ _ _ _ _ _ _ _ E)).
  split; intros x Hx; destruct (not_elem_of_nil x Hx).
Defined.

Lemma get_or_create_returns_match_witness :
  let r := get_or_create_producto (JsonStore_init [] [] [sample_producto] [])
                                  1 (py " NOVILLO") None in
  ∃ p, p ∈ productos r.2 ∧ pro_id p = r.1 ∧ pro_familia_id p = 1
       ∧ lower (strip (pro_nombre p)) = lower (strip (py " NOVILLO")).
Proof.
  apply (get_or_create_returns_match (JsonStore_init [] [] [sample_producto] [])
           1 (py " NOVILLO") None).
  apply indexed_init.
Defined.

